(** * PremiumRoute: rate calculation, identifiers, status history, approval
      and report averages

    A shallow embedding of the parts of the PremiumRoute Django project that
    its specification talks about, and of the handlers next to them:

    - [api/views.py]        [CalculateRateView.post], [ShipmentViewSet.stats],
                            [ShipmentViewSet.perform_create],
                            [ConsignmentViewSet.approve], [PaymentViewSet.process],
                            [TrackShipmentView.get], [TrackingWebhookView.post],
                            [ShipmentReportView.get], [FinancialReportView.get]
    - [api/serializers.py]  [ShipmentCreateSerializer.create]
    - [api/permissions.py]  [IsOwner.has_object_permission]
    - [shipping/models.py]  [Shipment.save], [Shipment.generate_tracking_number]
    - [consignment/models.py] [Consignment.save]
    - [payments/models.py]  [Payment.save]
    - [shipping/views.py]   [create_shipment], [shipment_detail],
                            [update_shipment_status]
    - [tracking/views.py]   [webhook_update]
    - [reports/views.py]    the two [Avg(...) or 0] aggregates

    Python [float] is IEEE binary64 and is modelled by Rocq's primitive
    [float]; [Decimal] money amounts are modelled by their exact rational
    value ([Qc]), and the decimal columns of a stored consignment hold them
    as they read back, at two places; database tables are lists of rows; handlers run in a
    state-and-exception monad over the database, the clock and the random
    source.  All definitions come first, the theorems follow. *)

From Stdlib Require Import ZArith NArith QArith Qcanon Floats Ascii String DecimalString.
From Stdlib Require DecimalN.
From stdpp Require Import base option numbers list strings gmap.

Set Default Proof Using "Type".
#[local] Set Warnings "-inexact-float".

(* ===================================================================== *)
(** * Part I: definitions                                                 *)
(* ===================================================================== *)

(** ** Python numbers *)

(** The values a Python numeric expression of the handlers can have: an
    [int], a [float], or a [Decimal] (by its exact value). *)
Inductive pynum :=
  | PyInt (z : Z)
  | PyFloat (f : float)
  | PyDecimal (d : Qc).

(** [float(n)] for an [int]: the nearest binary64 value. *)
Definition float_of_int (z : Z) : float :=
  SF2Prim (binary_normalize prec emax z 0 false).

(** [x + y] with [x] a float: the right operand is converted to float first
    ([float + Decimal] is a [TypeError] in Python). *)
Definition float_add_num (x : float) (y : pynum) : option float :=
  match y with
  | PyInt z => Some (x + float_of_int z)%float
  | PyFloat f => Some (x + f)%float
  | PyDecimal _ => None
  end.

(** Truth value of a number: [bool(x)]. *)
Definition pynum_truthy (x : pynum) : bool :=
  match x with
  | PyInt z => negb (z =? 0)%Z
  | PyFloat f => negb (f =? 0)%float
  | PyDecimal d => negb (bool_decide (d = 0%Qc))
  end.

(** Truth value of a string: [bool(s)]. *)
Definition str_truthy (s : string) : bool := negb (bool_decide (s = ""%string)).

(** ** Binary64 rounding, read on integers *)

Module Binary64.

(** Round to the nearest integer, ties to even, of [X / 2^n]. *)
Definition rne (X n : Z) : Z :=
  let q := (X / 2 ^ n)%Z in
  let t := (X mod 2 ^ n)%Z in
  if (2 ^ n <? 2 * t)%Z || ((2 * t =? 2 ^ n)%Z && Z.odd q) then (q + 1)%Z else q.

(** The least exponent of a finite binary64 number, and the scale at which
    every exact sum or product of two such numbers is an integer. *)
Definition e_min : Z := (-1074)%Z.
Definition scale : Z := 2148%Z.

(** The value of a non-negative float in units of [2^e_min]; infinity is
    sent to the first power of two that no finite float reaches. *)
Definition value (x : spec_float) : Z :=
  match x with
  | S754_finite _ m e => (Zpos m * 2 ^ (e - e_min))%Z
  | S754_infinity _ => (2 ^ 2098)%Z
  | _ => 0%Z
  end.

(** Zero, a positive finite number, or plus infinity. *)
Definition nonneg (x : spec_float) : bool :=
  match x with
  | S754_zero _ => true
  | S754_finite s _ _ => negb s
  | S754_infinity s => negb s
  | S754_nan => false
  end.

(** Zero or a positive finite number. *)
Definition nonneg_finite (x : spec_float) : bool :=
  match x with
  | S754_zero _ => true
  | S754_finite s _ _ => negb s
  | _ => false
  end.

(** A positive normal number: full 53-bit mantissa. *)
Definition positive_normal (x : spec_float) : bool :=
  match x with
  | S754_finite false m _ => (Zpos (digits2_pos m) =? 53)%Z
  | _ => false
  end.

(** The binary64 number nearest to [X * 2^(-scale)], in units of [2^e_min],
    for an integer [X >= 0]. *)
Definition round (X : Z) : Z :=
  if (X =? 0)%Z then 0%Z
  else
    let d := (Z.log2 X + 1)%Z in
    let E := Z.max (d - scale - 53) e_min in
    Z.min (rne X (E + scale) * 2 ^ (E - e_min)) (2 ^ 2098).

End Binary64.

(** ** The rate calculator: [api/views.py], [CalculateRateView.post] *)

Module CalculateRateView.

  (** What [float(v)] does with a value [v] taken from the request body. *)
Inductive raw :=
    | RNum (f : float)      (** a number, or a string that [float] parses: the result is [f] *)
    | RBad (msg : string).  (** anything [float] raises on; [msg] is [str(e)] *)

  (** [request.data]: each key may be absent ([None] here), in which case
      [data.get(key, default)] yields the default. *)
Record Request := {
    weight : option raw;
    length : option raw;
    width : option raw;
    height : option raw;
    from_country : option string;
    to_country : option string;
    service_type : option string;
    declared_value : option raw;
  }.

  (** The JSON body of the answer. *)
Record Breakdown := {
    base_rate : float;
    weight_rate : float;
    distance_multiplier : float;
    service_multiplier : float;
    insurance : pynum;
    total : float;
    currency : string;
    estimated_days : string;
  }.

Inductive Response :=
    | Ok200 (body : Breakdown)          (** ['success': True, ...] *)
    | BadRequest400 (error : string).   (** ['success': False, 'error': str(e)] *)

  (** [float(data.get(key, 0))] *)
Definition float_get (v : option raw) : string + float :=
    match v with
    | None => inr (float_of_int 0)
    | Some (RNum f) => inr f
    | Some (RBad msg) => inl msg
    end.

  (** The dict literal of the handler. *)
Definition service_multipliers : gmap string float :=
    <["standard" := 1.0%float]> (<["express" := 1.5%float]>
    (<["overnight" := 2.0%float]> (<["same_day" := 2.5%float]> ∅))).

  (** The body of the [try] block once the four numbers are converted. *)
Definition compute (weight length width height : float)
      (from_country to_country service_type : string)
      (declared_value : float) : Response :=
    let base_rate := 10.0%float in
    let weight_rate := (weight * 2.0)%float in
    let distance_multiplier :=
      if negb (bool_decide (from_country = to_country)) then 1.5%float else 1.0%float in
    let service_multiplier := default 1.0%float (service_multipliers !! service_type) in
    let total := ((base_rate + weight_rate) * distance_multiplier * service_multiplier)%float in
    let insurance :=
      if (0 <? declared_value)%float then PyFloat (declared_value * 0.01)%float else PyInt 0 in
    match float_add_num total insurance with
    | None => BadRequest400 "unsupported operand type(s) for +"
    | Some total_insured =>
        Ok200 {| base_rate := base_rate;
                 weight_rate := weight_rate;
                 distance_multiplier := distance_multiplier;
                 service_multiplier := service_multiplier;
                 insurance := insurance;
                 total := total_insured;
                 currency := "USD";
                 estimated_days :=
                   if bool_decide (service_type = "standard"%string)
                   then "3-5 business days" else "1-2 business days" |}
    end.

  (** [post]: the conversions happen in source order, the first failing one
      decides the error message; [except Exception] turns it into a 400. *)
Definition post (request : Request) : Response :=
    match float_get (weight request) with
    | inl e => BadRequest400 e
    | inr weight_ =>
      match float_get (length request) with
      | inl e => BadRequest400 e
      | inr length_ =>
        match float_get (width request) with
        | inl e => BadRequest400 e
        | inr width_ =>
          match float_get (height request) with
          | inl e => BadRequest400 e
          | inr height_ =>
            let from_country_ := default "US"%string (from_country request) in
            let to_country_ := default "US"%string (to_country request) in
            let service_type_ := default "standard"%string (service_type request) in
            match float_get (declared_value request) with
            | inl e => BadRequest400 e
            | inr declared_value_ =>
                compute weight_ length_ width_ height_
                        from_country_ to_country_ service_type_ declared_value_
            end
          end
        end
      end
    end.

  (** The policy as the specification words it, for comparison with [post]. *)
Definition spec_distance_multiplier (origin destination : string) : float :=
    if bool_decide (origin = destination) then 1.0%float else 1.5%float.

Definition spec_service_multiplier (service_type : string) : float :=
    if bool_decide (service_type = "standard"%string) then 1.0%float
    else if bool_decide (service_type = "express"%string) then 1.5%float
    else if bool_decide (service_type = "overnight"%string) then 2.0%float
    else if bool_decide (service_type = "same_day"%string) then 2.5%float
    else 1.0%float.

Definition spec_insurance (declared_value : float) : float :=
    if (0 <? declared_value)%float then (0.01 * declared_value)%float else 0%float.

Definition spec_amount (weight : float) (service_type origin destination : string)
      (declared_value : float) : float :=
    ((10.0 + weight * 2.0) * spec_distance_multiplier origin destination
       * spec_service_multiplier service_type
     + spec_insurance declared_value)%float.

  (** A request carrying the five inputs of the calculator and dimensions. *)
Definition request_of (weight_ : float) (service_type_ origin destination : string)
      (declared_value_ : float) (dims : option raw * option raw * option raw) : Request :=
    {| weight := Some (RNum weight_);
       length := dims.1.1; width := dims.1.2; height := dims.2;
       from_country := Some origin; to_country := Some destination;
       service_type := Some service_type_;
       declared_value := Some (RNum declared_value_) |}.

  (** The amount of an answer, when there is one. *)
Definition amount (r : Response) : option float :=
    match r with Ok200 b => Some (total b) | BadRequest400 _ => None end.

End CalculateRateView.

(** ** Identifiers: [uuid.uuid4().int], [str(...)[:n].upper()] *)

(** [uuid.UUID(bytes=os.urandom(16), version=4).int]: the 128 random bits
    with the RFC 4122 variant and the version number 4 written over them. *)
Definition uuid4_int (random128 : N) : N :=
  let i := (random128 mod 2 ^ 128)%N in
  let i := N.ldiff i (N.shiftl 0xc000 48) in
  let i := N.lor i (N.shiftl 0x8000 48) in
  let i := N.ldiff i (N.shiftl 0xf000 64) in
  N.lor i (N.shiftl 4 76).

(** [str(n)] for a non-negative [int]. *)
Definition str_of_int (n : N) : string := NilEmpty.string_of_uint (N.to_uint n).

(** [s[:n]] *)
Fixpoint str_take (n : nat) (s : string) : string :=
  match n, s with
  | S n', String c s' => String c (str_take n' s')
  | _, _ => EmptyString
  end.

(** [s.upper()] on ASCII text. *)
Definition ascii_upper (c : ascii) : ascii :=
  let n := nat_of_ascii c in
  if (97 <=? n)%nat && (n <=? 122)%nat then ascii_of_nat (n - 32) else c.

Fixpoint str_upper (s : string) : string :=
  match s with
  | EmptyString => EmptyString
  | String c s' => String (ascii_upper c) (str_upper s')
  end.

(** [f"{prefix}{str(uuid.uuid4().int)[:n].upper()}"] *)
Definition generate_identifier (prefix : string) (n : nat) (random128 : N) : string :=
  (prefix +:+ str_upper (str_take n (str_of_int (uuid4_int random128))))%string.

(** ** Rows of the tables the handlers touch

    Only the columns the handlers read or write are kept; the address,
    contact and document columns are plain data that no modelled code
    inspects.  [pk] is [None] until the row is first inserted. *)

Module User.
Record t := mk {
    pk : nat;
    email : string;
    user_type : string;    (** 'customer' | 'staff' | 'admin' *)
  }.
End User.

Module Shipment.
Record t := mk {
    pk : option nat;
    tracking_number : string;
    user : option nat;
    status : string;
    payment_status : string;
    sender_country : string;
    receiver_country : string;
    weight : Qc;
    shipping_method : string;
    shipping_cost : Qc;
    insurance_cost : Qc;
    tax : Qc;
    total_cost : Qc;
    created_at : Z;
    created_by : option nat;
  }.
End Shipment.

Module ShipmentHistory.
Record t := mk {
    pk : option nat;
    shipment : option nat;       (** foreign key: the parent's [pk] *)
    status : string;
    location : string;
    description : string;
    created_at : Z;
    created_by : option nat;
  }.
End ShipmentHistory.

Module Consignment.
Record t := mk {
    pk : option nat;
    consignment_number : string;
    user : option nat;
    status : string;
    freight_charges : Qc;
    handling_charges : Qc;
    insurance_charges : Qc;
    customs_charges : Qc;
    other_charges : Qc;
    total_charges : Qc;
    created_at : Z;
    approved_by : option nat;
    approved_at : option Z;
  }.
End Consignment.

Module ConsignmentHistory.
Record t := mk {
    pk : option nat;
    consignment : option nat;    (** foreign key: the parent's [pk] *)
    status : string;
    location : string;
    description : string;
    created_at : Z;
    created_by : option nat;
  }.
End ConsignmentHistory.

Module Payment.
Record t := mk {
    pk : option nat;
    payment_id : string;
    user : option nat;
    status : string;
    payment_method : string;
    amount : Qc;
    created_at : Z;
  }.
End Payment.

(** ** The world a handler runs in *)

(** The database (one list of rows per table, most recently inserted row
    first), the clock read by [timezone.now()] and [auto_now_add], and the
    source of [os.urandom(16)] with the number of draws so far. *)
Record World := {
  shipments : list Shipment.t;
  shipment_histories : list ShipmentHistory.t;
  consignments : list Consignment.t;
  consignment_histories : list ConsignmentHistory.t;
  payments : list Payment.t;
  now : Z;
  urandom : nat → N;
  draws : nat;
}.

(** Exceptions that leave a model method or a view. *)
Inductive exn :=
  | Http404
  | MultipleObjectsReturned
  | IntegrityError
  | PermissionDenied
  | ZeroDivisionError
  | InvalidOperation      (** [decimal.InvalidOperation] *)
  | AttributeError
  | UnboundLocalError.

(** State and exceptions.  The database runs in autocommit mode (the project
    sets no [ATOMIC_REQUESTS] and opens no [transaction.atomic] block), so a
    write that happened before an exception stays: the world is threaded
    through failures too. *)
Definition M (A : Type) : Type := World → (exn + A) * World.

Definition ret {A} (a : A) : M A := λ w, (inr a, w).
Definition raise {A} (e : exn) : M A := λ w, (inl e, w).
Definition bind {A B} (m : M A) (k : A → M B) : M B :=
  λ w, match m w with
       | (inl e, w') => (inl e, w')
       | (inr a, w') => k a w'
       end.
Definition get_world : M World := λ w, (inr w, w).
Definition put_world (w' : World) : M unit := λ _, (inr tt, w').

Declare Scope py_scope.
Delimit Scope py_scope with py.
Notation "'let*' x := m 'in' k" := (bind m (λ x, k))
  (at level 10, x name, m at level 100, k at level 200) : py_scope.
Notation "'run' m 'then' k" := (bind m (λ _, k))
  (at level 10, m at level 100, k at level 200) : py_scope.
Open Scope py_scope.

(** The world after a computation, and its answer. *)
Definition exec {A} (m : M A) (w : World) : World := (m w).2.
Definition eval {A} (m : M A) (w : World) : exn + A := (m w).1.

(** [os.urandom(16)] read as a big-endian integer. *)
Definition os_urandom16 : M N :=
  λ w, (inr (urandom w (draws w) mod 2 ^ 128)%N,
        {| shipments := shipments w; shipment_histories := shipment_histories w;
           consignments := consignments w;
           consignment_histories := consignment_histories w;
           payments := payments w; now := now w; urandom := urandom w;
           draws := S (draws w) |}).

(** [timezone.now()] *)
Definition timezone_now : M Z := λ w, (inr (now w), w).

(** A fresh primary key for a table whose keys are [pks]: one more than the
    largest key in use. *)
Definition fresh_pk (pks : list (option nat)) : nat :=
  S (foldr (λ k acc, Nat.max (default 0%nat k) acc) 0%nat pks).

(** ** Field assignment ([obj.field = value]) and table replacement *)

Definition Shipment_with_pk (k : option nat) (s : Shipment.t) : Shipment.t :=
  Shipment.mk k (Shipment.tracking_number s) (Shipment.user s) (Shipment.status s)
    (Shipment.payment_status s) (Shipment.sender_country s) (Shipment.receiver_country s)
    (Shipment.weight s) (Shipment.shipping_method s) (Shipment.shipping_cost s)
    (Shipment.insurance_cost s) (Shipment.tax s) (Shipment.total_cost s)
    (Shipment.created_at s) (Shipment.created_by s).

Definition Shipment_with_tracking_number (tn : string) (s : Shipment.t) : Shipment.t :=
  Shipment.mk (Shipment.pk s) tn (Shipment.user s) (Shipment.status s)
    (Shipment.payment_status s) (Shipment.sender_country s) (Shipment.receiver_country s)
    (Shipment.weight s) (Shipment.shipping_method s) (Shipment.shipping_cost s)
    (Shipment.insurance_cost s) (Shipment.tax s) (Shipment.total_cost s)
    (Shipment.created_at s) (Shipment.created_by s).

Definition Shipment_with_status (st : string) (s : Shipment.t) : Shipment.t :=
  Shipment.mk (Shipment.pk s) (Shipment.tracking_number s) (Shipment.user s) st
    (Shipment.payment_status s) (Shipment.sender_country s) (Shipment.receiver_country s)
    (Shipment.weight s) (Shipment.shipping_method s) (Shipment.shipping_cost s)
    (Shipment.insurance_cost s) (Shipment.tax s) (Shipment.total_cost s)
    (Shipment.created_at s) (Shipment.created_by s).

Definition Shipment_with_created_at (t : Z) (s : Shipment.t) : Shipment.t :=
  Shipment.mk (Shipment.pk s) (Shipment.tracking_number s) (Shipment.user s)
    (Shipment.status s)
    (Shipment.payment_status s) (Shipment.sender_country s) (Shipment.receiver_country s)
    (Shipment.weight s) (Shipment.shipping_method s) (Shipment.shipping_cost s)
    (Shipment.insurance_cost s) (Shipment.tax s) (Shipment.total_cost s)
    t (Shipment.created_by s).

(** [shipment.user = u; shipment.created_by = u; shipment.shipping_cost = c;
    shipment.total_cost = t] of [create_shipment]. *)
Definition Shipment_with_owner_and_costs (u : nat) (cost total : Qc) (s : Shipment.t)
    : Shipment.t :=
  Shipment.mk (Shipment.pk s) (Shipment.tracking_number s) (Some u) (Shipment.status s)
    (Shipment.payment_status s) (Shipment.sender_country s) (Shipment.receiver_country s)
    (Shipment.weight s) (Shipment.shipping_method s) cost
    (Shipment.insurance_cost s) (Shipment.tax s) total
    (Shipment.created_at s) (Some u).

Definition Consignment_with_pk (k : option nat) (c : Consignment.t) : Consignment.t :=
  Consignment.mk k (Consignment.consignment_number c) (Consignment.user c)
    (Consignment.status c) (Consignment.freight_charges c) (Consignment.handling_charges c)
    (Consignment.insurance_charges c) (Consignment.customs_charges c)
    (Consignment.other_charges c) (Consignment.total_charges c)
    (Consignment.created_at c) (Consignment.approved_by c) (Consignment.approved_at c).

Definition Consignment_with_consignment_number (cn : string) (c : Consignment.t)
    : Consignment.t :=
  Consignment.mk (Consignment.pk c) cn (Consignment.user c)
    (Consignment.status c) (Consignment.freight_charges c) (Consignment.handling_charges c)
    (Consignment.insurance_charges c) (Consignment.customs_charges c)
    (Consignment.other_charges c) (Consignment.total_charges c)
    (Consignment.created_at c) (Consignment.approved_by c) (Consignment.approved_at c).

Definition Consignment_with_status (st : string) (c : Consignment.t) : Consignment.t :=
  Consignment.mk (Consignment.pk c) (Consignment.consignment_number c) (Consignment.user c)
    st (Consignment.freight_charges c) (Consignment.handling_charges c)
    (Consignment.insurance_charges c) (Consignment.customs_charges c)
    (Consignment.other_charges c) (Consignment.total_charges c)
    (Consignment.created_at c) (Consignment.approved_by c) (Consignment.approved_at c).

Definition Consignment_with_total_charges (t : Qc) (c : Consignment.t) : Consignment.t :=
  Consignment.mk (Consignment.pk c) (Consignment.consignment_number c) (Consignment.user c)
    (Consignment.status c) (Consignment.freight_charges c) (Consignment.handling_charges c)
    (Consignment.insurance_charges c) (Consignment.customs_charges c)
    (Consignment.other_charges c) t
    (Consignment.created_at c) (Consignment.approved_by c) (Consignment.approved_at c).

Definition Consignment_with_created_at (t : Z) (c : Consignment.t) : Consignment.t :=
  Consignment.mk (Consignment.pk c) (Consignment.consignment_number c) (Consignment.user c)
    (Consignment.status c) (Consignment.freight_charges c) (Consignment.handling_charges c)
    (Consignment.insurance_charges c) (Consignment.customs_charges c)
    (Consignment.other_charges c) (Consignment.total_charges c)
    t (Consignment.approved_by c) (Consignment.approved_at c).

Definition Consignment_with_approved_by (u : option nat) (c : Consignment.t)
    : Consignment.t :=
  Consignment.mk (Consignment.pk c) (Consignment.consignment_number c) (Consignment.user c)
    (Consignment.status c) (Consignment.freight_charges c) (Consignment.handling_charges c)
    (Consignment.insurance_charges c) (Consignment.customs_charges c)
    (Consignment.other_charges c) (Consignment.total_charges c)
    (Consignment.created_at c) u (Consignment.approved_at c).

Definition Consignment_with_approved_at (t : option Z) (c : Consignment.t)
    : Consignment.t :=
  Consignment.mk (Consignment.pk c) (Consignment.consignment_number c) (Consignment.user c)
    (Consignment.status c) (Consignment.freight_charges c) (Consignment.handling_charges c)
    (Consignment.insurance_charges c) (Consignment.customs_charges c)
    (Consignment.other_charges c) (Consignment.total_charges c)
    (Consignment.created_at c) (Consignment.approved_by c) t.

Definition Payment_with_pk (k : option nat) (p : Payment.t) : Payment.t :=
  Payment.mk k (Payment.payment_id p) (Payment.user p) (Payment.status p)
    (Payment.payment_method p) (Payment.amount p) (Payment.created_at p).

Definition Payment_with_payment_id (i : string) (p : Payment.t) : Payment.t :=
  Payment.mk (Payment.pk p) i (Payment.user p) (Payment.status p)
    (Payment.payment_method p) (Payment.amount p) (Payment.created_at p).

Definition Payment_with_created_at (t : Z) (p : Payment.t) : Payment.t :=
  Payment.mk (Payment.pk p) (Payment.payment_id p) (Payment.user p) (Payment.status p)
    (Payment.payment_method p) (Payment.amount p) t.

Definition with_shipments (l : list Shipment.t) (w : World) : World :=
  {| shipments := l; shipment_histories := shipment_histories w;
     consignments := consignments w; consignment_histories := consignment_histories w;
     payments := payments w; now := now w; urandom := urandom w; draws := draws w |}.

Definition with_shipment_histories (l : list ShipmentHistory.t) (w : World) : World :=
  {| shipments := shipments w; shipment_histories := l;
     consignments := consignments w; consignment_histories := consignment_histories w;
     payments := payments w; now := now w; urandom := urandom w; draws := draws w |}.

Definition with_consignments (l : list Consignment.t) (w : World) : World :=
  {| shipments := shipments w; shipment_histories := shipment_histories w;
     consignments := l; consignment_histories := consignment_histories w;
     payments := payments w; now := now w; urandom := urandom w; draws := draws w |}.

Definition with_consignment_histories (l : list ConsignmentHistory.t) (w : World) : World :=
  {| shipments := shipments w; shipment_histories := shipment_histories w;
     consignments := consignments w; consignment_histories := l;
     payments := payments w; now := now w; urandom := urandom w; draws := draws w |}.

Definition with_payments (l : list Payment.t) (w : World) : World :=
  {| shipments := shipments w; shipment_histories := shipment_histories w;
     consignments := consignments w; consignment_histories := consignment_histories w;
     payments := l; now := now w; urandom := urandom w; draws := draws w |}.

(** ** Decimal columns

    A [DecimalField(max_digits=10, decimal_places=2)] on SQLite: a value is
    written as it is and converted when it is read, to two decimal places
    (round half even), and the conversion raises [decimal.InvalidOperation]
    when the result needs more than [max_digits] digits.  A row of the table
    is kept here as it reads back, with its decimal columns at two places.
    This follows the column for values of at most 15 significant digits:
    every value that a form, a serializer or the database hands out, and
    every sum of five of them. *)

(** [a / b] rounded to the nearest integer, ties to the even one. *)
Definition round_half_even (a : Z) (b : positive) : Z :=
  let f := (a / Z.pos b)%Z in
  let r := (a mod Z.pos b)%Z in
  if (2 * r <? Z.pos b)%Z then f
  else if (Z.pos b <? 2 * r)%Z then (f + 1)%Z
  else if Z.even f then f else (f + 1)%Z.

(** The value in hundredths, rounded; [quantize(Decimal('0.01'))]. *)
Definition hundredths (q : Qc) : Z := round_half_even (Qnum q * 100) (Qden q).

Definition quantize2 (q : Qc) : Qc := Q2Qc (hundredths q # 100).

(** At most two decimal places: the column gives the value back as it is. *)
Definition two_places (q : Qc) : Prop := quantize2 q = q.

(** At most [max_digits] digits at two places. *)
Definition fits (max_digits : nat) (q : Qc) : bool :=
  (Z.abs (hundredths q) <? 10 ^ Z.of_nat max_digits)%Z.

(** A value that a column of ten digits holds and gives back as it is. *)
Definition column_value (q : Qc) : Prop := two_places q ∧ fits 10 q = true.

(** The converter of the column: what reading a stored value gives. *)
Definition DecimalField_from_db (max_digits : nat) (stored : Qc) : exn + Qc :=
  if fits max_digits stored then inr (quantize2 stored) else inl InvalidOperation.

(** The row of a consignment as it reads back: the six decimal columns at
    two places. *)
Definition Consignment_db_row (c : Consignment.t) : Consignment.t :=
  Consignment.mk (Consignment.pk c) (Consignment.consignment_number c) (Consignment.user c)
    (Consignment.status c)
    (quantize2 (Consignment.freight_charges c)) (quantize2 (Consignment.handling_charges c))
    (quantize2 (Consignment.insurance_charges c)) (quantize2 (Consignment.customs_charges c))
    (quantize2 (Consignment.other_charges c)) (quantize2 (Consignment.total_charges c))
    (Consignment.created_at c) (Consignment.approved_by c) (Consignment.approved_at c).

(** Reading a stored consignment through the ORM: every decimal column goes
    through its converter, in column order. *)
Definition Consignment_from_db (row : Consignment.t) : exn + Consignment.t :=
  match DecimalField_from_db 10 (Consignment.freight_charges row),
        DecimalField_from_db 10 (Consignment.handling_charges row),
        DecimalField_from_db 10 (Consignment.insurance_charges row),
        DecimalField_from_db 10 (Consignment.customs_charges row),
        DecimalField_from_db 10 (Consignment.other_charges row),
        DecimalField_from_db 10 (Consignment.total_charges row) with
  | inr f, inr h, inr i, inr c, inr o, inr t =>
      inr (Consignment.mk (Consignment.pk row) (Consignment.consignment_number row)
             (Consignment.user row) (Consignment.status row) f h i c o t
             (Consignment.created_at row) (Consignment.approved_by row)
             (Consignment.approved_at row))
  | _, _, _, _, _, _ => inl InvalidOperation
  end.

(** The queries of the handlers hand out the rows of the table as they
    are.  For a row [r] with [Consignment_from_db r = inr r] this is what
    the ORM returns; a row whose total does not fit makes the query itself
    raise [InvalidOperation], a case the handlers are not modelled for. *)

(** ** [django.db.models.Model.save]: UPDATE or INSERT

    With a primary key that is in the table the row is updated in place;
    otherwise the row is inserted (under its key if it has one, under a
    fresh key if not) and [auto_now_add] stamps [created_at].  The
    identifier columns are declared [unique=True]: a write that would give
    two rows the same identifier is refused by the database with
    [IntegrityError] and changes nothing.  The object that [save] returns
    keeps its values; the row of a consignment is stored as it reads
    back. *)

Definition Shipment_super_save (self : Shipment.t) : M Shipment.t := λ w,
  let rows := shipments w in
  if bool_decide (is_Some (Shipment.pk self))
     && bool_decide (Shipment.pk self ∈ Shipment.pk <$> rows)
  then
    if bool_decide (Exists (λ r, Shipment.tracking_number r = Shipment.tracking_number self
                                 ∧ Shipment.pk r ≠ Shipment.pk self) rows)
    then (inl IntegrityError, w)
    else
      (inr self,
       with_shipments
         ((λ r, if bool_decide (Shipment.pk r = Shipment.pk self) then self else r)
            <$> rows) w)
  else
    if bool_decide (Shipment.tracking_number self ∈ Shipment.tracking_number <$> rows)
    then (inl IntegrityError, w)
    else
      let k := default (fresh_pk (Shipment.pk <$> rows)) (Shipment.pk self) in
      let self := Shipment_with_created_at (now w) (Shipment_with_pk (Some k) self) in
      (inr self, with_shipments (self :: rows) w).

Definition Consignment_super_save (self : Consignment.t) : M Consignment.t := λ w,
  let rows := consignments w in
  if bool_decide (is_Some (Consignment.pk self))
     && bool_decide (Consignment.pk self ∈ Consignment.pk <$> rows)
  then
    if bool_decide (Exists (λ r, Consignment.consignment_number r
                                   = Consignment.consignment_number self
                                 ∧ Consignment.pk r ≠ Consignment.pk self) rows)
    then (inl IntegrityError, w)
    else
      (inr self,
       with_consignments
         ((λ r, if bool_decide (Consignment.pk r = Consignment.pk self)
                then Consignment_db_row self else r)
            <$> rows) w)
  else
    if bool_decide (Consignment.consignment_number self
                      ∈ Consignment.consignment_number <$> rows)
    then (inl IntegrityError, w)
    else
      let k := default (fresh_pk (Consignment.pk <$> rows)) (Consignment.pk self) in
      let self := Consignment_with_created_at (now w) (Consignment_with_pk (Some k) self) in
      (inr self, with_consignments (Consignment_db_row self :: rows) w).

Definition Payment_super_save (self : Payment.t) : M Payment.t := λ w,
  let rows := payments w in
  if bool_decide (is_Some (Payment.pk self))
     && bool_decide (Payment.pk self ∈ Payment.pk <$> rows)
  then
    if bool_decide (Exists (λ r, Payment.payment_id r = Payment.payment_id self
                                 ∧ Payment.pk r ≠ Payment.pk self) rows)
    then (inl IntegrityError, w)
    else
      (inr self,
       with_payments
         ((λ r, if bool_decide (Payment.pk r = Payment.pk self) then self else r)
            <$> rows) w)
  else
    if bool_decide (Payment.payment_id self ∈ Payment.payment_id <$> rows)
    then (inl IntegrityError, w)
    else
      let k := default (fresh_pk (Payment.pk <$> rows)) (Payment.pk self) in
      let self := Payment_with_created_at (now w) (Payment_with_pk (Some k) self) in
      (inr self, with_payments (self :: rows) w).

(** ** [shipping/models.py] *)

(** [Shipment.generate_tracking_number] *)
Definition generate_tracking_number : M string :=
  let* r := os_urandom16 in ret (generate_identifier "SH" 10 r).

(** [Shipment.save] *)
Definition Shipment_save (self : Shipment.t) : M Shipment.t :=
  let* self :=
    (if negb (str_truthy (Shipment.tracking_number self))
     then let* tn := generate_tracking_number in
          ret (Shipment_with_tracking_number tn self)
     else ret self) in
  Shipment_super_save self.

(** [ShipmentHistory.objects.create(shipment=..., status=..., location=...,
    description=..., created_by=...)]: always an INSERT. *)
Definition ShipmentHistory_objects_create (shipment : Shipment.t)
    (status location description : string) (created_by : option nat)
    : M ShipmentHistory.t := λ w,
  let rows := shipment_histories w in
  let h := ShipmentHistory.mk (Some (fresh_pk (ShipmentHistory.pk <$> rows)))
             (Shipment.pk shipment) status location description (now w) created_by in
  (inr h, with_shipment_histories (h :: rows) w).

(** ** [consignment/models.py] *)

(** [Consignment.generate_consignment_number] *)
Definition generate_consignment_number : M string :=
  let* r := os_urandom16 in ret (generate_identifier "CN" 12 r).

(** [Consignment.save] *)
Definition Consignment_save (self : Consignment.t) : M Consignment.t :=
  let* self :=
    (if negb (str_truthy (Consignment.consignment_number self))
     then let* cn := generate_consignment_number in
          ret (Consignment_with_consignment_number cn self)
     else ret self) in
  let self :=
    Consignment_with_total_charges
      (Consignment.freight_charges self +
       Consignment.handling_charges self +
       Consignment.insurance_charges self +
       Consignment.customs_charges self +
       Consignment.other_charges self)%Qc self in
  Consignment_super_save self.

(** [ConsignmentHistory.objects.create(...)] *)
Definition ConsignmentHistory_objects_create (consignment : Consignment.t)
    (status location description : string) (created_by : option nat)
    : M ConsignmentHistory.t := λ w,
  let rows := consignment_histories w in
  let h := ConsignmentHistory.mk (Some (fresh_pk (ConsignmentHistory.pk <$> rows)))
             (Consignment.pk consignment) status location description (now w) created_by in
  (inr h, with_consignment_histories (h :: rows) w).

(** The same two calls with a location or description that may be [None]
    (a JSON null of a request body): both columns are NOT NULL, so the
    insert of a null is refused with [IntegrityError] and writes nothing. *)
Definition ShipmentHistory_objects_create_nullable (shipment : Shipment.t)
    (status : string) (location description : option string) (created_by : option nat)
    : M ShipmentHistory.t :=
  match location, description with
  | Some location, Some description =>
      ShipmentHistory_objects_create shipment status location description created_by
  | _, _ => raise IntegrityError
  end.

Definition ConsignmentHistory_objects_create_nullable (consignment : Consignment.t)
    (status : string) (location description : option string) (created_by : option nat)
    : M ConsignmentHistory.t :=
  match location, description with
  | Some location, Some description =>
      ConsignmentHistory_objects_create consignment status location description created_by
  | _, _ => raise IntegrityError
  end.

(** ** [payments/models.py] *)

(** [Payment.save] *)
Definition Payment_save (self : Payment.t) : M Payment.t :=
  let* self :=
    (if negb (str_truthy (Payment.payment_id self))
     then let* r := os_urandom16 in
          ret (Payment_with_payment_id (generate_identifier "PAY" 12 r) self)
     else ret self) in
  Payment_super_save self.

(** ** Queries *)

(** [Shipment.objects.filter(tracking_number=tn)]; a missing key gives
    [tn = None], which selects nothing ([IS NULL] on a NOT NULL column). *)
Definition Shipment_objects_filter (tn : option string) (w : World) : list Shipment.t :=
  match tn with
  | None => []
  | Some tn => filter (λ s, Shipment.tracking_number s = tn) (shipments w)
  end.

(** [Consignment.objects.filter(consignment_number=cn)] *)
Definition Consignment_objects_filter (cn : option string) (w : World)
    : list Consignment.t :=
  match cn with
  | None => []
  | Some cn => filter (λ c, Consignment.consignment_number c = cn) (consignments w)
  end.

(** [queryset.first()]: the column is declared [unique=True], so at most one
    row of a real table matches and the queryset's ordering plays no role. *)
Definition first {A} (qs : list A) : option A := head qs.

(** [get_object_or_404(Shipment, tracking_number=tn)]: [Model.objects.get]
    with [DoesNotExist] turned into [Http404]. *)
Definition get_shipment_or_404 (tn : string) : M Shipment.t := λ w,
  match Shipment_objects_filter (Some tn) w with
  | [] => (inl Http404, w)
  | [s] => (inr s, w)
  | _ => (inl MultipleObjectsReturned, w)
  end.

(** [shipment.history.count()]: the history rows whose parent is [pk]. *)
Definition shipment_history_of (pk : nat) (w : World) : list ShipmentHistory.t :=
  filter (λ h, ShipmentHistory.shipment h = Some pk) (shipment_histories w).

Definition consignment_history_of (pk : nat) (w : World) : list ConsignmentHistory.t :=
  filter (λ h, ConsignmentHistory.consignment h = Some pk) (consignment_histories w).

(** The row of a shipment as stored. *)
Definition stored_shipment (pk : nat) (w : World) : option Shipment.t :=
  head (filter (λ s, Shipment.pk s = Some pk) (shipments w)).

Definition stored_consignment (pk : nat) (w : World) : option Consignment.t :=
  head (filter (λ c, Consignment.pk c = Some pk) (consignments w)).

(** ** [shipping/views.py] *)

Module shipping_views.

Record HttpRequest := {
    method : string;
    user : option User.t;            (** [None]: anonymous *)
    POST : gmap string string;
  }.

Inductive HttpResponse :=
    | RedirectToLogin                                   (** [@login_required] *)
    | Redirect (view : string) (tracking_number : string)
    | Render (template : string).

  (** [update_shipment_status].  [messages.success] only queues a flash
      message for the next page and is left out. *)
Definition update_shipment_status (request : HttpRequest) (tracking_number : string)
      : M HttpResponse :=
    match user request with
    | None => ret RedirectToLogin
    | Some request_user =>
      let* shipment := get_shipment_or_404 tracking_number in
      run (if bool_decide (method request = "POST"%string) then
             let new_status := POST request !! "status"%string in
             let location := default ""%string (POST request !! "location"%string) in
             let description := default ""%string (POST request !! "description"%string) in
             match new_status with
             | Some new_status =>
                 if str_truthy new_status
                    && negb (bool_decide (new_status = Shipment.status shipment))
                 then
                   let shipment := Shipment_with_status new_status shipment in
                   let* shipment := Shipment_save shipment in
                   run ShipmentHistory_objects_create shipment new_status location
                         description (Some (User.pk request_user))
                   then ret tt
                 else ret tt
             | None => ret tt
             end
           else ret tt)
      then ret (Redirect "shipment_detail" tracking_number)
    end.

Section create_shipment.
    (** [ShipmentForm] ([shipping/forms.py]) and [calculate_shipping_cost]
        ([shipping/utils.py]) are not part of the sources at hand: the form
        is taken as a function from the POST data to the unsaved instance
        ([form.is_valid()] and [form.save(commit=False)]; [None] when the
        form is invalid), the cost function as a function of its four
        arguments. *)
Variable ShipmentForm : gmap string string → option Shipment.t.
Variable calculate_shipping_cost : Qc → string → string → string → Qc.

Definition create_shipment (request : HttpRequest) : M HttpResponse :=
      match user request with
      | None => ret RedirectToLogin
      | Some request_user =>
        if bool_decide (method request = "POST"%string) then
          match ShipmentForm (POST request) with
          | Some shipment =>
              let shipping_cost :=
                calculate_shipping_cost (Shipment.weight shipment)
                  (Shipment.shipping_method shipment)
                  (Shipment.sender_country shipment)
                  (Shipment.receiver_country shipment) in
              let shipment :=
                Shipment_with_owner_and_costs (User.pk request_user) shipping_cost
                  (shipping_cost + Shipment.insurance_cost shipment
                   + Shipment.tax shipment)%Qc shipment in
              let* shipment := Shipment_save shipment in
              run ShipmentHistory_objects_create shipment "pending" ""
                    "Shipment created successfully" None
              then ret (Redirect "shipment_detail" (Shipment.tracking_number shipment))
          | None => ret (Render "shipping/create_shipment.html")
          end
        else ret (Render "shipping/create_shipment.html")
      end.
End create_shipment.

  (** A run of [update_shipment_status] requests against one tracking
      number, and the number of them that change the status: the request
      is a POST by a logged-in user whose status is non-empty and differs
      from the stored one. *)
Definition is_status_change (request : HttpRequest) (shipment : Shipment.t) : bool :=
    bool_decide (is_Some (user request))
    && bool_decide (method request = "POST"%string)
    && match POST request !! "status"%string with
       | Some new_status =>
           str_truthy new_status
           && negb (bool_decide (new_status = Shipment.status shipment))
       | None => false
       end.

Fixpoint run_updates (requests : list HttpRequest) (tracking_number : string)
      (w : World) : World :=
    match requests with
    | [] => w
    | r :: rest =>
        run_updates rest tracking_number
          (exec (update_shipment_status r tracking_number) w)
    end.

Fixpoint count_status_changes (requests : list HttpRequest) (tracking_number : string)
      (w : World) : nat :=
    match requests with
    | [] => 0
    | r :: rest =>
        (match first (Shipment_objects_filter (Some tracking_number) w) with
         | Some s => if is_status_change r s then 1 else 0
         | None => 0
         end
         + count_status_changes rest tracking_number
             (exec (update_shipment_status r tracking_number) w))%nat
    end.

End shipping_views.

(** ** [tracking/views.py] *)

Module tracking_views.

  (** [request.body] after [json.loads]: [None] when the body is not a JSON
      object (the [try] block raises at once).  A value of the object is
      kept as what a [CharField] makes of it: [None] for a JSON null, the
      string itself for a string, [str(v)] for any other value. *)
Record HttpRequest := {
    method : string;
    body : option (gmap string (option string));
  }.

Inductive JsonResponse :=
    | Json200                      (** [{'success': True}] *)
    | Json404 (error : string)
    | Json400 (error : option exn) (** [str(e)] of the exception caught; [None]: the body did not parse *)
    | Json405 (error : string).

  (** [webhook_update].  [data.get('status')] is [None] when the key is
      missing or null; assigning it and saving violates the column's NOT
      NULL constraint, which the [except] clause reports.  A null location
      or description is refused in the same way by the insert of the
      history row, which comes after the save. *)
Definition webhook_update (request : HttpRequest) : M JsonResponse :=
    if bool_decide (method request = "POST"%string) then
      match body request with
      | None => ret (Json400 None)
      | Some data => λ w0,
        let tracking_number := mjoin (data !! "tracking_number"%string) in
        let status := mjoin (data !! "status"%string) in
        let location := default (Some ""%string) (data !! "location"%string) in
        let description := default (Some ""%string) (data !! "description"%string) in
        let try_block : M JsonResponse :=
          match first (Shipment_objects_filter tracking_number w0) with
          | Some shipment =>
              match status with
              | None => raise IntegrityError
              | Some status =>
                  let shipment := Shipment_with_status status shipment in
                  let* shipment := Shipment_save shipment in
                  run ShipmentHistory_objects_create_nullable shipment status location
                        description None
                  then ret Json200
              end
          | None =>
              match first (Consignment_objects_filter tracking_number w0) with
              | Some consignment =>
                  match status with
                  | None => raise IntegrityError
                  | Some status =>
                      let consignment := Consignment_with_status status consignment in
                      let* consignment := Consignment_save consignment in
                      run ConsignmentHistory_objects_create_nullable consignment status
                            location description None
                      then ret Json200
                  end
              | None => ret (Json404 "Tracking number not found")
              end
          end in
        match try_block w0 with
        | (inl e, w') => (inr (Json400 (Some e)), w')
        | (inr r, w') => (inr r, w')
        end
      end
    else ret (Json405 "Invalid method").

End tracking_views.

(** ** Aggregates and the guarded averages *)

(** [x / n] for a count [n]: [ZeroDivisionError] on [n = 0].  A [Decimal]
    quotient is given by its exact value (Python then rounds it to the 28
    significant digits of the decimal context); [int / int] is a float. *)
Definition py_truediv (x : pynum) (n : Z) : exn + pynum :=
  if (n =? 0)%Z then inl ZeroDivisionError
  else match x with
       | PyInt a => inr (PyFloat (float_of_int a / float_of_int n)%float)
       | PyFloat f => inr (PyFloat (f / float_of_int n)%float)
       | PyDecimal d => inr (PyDecimal (d / Q2Qc (inject_Z n))%Qc)
       end.

(** [x or 0] where [x] is an aggregate: [None] on an empty set. *)
Definition or_0 (x : option pynum) : pynum :=
  match x with
  | Some v => if pynum_truthy v then v else PyInt 0
  | None => PyInt 0
  end.

(** [sum] of a decimal column. *)
Definition decimal_sum (l : list Qc) : Qc := foldr Qcplus 0%Qc l.

(** [queryset.aggregate(Sum(column))[...]]: SQL [SUM], NULL on no rows. *)
Definition aggregate_Sum (column : list Qc) : option pynum :=
  match column with
  | [] => None
  | _ => Some (PyDecimal (decimal_sum column))
  end.

(** [queryset.aggregate(Avg(column))[...]]: SQL [AVG], NULL on no rows; the
    database divides by the row count, which is positive here. *)
Definition aggregate_Avg (column : list Qc) : option pynum :=
  match column with
  | [] => None
  | _ => Some (PyDecimal (decimal_sum column / Q2Qc (inject_Z (Z.of_nat (List.length column))))%Qc)
  end.

(** [a / n if n > 0 else 0] *)
Definition guarded_average (a : pynum) (n : Z) : exn + pynum :=
  if (0 <? n)%Z then py_truediv a n else inr (PyInt 0).

(** [created_at__date]: the calendar day of a timestamp in seconds. *)
Definition date_of (t : Z) : Z := (t / 86400)%Z.

(** [if start_date: queryset = queryset.filter(created_at__date__gte=start_date)]
    and the same for [end_date]; an absent bound ([None]) filters nothing. *)
Definition in_date_range (start_date end_date : option Z) (t : Z) : bool :=
  match start_date with Some d => (d <=? date_of t)%Z | None => true end
  && match end_date with Some d => (date_of t <=? d)%Z | None => true end.

(** ** [api/views.py] *)

Module api_views.

(** An authenticated API request ([permission_classes] start with
    [IsAuthenticated]) with the query parameters the reports read. *)
Record Request := {
  user : User.t;
  start_date : option Z;
  end_date : option Z;
}.

(** [user.user_type in ['admin', 'staff']] *)
Definition is_admin_or_staff (u : User.t) : bool :=
  bool_decide (User.user_type u ∈ ["admin"%string; "staff"%string]).

(** [ShipmentViewSet.get_queryset] *)
Definition Shipment_get_queryset (request : Request) (w : World) : list Shipment.t :=
  if is_admin_or_staff (user request) then shipments w
  else filter (λ s, Shipment.user s = Some (User.pk (user request))) (shipments w).

Record StatsBody := {
  total_shipments : Z;
  pending_shipments : Z;
  in_transit_shipments : Z;
  delivered_shipments : Z;
  total_spent : pynum;
  average_cost : pynum;
}.

Definition count_status (st : string) (qs : list Shipment.t) : Z :=
  Z.of_nat (List.length (filter (λ s, Shipment.status s = st) qs)).

(** [ShipmentViewSet.stats] *)
Definition stats (request : Request) : M StatsBody :=
  let* w := get_world in
  let queryset := Shipment_get_queryset request w in
  let total := Z.of_nat (List.length queryset) in
  let pending := count_status "pending" queryset in
  let in_transit := count_status "in_transit" queryset in
  let delivered := count_status "delivered" queryset in
  let total_spent := or_0 (aggregate_Sum (Shipment.total_cost <$> queryset)) in
  match guarded_average total_spent total with
  | inl e => raise e
  | inr average =>
      ret {| total_shipments := total;
             pending_shipments := pending;
             in_transit_shipments := in_transit;
             delivered_shipments := delivered;
             total_spent := total_spent;
             average_cost := average |}
  end.

(** The part of the report bodies the averages belong to; the per-status
    and per-month breakdowns of the same querysets are separate keys. *)
Record ShipmentReportBody := {
  report_total_shipments : Z;
  report_total_revenue : pynum;
  average_value : pynum;
}.

(** [ShipmentReportView.get] *)
Definition ShipmentReportView_get (request : Request) : M ShipmentReportBody :=
  let* w := get_world in
  let queryset := Shipment_get_queryset request w in
  let queryset :=
    filter (λ s, in_date_range (start_date request) (end_date request)
                   (Shipment.created_at s) = true) queryset in
  let total := Z.of_nat (List.length queryset) in
  let total_revenue := or_0 (aggregate_Sum (Shipment.total_cost <$> queryset)) in
  match guarded_average total_revenue total with
  | inl e => raise e
  | inr average =>
      ret {| report_total_shipments := total;
             report_total_revenue := total_revenue;
             average_value := average |}
  end.

Record FinancialReportBody := {
  financial_total_revenue : pynum;
  average_payment : pynum;
}.

(** [FinancialReportView.get] *)
Definition FinancialReportView_get (request : Request) : M FinancialReportBody :=
  let* w := get_world in
  let payments_ := filter (λ p, Payment.status p = "completed"%string) (payments w) in
  let payments_ :=
    filter (λ p, in_date_range (start_date request) (end_date request)
                   (Payment.created_at p) = true) payments_ in
  let total_revenue := or_0 (aggregate_Sum (Payment.amount <$> payments_)) in
  match guarded_average total_revenue (Z.of_nat (List.length payments_)) with
  | inl e => raise e
  | inr average =>
      ret {| financial_total_revenue := total_revenue;
             average_payment := average |}
  end.

Inductive ApproveResponse :=
  | Forbidden403 (error : string)
  | Approved200 (consignment_number status approved_by : string) (approved_at : option Z).

Section approve.
(** [self.get_object()] is the framework's retrieval step (look the primary
    key up in [get_queryset()], then check the object permissions); it
    either hands the consignment to the action or raises, and is taken as
    given. *)
Variable get_object : Request → nat → M Consignment.t.

(** [ConsignmentViewSet.approve] *)
Definition approve (request : Request) (pk : nat) : M ApproveResponse :=
  let* consignment := get_object request pk in
  if negb (is_admin_or_staff (user request)) then
    ret (Forbidden403 "Only admin or staff can approve consignments")
  else
    let consignment := Consignment_with_status "approved" consignment in
    let consignment :=
      Consignment_with_approved_by (Some (User.pk (user request))) consignment in
    let* t := timezone_now in
    let consignment := Consignment_with_approved_at (Some t) consignment in
    let* consignment := Consignment_save consignment in
    run ConsignmentHistory_objects_create consignment "approved" ""
          "Consignment approved via API" (Some (User.pk (user request)))
    then ret (Approved200 (Consignment.consignment_number consignment)
                (Consignment.status consignment)
                (User.email (user request))
                (Consignment.approved_at consignment)).
End approve.

(** The retrieval step as the generic view performs it for this viewset:
    the row with that key in [get_queryset()], [Http404] when there is
    none, then [IsOwner.has_object_permission]. *)
Definition Consignment_get_queryset (request : Request) (w : World) : list Consignment.t :=
  if is_admin_or_staff (user request) then consignments w
  else filter (λ c, Consignment.user c = Some (User.pk (user request))) (consignments w).

Definition get_object (request : Request) (pk : nat) : M Consignment.t := λ w,
  match filter (λ c, Consignment.pk c = Some pk) (Consignment_get_queryset request w) with
  | [] => (inl Http404, w)
  | [c] =>
      if bool_decide (Consignment.user c = Some (User.pk (user request)))
      then (inr c, w) else (inl PermissionDenied, w)
  | _ => (inl MultipleObjectsReturned, w)
  end.

End api_views.

(** ** [reports/views.py] *)

Module reports_views.

Record Filters := {
  start_date : option Z;
  end_date : option Z;
  status : option string;
  payment_status : option string;
}.

(** [if value: queryset = queryset.filter(column=value)]: an absent or
    empty value filters nothing. *)
Definition matches (value : option string) (column : string) : bool :=
  match value with
  | Some v => if str_truthy v then bool_decide (column = v) else true
  | None => true
  end.

(** [shipment_reports]: [avg_shipment_value] *)
Definition avg_shipment_value (f : Filters) (w : World) : pynum :=
  let shipments_ :=
    filter (λ s, in_date_range (start_date f) (end_date f) (Shipment.created_at s)
                 && matches (status f) (Shipment.status s)
                 && matches (payment_status f) (Shipment.payment_status s) = true)
           (shipments w) in
  or_0 (aggregate_Avg (Shipment.total_cost <$> shipments_)).

(** [financial_reports]: [avg_payment] *)
Definition avg_payment (w : World) : pynum :=
  let payments_ := filter (λ p, Payment.status p = "completed"%string) (payments w) in
  or_0 (aggregate_Avg (Payment.amount <$> payments_)).

End reports_views.

(** ** What holds of the stored rows

    Every row written through [save] has a primary key and a non-empty
    identifier; primary keys and identifiers are unique; a history row
    points to a stored parent (foreign key). *)

Definition shipments_wf (rows : list Shipment.t) : Prop :=
  Forall (λ r, is_Some (Shipment.pk r)) rows
  ∧ NoDup (Shipment.pk <$> rows)
  ∧ NoDup (Shipment.tracking_number <$> rows)
  ∧ Forall (λ r, Shipment.tracking_number r ≠ ""%string) rows.

Definition consignments_wf (rows : list Consignment.t) : Prop :=
  Forall (λ r, is_Some (Consignment.pk r)) rows
  ∧ NoDup (Consignment.pk <$> rows)
  ∧ NoDup (Consignment.consignment_number <$> rows)
  ∧ Forall (λ r, Consignment.consignment_number r ≠ ""%string) rows.

Definition world_wf (w : World) : Prop :=
  shipments_wf (shipments w)
  ∧ consignments_wf (consignments w)
  ∧ Forall (λ h, ShipmentHistory.shipment h ∈ Shipment.pk <$> shipments w)
      (shipment_histories w)
  ∧ Forall (λ h, ConsignmentHistory.consignment h ∈ Consignment.pk <$> consignments w)
      (consignment_histories w).

(** ** Worlds the theorems talk about *)

(** The world after the status of the stored shipment [s] was set to
    [new_status] and saved, before any history row is written. *)
Definition after_status_saved (s : Shipment.t) (new_status : string) (w : World) : World :=
  with_shipments
    ((λ r, if bool_decide (Shipment.pk r = Shipment.pk s)
           then Shipment_with_status new_status s else r)
       <$> shipments w) w.

(** The world after the status of the stored shipment [s] was set to
    [new_status] and one history row was written for it. *)
Definition after_status_change (s : Shipment.t) (new_status location description : string)
    (actor : option nat) (w : World) : World :=
  let s' := Shipment_with_status new_status s in
  with_shipment_histories
    (ShipmentHistory.mk (Some (fresh_pk (ShipmentHistory.pk <$> shipment_histories w)))
       (Shipment.pk s) new_status location description (now w) actor
     :: shipment_histories w)
    (with_shipments
       ((λ r, if bool_decide (Shipment.pk r = Shipment.pk s) then s' else r)
          <$> shipments w) w).

(** The same for a stored consignment [c], as [Consignment.save] writes it
    (the total is recomputed on the way, and the row is stored as it reads
    back). *)
Definition after_consignment_change (c : Consignment.t)
    (new_status location description : string) (actor : option nat) (w : World) : World :=
  let c' :=
    Consignment_db_row
      (Consignment_with_total_charges
         (Consignment.freight_charges c + Consignment.handling_charges c
          + Consignment.insurance_charges c + Consignment.customs_charges c
          + Consignment.other_charges c)%Qc c) in
  with_consignment_histories
    (ConsignmentHistory.mk
       (Some (fresh_pk (ConsignmentHistory.pk <$> consignment_histories w)))
       (Consignment.pk c) new_status location description (now w) actor
     :: consignment_histories w)
    (with_consignments
       ((λ r, if bool_decide (Consignment.pk r = Consignment.pk c) then c' else r)
          <$> consignments w) w).

(** The world after the stored consignment [c] was saved with the status
    [new_status], before any history row is written. *)
Definition after_consignment_saved (c : Consignment.t) (new_status : string) (w : World)
    : World :=
  let c := Consignment_with_status new_status c in
  let c' :=
    Consignment_db_row
      (Consignment_with_total_charges
         (Consignment.freight_charges c + Consignment.handling_charges c
          + Consignment.insurance_charges c + Consignment.customs_charges c
          + Consignment.other_charges c)%Qc c) in
  with_consignments
    ((λ r, if bool_decide (Consignment.pk r = Consignment.pk c) then c' else r)
       <$> consignments w) w.

(** An empty database. *)
Definition empty_world : World :=
  {| shipments := []; shipment_histories := [];
     consignments := []; consignment_histories := []; payments := [];
     now := 0; urandom := λ _, 0%N; draws := 0 |}.

(** The claim that a shipment has as many history rows as status changes
    were applied to it, read literally: for a shipment created by
    [create_shipment] in an empty database and then sent any run of
    [update_shipment_status] requests. *)
Definition history_count_is_change_count : Prop :=
  ∀ (ShipmentForm : gmap string string → option Shipment.t)
    (calculate_shipping_cost : Qc → string → string → string → Qc)
    (create : shipping_views.HttpRequest) (updates : list shipping_views.HttpRequest)
    (s : Shipment.t) (k : nat),
    let w1 := exec (shipping_views.create_shipment ShipmentForm calculate_shipping_cost
                      create) empty_world in
    first (shipments w1) = Some s → Shipment.pk s = Some k →
    List.length
      (shipment_history_of k
         (shipping_views.run_updates updates (Shipment.tracking_number s) w1))
    = shipping_views.count_status_changes updates (Shipment.tracking_number s) w1.

(** The claim that a status change is one unit, read literally: whenever a
    status handler changes the shipments table it also appends a history
    row. *)
Definition status_change_is_atomic : Prop :=
  ∀ (request : tracking_views.HttpRequest) (w : World),
    world_wf w →
    let w' := exec (tracking_views.webhook_update request) w in
    shipments w' ≠ shipments w →
    ∃ h, shipment_histories w' = h :: shipment_histories w.

(** The claim that after every save the total is the sum of the five
    charges, read on the row that the save stored. *)
Definition stored_total_is_sum : Prop :=
  ∀ (c c' : Consignment.t) (w w' : World),
    Consignment_save c w = (inr c', w') →
    ∀ row, row ∈ consignments w' → Consignment.pk row = Consignment.pk c' →
      Consignment.total_charges row
      = (Consignment.freight_charges row + Consignment.handling_charges row
         + Consignment.insurance_charges row + Consignment.customs_charges row
         + Consignment.other_charges row)%Qc.

(** A small database: one customer, one staff member, one shipment with
    its initial history row, one draft consignment of the staff member. *)
Definition alice : User.t := User.mk 1 "alice@example.com" "customer".
Definition bob : User.t := User.mk 2 "bob@example.com" "staff".

(** [Decimal] amounts with two places, given in hundredths. *)
Definition money (hundredths : Z) : Qc := Q2Qc (hundredths # 100).

Definition example_shipment : Shipment.t :=
  Shipment.mk (Some 1%nat) "SH1234567890" (Some 1%nat) "pending" "pending" "US" "CA"
    (money 500) "express" (money 4500) (money 0) (money 0) (money 4500) 0 (Some 1%nat).

Definition example_consignment : Consignment.t :=
  Consignment.mk (Some 1%nat) "CN123456789012" (Some 2%nat) "draft"
    (money 10000) (money 2000) (money 500) (money 3000) (money 125) (money 99900)
    0 None None.

Definition example_world : World :=
  {| shipments := [example_shipment];
     shipment_histories :=
       [ShipmentHistory.mk (Some 1%nat) (Some 1%nat) "pending" ""
          "Shipment created successfully" 0 None];
     consignments := [example_consignment];
     consignment_histories := [];
     payments := [];
     now := 1000; urandom := λ n, N.of_nat n; draws := 0 |}.

(** Two requests that agree on everything but the three dimensions. *)
Definition same_but_dimensions (r1 r2 : CalculateRateView.Request) : Prop :=
  CalculateRateView.weight r1 = CalculateRateView.weight r2
  ∧ CalculateRateView.from_country r1 = CalculateRateView.from_country r2
  ∧ CalculateRateView.to_country r1 = CalculateRateView.to_country r2
  ∧ CalculateRateView.service_type r1 = CalculateRateView.service_type r2
  ∧ CalculateRateView.declared_value r1 = CalculateRateView.declared_value r2.

(** [float] accepts the value (or the key is absent). *)
Definition float_accepts (v : option CalculateRateView.raw) : bool :=
  match v with
  | Some (CalculateRateView.RBad _) => false
  | _ => true
  end.

Definition dimensions_accepted (r : CalculateRateView.Request) : bool :=
  float_accepts (CalculateRateView.length r)
  && float_accepts (CalculateRateView.width r)
  && float_accepts (CalculateRateView.height r).

(** The dimensions never influence the answer, read over all requests. *)
Definition dimensions_ignored : Prop :=
  ∀ r1 r2, same_but_dimensions r1 r2 →
    CalculateRateView.post r1 = CalculateRateView.post r2.

(** ** Decimal digits *)

(** ['0' <= c <= '9'] *)
Definition is_digit (c : ascii) : bool :=
  let n := nat_of_ascii c in (48 <=? n)%nat && (n <=? 57)%nat.

Fixpoint all_digits (s : string) : bool :=
  match s with
  | EmptyString => true
  | String c s' => is_digit c && all_digits s'
  end.

(** ** A generated identifier, in the words of the specification

    "Generated with a fixed prefix from a random 128-bit value": the
    prefix, followed by the leading digits of the decimal representation
    of the version-4 UUID that carries the random bits. *)

(** [u] is the version-4 UUID made of the 128 random bits of [r]: bits 76
    to 79 hold the version 4, bits 62 and 63 the variant, every other bit
    below 128 is the bit of [r]. *)
Definition is_uuid4_of (r u : N) : Prop :=
  ∀ i : N,
    N.testbit u i =
      if (128 <=? i)%N then false
      else if (i =? 78)%N then true
      else if (76 <=? i)%N && (i <=? 79)%N then false
      else if (i =? 63)%N then true
      else if (i =? 62)%N then false
      else N.testbit r i.

(** [s] is the decimal representation of the positive number [n]: digits
    only, no leading zero, and reading it gives [n]. *)
Definition is_decimal_of (s : string) (n : N) : Prop :=
  all_digits s = true
  ∧ (∃ c rest, s = String c rest ∧ c ≠ "0"%char)
  ∧ ∃ d, NilEmpty.uint_of_string s = Some d ∧ N.of_uint d = n.

Definition is_identifier_of (prefix : string) (n : nat) (r : N) (identifier : string)
    : Prop :=
  ∃ u decimal digits rest,
    is_uuid4_of r u
    ∧ is_decimal_of decimal u
    ∧ decimal = (digits +:+ rest)%string
    ∧ String.length digits = n
    ∧ identifier = (prefix +:+ digits)%string.

(** ** More field assignments *)



Definition Payment_with_status (st : string) (p : Payment.t) : Payment.t :=
  Payment.mk (Payment.pk p) (Payment.payment_id p) (Payment.user p) st
    (Payment.payment_method p) (Payment.amount p) (Payment.created_at p).

(** ** [api/serializers.py] and [ShipmentViewSet.perform_create] *)

Module api_serializers.



End api_serializers.

(** ** [api/views.py]: tracking *)

Module api_tracking.

(** [order_by('-created_at')]: latest first.  Rows with equal timestamps
    come in whatever order the database returns them; here they keep the
    order of the table. *)
Fixpoint insert_desc {A} (key : A → Z) (x : A) (l : list A) : list A :=
  match l with
  | [] => [x]
  | y :: l' => if (key y <=? key x)%Z then x :: y :: l' else y :: insert_desc key x l'
  end.

Definition order_by_desc {A} (key : A → Z) (l : list A) : list A :=
  foldr (insert_desc key) [] l.

(** One element of the ['history'] list of the answer. *)
Record HistoryEntry := {
    entry_status : string;
    entry_location : string;
    entry_description : string;
    entry_timestamp : Z;
  }.

(** The keys of the answer that depend on the status and the history; the
    remaining keys (names, ports, dates) copy columns of the row. *)
Record TrackBody := {
    type_ : string;
    tracking_number : string;
    status : string;
    history : list HistoryEntry;
  }.

Inductive Response :=
    | Found200 (body : TrackBody)
    | NotFound404 (error : string).

(** [TrackShipmentView.get].  None of its queries raises, so the [except]
    clause of the handler has no answer here. *)
Definition TrackShipmentView_get (tracking_number_ : string) : M Response :=
  let* w := get_world in
  match first (Shipment_objects_filter (Some tracking_number_) w) with
  | Some shipment =>
      let history_ :=
        order_by_desc ShipmentHistory.created_at
          (filter (λ h, ShipmentHistory.shipment h = Shipment.pk shipment)
             (shipment_histories w)) in
      ret (Found200
             {| type_ := "shipment";
                tracking_number := Shipment.tracking_number shipment;
                status := Shipment.status shipment;
                history :=
                  (λ h, {| entry_status := ShipmentHistory.status h;
                           entry_location := ShipmentHistory.location h;
                           entry_description := ShipmentHistory.description h;
                           entry_timestamp := ShipmentHistory.created_at h |})
                    <$> history_ |})
  | None =>
      match first (Consignment_objects_filter (Some tracking_number_) w) with
      | Some consignment =>
          let history_ :=
            order_by_desc ConsignmentHistory.created_at
              (filter (λ h, ConsignmentHistory.consignment h = Consignment.pk consignment)
                 (consignment_histories w)) in
          ret (Found200
                 {| type_ := "consignment";
                    tracking_number := Consignment.consignment_number consignment;
                    status := Consignment.status consignment;
                    history :=
                      (λ h, {| entry_status := ConsignmentHistory.status h;
                               entry_location := ConsignmentHistory.location h;
                               entry_description := ConsignmentHistory.description h;
                               entry_timestamp := ConsignmentHistory.created_at h |})
                        <$> history_ |})
      | None => ret (NotFound404 "Tracking number not found")
      end
  end.

(** The only answer [TrackingWebhookView.post] returns. *)
Inductive WebhookResponse :=
    | Ok200 (message : string).

(** [f"{v}"] for a value that may be [None]. *)
Definition fstr (v : option string) : string := default "None"%string v.

(** [TrackingWebhookView.post]; [data] is [request.data], with the values
    as in [tracking_views.HttpRequest].  The assignment
    [status = data.get('status')] makes [status] a local variable of the
    method, which hides the module [rest_framework.status]: the two
    answers that are built with [status=status.HTTP_...] evaluate the
    attribute on the local value (a string or [None]) and raise
    [AttributeError] instead, the one of the [except] clause while it
    handles the exception caught, so that the [AttributeError] leaves the
    method.  When [data] is no JSON object the [try] block fails before
    [status] is assigned and the [except] clause raises
    [UnboundLocalError]. *)
Definition TrackingWebhookView_post (data : option (gmap string (option string)))
    : M WebhookResponse :=
  match data with
  | None => raise UnboundLocalError
  | Some data => λ w0,
    let tracking_number_ := mjoin (data !! "tracking_number"%string) in
    let status_ := mjoin (data !! "status"%string) in
    let location := default (Some ""%string) (data !! "location"%string) in
    let description := default (Some ""%string) (data !! "description"%string) in
    let try_block : M WebhookResponse :=
      match first (Shipment_objects_filter tracking_number_ w0) with
      | Some shipment =>
          match status_ with
          | None => raise IntegrityError
          | Some status_ =>
              let shipment := Shipment_with_status status_ shipment in
              let* shipment := Shipment_save shipment in
              run ShipmentHistory_objects_create_nullable shipment status_ location
                    description None
              then ret (Ok200 ("Shipment " +:+ fstr tracking_number_
                                +:+ " updated to " +:+ status_))
          end
      | None =>
          match first (Consignment_objects_filter tracking_number_ w0) with
          | Some consignment =>
              match status_ with
              | None => raise IntegrityError
              | Some status_ =>
                  let consignment := Consignment_with_status status_ consignment in
                  let* consignment := Consignment_save consignment in
                  run ConsignmentHistory_objects_create_nullable consignment status_
                        location description None
                  then ret (Ok200 ("Consignment " +:+ fstr tracking_number_
                                    +:+ " updated to " +:+ status_))
              end
          | None => raise AttributeError   (** [status.HTTP_404_NOT_FOUND] *)
          end
      end in
    match try_block w0 with
    | (inl e, w') => (inl AttributeError, w')   (** [status.HTTP_400_BAD_REQUEST] *)
    | (inr r, w') => (inr r, w')
    end
  end.


End api_tracking.

(** ** [api/views.py]: payments *)

Module api_payments.

Inductive ProcessResponse :=
    | Processing200 (payment_id status message : string).

Section process.
(** [self.get_object()], as for [approve]. *)
Variable get_object : api_views.Request → nat → M Payment.t.

(** [PaymentViewSet.process] *)
Definition process (request : api_views.Request) (pk : nat) : M ProcessResponse :=
  let* payment := get_object request pk in
  let payment := Payment_with_status "processing" payment in
  let* payment := Payment_save payment in
  ret (Processing200 (Payment.payment_id payment) (Payment.status payment)
         "Payment processing started").
End process.

(** [PaymentViewSet.get_queryset] and the retrieval step with [IsOwner]. *)
Definition Payment_get_queryset (request : api_views.Request) (w : World) : list Payment.t :=
  if api_views.is_admin_or_staff (api_views.user request) then payments w
  else filter (λ p, Payment.user p = Some (User.pk (api_views.user request))) (payments w).

Definition get_object (request : api_views.Request) (pk : nat) : M Payment.t := λ w,
  match filter (λ p, Payment.pk p = Some pk) (Payment_get_queryset request w) with
  | [] => (inl Http404, w)
  | [p] =>
      if bool_decide (Payment.user p = Some (User.pk (api_views.user request)))
      then (inr p, w) else (inl PermissionDenied, w)
  | _ => (inl MultipleObjectsReturned, w)
  end.

End api_payments.

Definition payments_wf (rows : list Payment.t) : Prop :=
  Forall (λ r, is_Some (Payment.pk r)) rows
  ∧ NoDup (Payment.pk <$> rows)
  ∧ NoDup (Payment.payment_id <$> rows)
  ∧ Forall (λ r, Payment.payment_id r ≠ ""%string) rows.

(** A completed payment of the customer of the small database. *)
Definition example_payment : Payment.t :=
  Payment.mk (Some 1%nat) "PAY123456789012" (Some 1%nat) "completed" "stripe"
    (money 4500) 0.

(** An unsaved shipment as a valid [ShipmentForm] hands it over. *)
Definition example_form : Shipment.t :=
  Shipment.mk None "" None "pending" "pending" "US" "CA"
    (money 500) "express" (money 0) (money 250) (money 100) (money 0) 0 None.

(** ** [shipping/views.py]: the detail page *)

Module shipping_detail.

(** The context of the page: the shipment and its history ([packages] are
    rows of a table that no handler here reads or writes). *)
Inductive DetailResponse :=
    | DetailRedirectToLogin
    | RenderDetail (template : string) (shipment : Shipment.t)
        (history : list ShipmentHistory.t).

(** [get_object_or_404(Shipment, tracking_number=tn, user=request.user)] *)
Definition get_own_shipment_or_404 (tn : string) (u : nat) : M Shipment.t := λ w,
  match filter (λ s, Shipment.tracking_number s = tn ∧ Shipment.user s = Some u)
          (shipments w) with
  | [] => (inl Http404, w)
  | [s] => (inr s, w)
  | _ => (inl MultipleObjectsReturned, w)
  end.

(** [shipment_detail] *)
Definition shipment_detail (request : shipping_views.HttpRequest) (tracking_number : string)
    : M DetailResponse :=
  match shipping_views.user request with
  | None => ret DetailRedirectToLogin
  | Some request_user =>
    let* shipment := get_own_shipment_or_404 tracking_number (User.pk request_user) in
    let* w := get_world in
    let history :=
      api_tracking.order_by_desc ShipmentHistory.created_at
        (filter (λ h, ShipmentHistory.shipment h = Shipment.pk shipment)
           (shipment_histories w)) in
    ret (RenderDetail "shipping/shipment_detail.html" shipment history)
  end.

End shipping_detail.


(* ===================================================================== *)
(** * Part II: theorems                                                   *)
(* ===================================================================== *)

(** ** Binary64 facts used by the rate calculator *)

Lemma SFmul_comm (x y : spec_float) : SFmul prec emax x y = SFmul prec emax y x.
Proof.
  destruct x as [sx|sx| |sx mx ex], y as [sy|sy| |sy my ey]; simpl;
    rewrite ?(xorb_comm sx sy); try reflexivity.
  by rewrite (Pos.mul_comm mx my), (Z.add_comm ex ey).
Qed.

Lemma float_mul_comm (x y : float) : (x * y = y * x)%float.
Proof.
  apply Prim2SF_inj. rewrite !mul_spec. apply SFmul_comm.
Qed.

(** ** Binary64: rounding is monotone *)

Module Binary64Facts.
Import Binary64.
Local Open Scope Z_scope.

Lemma digits2_pos_size (m : positive) : digits2_pos m = Pos.size m.
Proof. induction m; simpl; congruence. Qed.

Lemma digits2_log2 (m : positive) : Zpos (digits2_pos m) = Z.log2 (Zpos m) + 1.
Proof.
  rewrite digits2_pos_size. destruct m; simpl; lia.
Qed.

Lemma iter_pos_nat {A} (f : A → A) (p : positive) (x : A) :
  SpecFloat.iter_pos f p x = Nat.iter (Pos.to_nat p) f x.
Proof.
  revert x. induction p as [p IH|p IH|]; intros x; cbn [SpecFloat.iter_pos].
  - rewrite !IH, Pos2Nat.inj_xI, Nat.iter_succ_r.
    replace (2 * Pos.to_nat p)%nat with (Pos.to_nat p + Pos.to_nat p)%nat by lia.
    by rewrite Nat.iter_add.
  - rewrite !IH, Pos2Nat.inj_xO.
    replace (2 * Pos.to_nat p)%nat with (Pos.to_nat p + Pos.to_nat p)%nat by lia.
    by rewrite Nat.iter_add.
  - reflexivity.
Qed.

Lemma shr_1_nonneg (m : Z) (r s : bool) :
  0 ≤ m → shr_1 (Build_shr_record m r s) = Build_shr_record (m / 2) (Z.odd m) (r || s).
Proof.
  intros Hm. destruct m as [|[p|p|]|p]; simpl; try lia; try reflexivity.
  - f_equal. apply Z.div_unique with 1; lia.
  - f_equal. apply Z.div_unique with 0; lia.
Qed.

(** [k + 1] one-bit shifts: the quotient, the last bit shifted out, and
    whether anything below it was set. *)
Lemma shr_iter (m : Z) (k : nat) :
  0 ≤ m →
  Nat.iter (S k) shr_1 (Build_shr_record m false false)
  = Build_shr_record (m / 2 ^ (Z.of_nat k + 1)) (Z.odd (m / 2 ^ Z.of_nat k))
      (negb (m mod 2 ^ Z.of_nat k =? 0)).
Proof.
  intros Hm. induction k as [|k IH].
  - unfold Nat.iter; cbn [nat_rect]. rewrite shr_1_nonneg by done. simpl Z.of_nat.
    rewrite Z.pow_0_r, Z.div_1_r, Z.mod_1_r. reflexivity.
  - rewrite Nat.iter_succ, IH.
    assert (Hp : 0 < 2 ^ Z.of_nat k) by (apply Z.pow_pos_nonneg; lia).
    rewrite shr_1_nonneg by (apply Z.div_pos; [lia|apply Z.pow_pos_nonneg; lia]).
    rewrite Nat2Z.inj_succ.
    replace (Z.succ (Z.of_nat k)) with (Z.of_nat k + 1) by lia.
    f_equal.
    + rewrite (Z.pow_add_r 2 (Z.of_nat k + 1) 1) by lia.
      rewrite Z.div_div by (try apply Z.pow_pos_nonneg; lia). reflexivity.
    + rewrite (Z.pow_add_r 2 (Z.of_nat k) 1) by lia. change (2 ^ 1) with 2.
      rewrite Z.rem_mul_r by lia. rewrite Zmod_odd.
      pose proof (Z.mod_pos_bound m (2 ^ Z.of_nat k) Hp) as Hb.
      destruct (Z.odd (m / 2 ^ Z.of_nat k)); simpl orb.
      * symmetry. apply negb_true_iff, Z.eqb_neq. lia.
      * f_equal. f_equal. lia.
Qed.

Lemma pow2_pos (n : Z) : 0 ≤ n → 0 < 2 ^ n.
Proof. intros. apply Z.pow_pos_nonneg; lia. Qed.

(** What [shr] followed by [round_nearest_even] computes. *)
Lemma shr_round (m e n : Z) :
  0 ≤ m → 0 ≤ n →
  ∃ mrs, shr (Build_shr_record m false false) e n = (mrs, e + n)
    ∧ shr_m mrs = m / 2 ^ n
    ∧ round_nearest_even (shr_m mrs) (loc_of_shr_record mrs) = rne m n.
Proof.
  intros Hm Hn. destruct n as [|p|p]; [| |lia].
  - eexists. split; [simpl; f_equal; lia|]. simpl.
    unfold rne. rewrite Z.pow_0_r, Z.div_1_r, Z.mod_1_r. simpl. done.
  - unfold shr. rewrite iter_pos_nat.
    destruct (Pos2Nat.is_succ p) as [k Hk]. rewrite Hk, shr_iter by done.
    assert (Hp : Z.pos p = Z.of_nat k + 1) by lia.
    eexists. split; [reflexivity|]. cbn [shr_m]. rewrite Hp. split; [done|].
    unfold rne.
    pose proof (pow2_pos (Z.of_nat k) ltac:(lia)) as Hpow.
    rewrite (Z.pow_add_r 2 (Z.of_nat k) 1) by lia. change (2 ^ 1) with 2.
    rewrite Z.rem_mul_r by lia. rewrite Zmod_odd.
    pose proof (Z.mod_pos_bound m (2 ^ Z.of_nat k) Hpow) as Hb.
    set (q := m / (2 ^ Z.of_nat k * 2)).
    set (t := m mod 2 ^ Z.of_nat k) in *.
    unfold loc_of_shr_record.
    destruct (Z.odd (m / 2 ^ Z.of_nat k)); destruct (Z.eqb_spec t 0) as [Ht|Ht];
      cbn [negb round_nearest_even].
    + rewrite Ht. rewrite (proj2 (Z.ltb_ge _ _)) by lia.
      rewrite (proj2 (Z.eqb_eq _ _)) by lia. cbn [orb andb].
      rewrite <- Z.negb_odd. by destruct (Z.odd q).
    + rewrite (proj2 (Z.ltb_lt _ _)) by lia. done.
    + rewrite (proj2 (Z.ltb_ge _ _)) by lia.
      rewrite (proj2 (Z.eqb_neq _ _)) by lia. done.
    + rewrite (proj2 (Z.ltb_ge _ _)) by lia.
      rewrite (proj2 (Z.eqb_neq _ _)) by lia. done.
Qed.

(** ** Properties of [rne] *)

Lemma rne_bounds (X n : Z) : 0 ≤ n → X / 2 ^ n ≤ rne X n ≤ X / 2 ^ n + 1.
Proof. intros Hn. unfold rne. case_match; lia. Qed.

Lemma rne_exact (q n : Z) : 0 ≤ n → rne (q * 2 ^ n) n = q.
Proof.
  intros Hn. unfold rne. pose proof (pow2_pos n Hn).
  rewrite Z.div_mul, Z.mod_mul by lia.
  rewrite (proj2 (Z.ltb_ge _ _)) by lia. rewrite (proj2 (Z.eqb_neq _ _)) by lia. done.
Qed.

Lemma rne_mono (X Y n : Z) : 0 ≤ n → X ≤ Y → rne X n ≤ rne Y n.
Proof.
  intros Hn HXY. pose proof (pow2_pos n Hn) as Hp.
  pose proof (Z.div_le_mono X Y (2 ^ n) Hp HXY) as Hq.
  destruct (Z.eq_dec (X / 2 ^ n) (Y / 2 ^ n)) as [E|E].
  - unfold rne. rewrite <- E.
    assert (Ht : X mod 2 ^ n ≤ Y mod 2 ^ n).
    { rewrite !Z.mod_eq by lia. rewrite E. lia. }
    destruct (Z.ltb_spec (2 ^ n) (2 * (X mod 2 ^ n))) as [H1|H1]; cbn [orb].
    + rewrite (proj2 (Z.ltb_lt _ _)) by lia. cbn [orb]. lia.
    + destruct (Z.eqb_spec (2 * (X mod 2 ^ n)) (2 ^ n)) as [H2|H2]; cbn [andb].
      * destruct (Z.ltb_spec (2 ^ n) (2 * (Y mod 2 ^ n))); cbn [orb].
        -- destruct (Z.odd (X / 2 ^ n)); lia.
        -- rewrite (proj2 (Z.eqb_eq _ _)) by lia. cbn [andb]. lia.
      * case_match; lia.
  - pose proof (rne_bounds X n Hn). pose proof (rne_bounds Y n Hn). lia.
Qed.

Lemma rne_scale (X n j : Z) : 0 ≤ n → 0 ≤ j → rne (X * 2 ^ j) (n + j) = rne X n.
Proof.
  intros Hn Hj. unfold rne.
  pose proof (pow2_pos n Hn). pose proof (pow2_pos j Hj).
  rewrite (Z.pow_add_r 2 n j) by lia.
  rewrite Z.div_mul_cancel_r by lia.
  rewrite Z.mul_mod_distr_r by lia.
  set (t := X mod 2 ^ n). set (q := X / 2 ^ n).
  replace (2 ^ n * 2 ^ j <? 2 * (t * 2 ^ j)) with (2 ^ n <? 2 * t).
  2:{ destruct (Z.ltb_spec (2 ^ n) (2 * t)); symmetry;
        [apply Z.ltb_lt|apply Z.ltb_ge]; nia. }
  replace (2 * (t * 2 ^ j) =? 2 ^ n * 2 ^ j) with (2 * t =? 2 ^ n).
  2:{ destruct (Z.eqb_spec (2 * t) (2 ^ n)); symmetry;
        [apply Z.eqb_eq|apply Z.eqb_neq]; nia. }
  done.
Qed.


(** ** Digits *)

Lemma digits_lt_pow2 (p : positive) (k : Z) :
  Z.pos p < 2 ^ k ↔ Z.pos (digits2_pos p) ≤ k.
Proof.
  rewrite digits2_log2. rewrite Z.log2_lt_pow2 by lia. lia.
Qed.

Lemma digits_ge_pow2 (p : positive) (k : Z) :
  2 ^ (k - 1) ≤ Z.pos p ↔ k ≤ Z.pos (digits2_pos p).
Proof.
  rewrite digits2_log2. rewrite Z.log2_le_pow2 by lia. lia.
Qed.

Lemma fexp_eq (x : Z) : fexp prec emax x = Z.max (x - 53) (-1074).
Proof. reflexivity. Qed.

Lemma shr_nonpos (mrs : shr_record) (e n : Z) : n ≤ 0 → shr mrs e n = (mrs, e).
Proof. intros Hn. destruct n; [done|lia|done]. Qed.

Lemma valid_finite (s : bool) (m : positive) (e : Z) :
  valid_binary (S754_finite s m e) = true ↔
  Z.max (Z.pos (digits2_pos m) + e - 53) (-1074) = e ∧ e ≤ 971.
Proof.
  unfold SpecFloat.valid_binary, bounded, canonical_mantissa. rewrite fexp_eq.
  rewrite andb_true_iff, Z.eqb_eq, Z.leb_le. change (emax - prec) with 971. done.
Qed.

(** Rounding a positive integer mantissa that needs no left shift: the
    result is a valid non-negative float whose value is the rounded
    mantissa at the target exponent, capped at infinity. *)
Lemma binary_round_aux_value (m : positive) (e : Z) :
  let E := Z.max (Z.pos (digits2_pos m) + e - 53) (-1074) in
  e ≤ E →
  let r := binary_round_aux prec emax false (Z.pos m) e loc_Exact in
  valid_binary r = true ∧ nonneg r = true
  ∧ value r = Z.min (rne (Z.pos m) (E - e) * 2 ^ (E - e_min)) (2 ^ 2098).
Proof.
  intros E HE r. subst r. unfold binary_round_aux, shr_fexp.
  cbn [Zdigits2 shr_record_of_loc]. rewrite fexp_eq. fold E.
  destruct (shr_round (Z.pos m) e (E - e)) as (mrs & -> & Hq & ->); [lia|lia|].
  replace (e + (E - e)) with E by lia.
  set (n := E - e) in *. set (m1 := rne (Z.pos m) n).
  pose proof (rne_bounds (Z.pos m) n ltac:(lia)) as Hb. fold m1 in Hb.
  pose proof (pow2_pos n ltac:(lia)) as Hpn.
  set (d := Z.pos (digits2_pos m)) in *.
  assert (Hq53 : Z.pos m / 2 ^ n < 2 ^ 53).
  { apply Z.div_lt_upper_bound; [lia|].
    rewrite <- Z.pow_add_r by lia.
    assert (Z.pos m < 2 ^ d) by (apply digits_lt_pow2; lia).
    assert (2 ^ d ≤ 2 ^ (n + 53)) by (apply Z.pow_le_mono_r; lia). lia. }
  assert (Hq0 : 0 ≤ Z.pos m / 2 ^ n) by (apply Z.div_pos; lia).
  assert (Hnorm : -1074 < E → 2 ^ 52 ≤ m1).
  { intros HEn. assert (n = d - 53) by lia.
    assert (2 ^ 52 ≤ Z.pos m / 2 ^ n); [|lia].
    apply Z.div_le_lower_bound; [lia|].
    rewrite <- Z.pow_add_r by lia.
    assert (2 ^ (d - 1) ≤ Z.pos m) by (apply digits_ge_pow2; lia).
    replace (n + 52) with (d - 1) by lia. lia. }
  assert (HEmin : -1074 ≤ E) by lia.
  assert (Hp : 0 < 2 ^ (E - e_min)) by (apply pow2_pos; unfold e_min; lia).
  destruct m1 as [|p1|p1] eqn:Hm1; [| |lia].
  - (* the mantissa rounds to zero *)
    cbn [Zdigits2 shr_record_of_loc]. rewrite fexp_eq, shr_nonpos by lia.
    cbn [shr_m]. split; [done|split; [done|]]. cbn [value]. lia.
  - cbn [Zdigits2 shr_record_of_loc]. rewrite fexp_eq.
    set (d1 := Z.pos (digits2_pos p1)).
    destruct (Z.eq_dec (Z.pos p1) (2 ^ 53)) as [Hcarry|Hcarry].
    + (* carry into the next binade *)
      assert (Hd1 : d1 = 54).
      { assert (d1 ≤ 54) by (apply digits_lt_pow2; rewrite Hcarry; lia).
        assert (54 ≤ d1) by (apply digits_ge_pow2; rewrite Hcarry; lia). lia. }
      rewrite Hd1. replace (Z.max (54 + E - 53) (-1074) - E) with 1 by lia.
      destruct (shr_round (Z.pos p1) E 1) as (mrs2 & -> & Hq2 & _); [lia|lia|].
      rewrite Hq2, Hcarry. change (2 ^ 53 / 2 ^ 1) with (Z.pos 4503599627370496).
      destruct (Z.leb_spec (E + 1) (emax - prec)) as [Hle|Hgt];
        change (emax - prec) with 971 in *.
      * split; [|split; [done|]].
        -- apply valid_finite. change (Z.pos (digits2_pos 4503599627370496)) with 53. lia.
        -- cbn [value]. unfold e_min in *.
           replace (E + 1 - -1074) with (E - -1074 + 1) by lia.
           rewrite Z.pow_add_r by lia. change (2 ^ 1) with 2.
           change (Z.pos 4503599627370496) with (2 ^ 52).
           assert (2 ^ 53 * 2 ^ (E - -1074) < 2 ^ 2098).
           { change 2098 with (53 + 2045). rewrite (Z.pow_add_r 2 53 2045) by lia.
             apply Z.mul_lt_mono_pos_l; [lia|].
             apply Z.pow_lt_mono_r; lia. }
           change (2 ^ 53) with (2 * 2 ^ 52) in *. lia.
      * split; [done|split; [done|]]. cbn [value]. unfold e_min in *.
        assert (2 ^ 2098 ≤ 2 ^ 53 * 2 ^ (E - -1074)); [|lia].
        change 2098 with (53 + 2045). rewrite (Z.pow_add_r 2 53 2045) by lia.
        apply Z.mul_le_mono_nonneg_l; [lia|]. apply Z.pow_le_mono_r; lia.
    + (* no carry *)
      assert (Hlt : Z.pos p1 < 2 ^ 53) by lia.
      assert (Hd1 : d1 ≤ 53) by (apply digits_lt_pow2; lia).
      rewrite shr_nonpos by lia. cbn [shr_m].
      destruct (Z.leb_spec E (emax - prec)) as [Hle|Hgt];
        change (emax - prec) with 971 in *.
      * split; [|split; [done|]].
        -- apply valid_finite. split; [|done]. fold d1.
           destruct (Z.eq_dec E (-1074)) as [HEe|HEe]; [lia|].
           assert (53 ≤ d1) by (apply digits_ge_pow2; simpl; lia). lia.
        -- cbn [value]. unfold e_min in *.
           assert (Z.pos p1 * 2 ^ (E - -1074) < 2 ^ 2098); [|lia].
           change 2098 with (53 + 2045). rewrite (Z.pow_add_r 2 53 2045) by lia.
           assert (2 ^ (E - -1074) ≤ 2 ^ 2045) by (apply Z.pow_le_mono_r; lia).
           nia.
      * split; [done|split; [done|]]. cbn [value]. unfold e_min in *.
        assert (2 ^ 2098 ≤ Z.pos p1 * 2 ^ (E - -1074)); [|lia].
        change 2098 with (52 + 2046). rewrite (Z.pow_add_r 2 52 2046) by lia.
        assert (2 ^ 2046 ≤ 2 ^ (E - -1074)) by (apply Z.pow_le_mono_r; lia).
        assert (2 ^ 52 ≤ Z.pos p1) by lia. nia.
Qed.


(** ** The rounding function on values *)

Lemma round_repr (m : positive) (e : Z) :
  let E := Z.max (Z.pos (digits2_pos m) + e - 53) (-1074) in
  - scale ≤ e → e ≤ E →
  round (Z.pos m * 2 ^ (e + scale))
  = Z.min (rne (Z.pos m) (E - e) * 2 ^ (E - e_min)) (2 ^ 2098).
Proof.
  intros E He HE. unfold round.
  pose proof (pow2_pos (e + scale) ltac:(lia)) as Hp.
  rewrite (proj2 (Z.eqb_neq _ _)) by lia.
  rewrite Z.log2_mul_pow2 by lia.
  replace (e + scale + Z.log2 (Z.pos m) + 1 - scale - 53)
    with (Z.pos (digits2_pos m) + e - 53) by (rewrite digits2_log2; lia).
  fold E. unfold e_min at 1. fold E.
  replace (E + scale) with (E - e + (e + scale)) by lia.
  rewrite rne_scale by lia. done.
Qed.

Lemma round_range (X : Z) : 0 ≤ X → 0 ≤ round X ≤ 2 ^ 2098.
Proof.
  intros HX. unfold round. destruct (Z.eqb_spec X 0); [lia|].
  set (E := Z.max (Z.log2 X + 1 - scale - 53) e_min).
  assert (0 ≤ E + scale) by (unfold e_min, scale in *; lia).
  pose proof (rne_bounds X (E + scale) ltac:(lia)).
  assert (0 ≤ X / 2 ^ (E + scale)) by (apply Z.div_pos; [lia|by apply pow2_pos]).
  assert (0 < 2 ^ (E - e_min)) by (apply pow2_pos; unfold e_min in *; lia).
  split; [apply Z.min_glb; nia|apply Z.le_min_r].
Qed.

Lemma round_mono (X Y : Z) : 0 ≤ X → X ≤ Y → round X ≤ round Y.
Proof.
  intros HX HXY. pose proof (round_range Y ltac:(lia)) as HrY.
  unfold round in *. destruct (Z.eqb_spec X 0) as [|HX0]; [lia|].
  destruct (Z.eqb_spec Y 0) as [|HY0]; [lia|].
  assert (Hlog : Z.log2 X ≤ Z.log2 Y) by (by apply Z.log2_le_mono).
  set (EX := Z.max (Z.log2 X + 1 - scale - 53) e_min) in *.
  set (EY := Z.max (Z.log2 Y + 1 - scale - 53) e_min) in *.
  assert (HEX : e_min ≤ EX) by lia. assert (HEY : e_min ≤ EY) by lia.
  assert (HE : EX ≤ EY) by lia.
  assert (HnX : 0 ≤ EX + scale) by (unfold e_min, scale in *; lia).
  assert (HnY : 0 ≤ EY + scale) by (unfold e_min, scale in *; lia).
  apply Z.min_le_compat_r.
  destruct (Z.eq_dec EX EY) as [Heq|Hne].
  - rewrite <- Heq. apply Z.mul_le_mono_nonneg_r.
    + apply Z.lt_le_incl, pow2_pos. lia.
    + by apply rne_mono.
  - (* the binade of Y lies above that of X *)
    assert (HrX : rne X (EX + scale) ≤ 2 ^ 53).
    { pose proof (rne_bounds X (EX + scale) HnX).
      assert (X / 2 ^ (EX + scale) < 2 ^ 53); [|lia].
      apply Z.div_lt_upper_bound; [by apply pow2_pos|].
      rewrite <- Z.pow_add_r by lia.
      assert (X < 2 ^ (Z.log2 X + 1)).
      { pose proof (Z.log2_spec X ltac:(lia)). replace (Z.log2 X + 1) with
          (Z.succ (Z.log2 X)) by lia. lia. }
      assert (2 ^ (Z.log2 X + 1) ≤ 2 ^ (EX + scale + 53))
        by (apply Z.pow_le_mono_r; lia).
      lia. }
    assert (HrY' : 2 ^ 52 ≤ rne Y (EY + scale)).
    { pose proof (rne_bounds Y (EY + scale) HnY).
      assert (2 ^ 52 ≤ Y / 2 ^ (EY + scale)); [|lia].
      apply Z.div_le_lower_bound; [by apply pow2_pos|].
      rewrite <- Z.pow_add_r by lia.
      assert (EY = Z.log2 Y + 1 - scale - 53) by lia.
      replace (EY + scale + 52) with (Z.log2 Y) by lia.
      pose proof (Z.log2_spec Y ltac:(lia)). lia. }
    assert (Hpow : 2 * 2 ^ (EX - e_min) ≤ 2 ^ (EY - e_min)).
    { replace (2 * 2 ^ (EX - e_min)) with (2 ^ (EX - e_min + 1))
        by (rewrite Z.pow_add_r by lia; lia).
      apply Z.pow_le_mono_r; lia. }
    assert (0 < 2 ^ (EX - e_min)) by (apply pow2_pos; lia).
    change (2 ^ 53) with (2 * 2 ^ 52) in HrX.
    assert (0 < 2 ^ 52) by lia.
    nia.
Qed.


(** ** Values and the order of non-negative floats *)

Lemma valid_finite_bounds (s : bool) (m : positive) (e : Z) :
  valid_binary (S754_finite s m e) = true →
  -1074 ≤ e ≤ 971 ∧ Z.pos m < 2 ^ 53 ∧ (-1074 < e → 2 ^ 52 ≤ Z.pos m).
Proof.
  intros [Hc He]%valid_finite. split; [lia|]. split.
  - apply digits_lt_pow2. lia.
  - intros Hn. apply (digits_ge_pow2 m 53). lia.
Qed.

Lemma value_finite_range (s : bool) (m : positive) (e : Z) :
  valid_binary (S754_finite s m e) = true →
  0 < value (S754_finite s m e) < 2 ^ 2098.
Proof.
  intros (He & Hm & _)%valid_finite_bounds. cbn [value]. unfold e_min.
  assert (0 < 2 ^ (e - -1074)) by (apply pow2_pos; lia).
  assert (2 ^ (e - -1074) ≤ 2 ^ 2045) by (apply Z.pow_le_mono_r; lia).
  change 2098 with (53 + 2045). rewrite (Z.pow_add_r 2 53 2045) by lia.
  split; nia.
Qed.

Lemma value_range (x : spec_float) :
  valid_binary x = true → 0 ≤ value x ≤ 2 ^ 2098.
Proof.
  intros Hv. destruct x as [s|s| |s m e]; cbn [value]; try lia.
  pose proof (value_finite_range s m e Hv). cbn [value] in *. lia.
Qed.

Lemma value_finite_lt (m1 m2 : positive) (e1 e2 : Z) :
  valid_binary (S754_finite false m1 e1) = true →
  valid_binary (S754_finite false m2 e2) = true →
  e1 < e2 →
  value (S754_finite false m1 e1) < value (S754_finite false m2 e2).
Proof.
  intros (He1 & Hm1 & _)%valid_finite_bounds (He2 & _ & Hm2)%valid_finite_bounds Hlt.
  cbn [value]. unfold e_min.
  assert (0 < 2 ^ (e1 - -1074)) by (apply pow2_pos; lia).
  assert (2 * 2 ^ (e1 - -1074) ≤ 2 ^ (e2 - -1074)).
  { replace (2 * 2 ^ (e1 - -1074)) with (2 ^ (e1 - -1074 + 1))
      by (rewrite Z.pow_add_r by lia; lia).
    apply Z.pow_le_mono_r; lia. }
  specialize (Hm2 ltac:(lia)). change (2 ^ 53) with (2 * 2 ^ 52) in Hm1. nia.
Qed.

(** On valid non-negative floats the comparison of the format is the
    comparison of values. *)
Lemma SFleb_value (x y : spec_float) :
  valid_binary x = true → valid_binary y = true →
  nonneg x = true → nonneg y = true →
  SFleb x y = (value x <=? value y).
Proof.
  intros Hvx Hvy Hx Hy. unfold SFleb.
  destruct x as [sx|[|]| |[|] mx ex]; try discriminate;
    destruct y as [sy|[|]| |[|] my ey]; try discriminate; cbn [SFcompare].
  - done.
  - done.
  - pose proof (value_finite_range false my ey Hvy). symmetry. apply Z.leb_le.
    cbn [value] in *. lia.
  - done.
  - done.
  - pose proof (value_finite_range false my ey Hvy). symmetry. apply Z.leb_gt.
    cbn [value] in *. lia.
  - pose proof (value_finite_range false mx ex Hvx). symmetry. apply Z.leb_gt.
    cbn [value] in *. lia.
  - pose proof (value_finite_range false mx ex Hvx). symmetry. apply Z.leb_le.
    cbn [value] in *. lia.
  - destruct (Z.compare_spec ex ey) as [Heq|Hlt|Hgt].
    + subst ey. rewrite Pos.compare_cont_spec. cbn [Pos.switch_Eq value].
      pose proof (valid_finite_bounds false mx ex Hvx) as (He & _ & _).
      assert (0 < 2 ^ (ex - e_min)) by (apply pow2_pos; unfold e_min; lia).
      destruct (Pos.compare_spec mx my) as [Hm|Hm|Hm]; symmetry.
      * apply Z.leb_le. subst. lia.
      * apply Z.leb_le. nia.
      * apply Z.leb_gt. nia.
    + pose proof (value_finite_lt mx my ex ey Hvx Hvy Hlt). symmetry.
      apply Z.leb_le. lia.
    + pose proof (value_finite_lt my mx ey ex Hvy Hvx ltac:(lia)). symmetry.
      apply Z.leb_gt. lia.
Qed.

Lemma nonneg_of_leb_zero (x : spec_float) :
  SFleb (S754_zero false) x = true → nonneg x = true.
Proof. by destruct x as [s|[|]| |[|] m e]. Qed.

(** ** Exact arguments *)

Lemma round_exact (s : bool) (m : positive) (e : Z) :
  valid_binary (S754_finite s m e) = true →
  round (value (S754_finite s m e) * 2 ^ 1074) = value (S754_finite s m e).
Proof.
  intros Hv. pose proof (value_finite_range s m e Hv) as Hr.
  pose proof Hv as [Hc He]%valid_finite. cbn [value] in *. unfold e_min in *.
  rewrite <- Z.mul_assoc, <- Z.pow_add_r by lia.
  replace (e - -1074 + 1074) with (e + scale) by (unfold scale; lia).
  rewrite round_repr by (unfold scale; lia).
  rewrite Hc. replace (e - e) with 0 by lia.
  replace (Z.pos m) with (Z.pos m * 2 ^ 0) at 1 by (rewrite Z.pow_0_r; lia).
  rewrite rne_exact by lia. unfold e_min. lia.
Qed.


(** ** Multiplication and addition of non-negative floats *)

Lemma round_0 : round 0 = 0.
Proof. reflexivity. Qed.

(** The product with a positive normal number is the rounded exact
    product. *)
Lemma SFmul_value (x c : spec_float) :
  valid_binary x = true → valid_binary c = true →
  nonneg_finite x = true → positive_normal c = true →
  valid_binary (SFmul prec emax x c) = true
  ∧ nonneg (SFmul prec emax x c) = true
  ∧ value (SFmul prec emax x c) = round (value x * value c).
Proof.
  intros Hvx Hvc Hx Hc.
  destruct c as [| | |[|] mc ec]; try discriminate. cbn [positive_normal] in Hc.
  apply Z.eqb_eq in Hc.
  destruct x as [sx| | |[|] mx ex]; try discriminate.
  - cbn [SFmul value]. rewrite Z.mul_0_l, round_0. done.
  - cbn [SFmul xorb].
    pose proof (valid_finite_bounds false mx ex Hvx) as (Hex & _ & _).
    pose proof (valid_finite_bounds false mc ec Hvc) as (Hec & _ & _).
    assert (Hd : 53 ≤ Z.pos (digits2_pos (mx * mc))).
    { apply digits_ge_pow2.
      assert (2 ^ (53 - 1) ≤ Z.pos mc) by (apply digits_ge_pow2; lia).
      rewrite Pos2Z.inj_mul. nia. }
    pose proof (binary_round_aux_value (mx * mc) (ex + ec) ltac:(lia)) as (H1 & H2 & H3).
    split; [done|split; [done|]]. rewrite H3.
    rewrite <- round_repr by (unfold scale; lia). f_equal.
    cbn [value]. unfold e_min, scale. rewrite Pos2Z.inj_mul.
    replace (ex + ec + 2148) with ((ex - -1074) + (ec - -1074)) by lia.
    rewrite Z.pow_add_r by lia. ring.
Qed.

Lemma shl_align_spec (m : positive) (e e' : Z) :
  ∃ m2, shl_align m e e' = (m2, Z.min e e')
        ∧ Z.pos m2 = Z.pos m * 2 ^ (e - Z.min e e').
Proof.
  unfold shl_align. destruct (e' - e) as [|d|d] eqn:Hd.
  - exists m. replace (Z.min e e') with e by lia.
    rewrite Z.sub_diag, Z.pow_0_r. split; [done|lia].
  - exists m. replace (Z.min e e') with e by lia.
    rewrite Z.sub_diag, Z.pow_0_r. split; [done|lia].
  - exists (Pos.iter xO m d). replace (Z.min e e') with e' by lia.
    split; [done|]. replace (e - e') with (Z.pos d) by lia.
    clear Hd. induction d as [|d IH] using Pos.peano_ind.
    + simpl. lia.
    + rewrite Pos.iter_succ, Pos2Z.inj_xO, IH, Pos2Z.inj_succ, Z.pow_succ_r by lia.
      ring.
Qed.

Lemma digits_shift (m m2 : positive) (j : Z) :
  0 ≤ j → Z.pos m2 = Z.pos m * 2 ^ j →
  Z.pos (digits2_pos m2) = Z.pos (digits2_pos m) + j.
Proof.
  intros Hj H. rewrite !digits2_log2, H, Z.log2_mul_pow2 by lia. lia.
Qed.

(** [binary_round]: any positive integer mantissa. *)
Lemma binary_round_value (m : positive) (e : Z) :
  -1074 ≤ e →
  valid_binary (binary_round prec emax false m e) = true
  ∧ nonneg (binary_round prec emax false m e) = true
  ∧ value (binary_round prec emax false m e) = round (Z.pos m * 2 ^ (e + scale)).
Proof.
  intros He. unfold binary_round. rewrite fexp_eq.
  set (E := Z.max (Z.pos (digits2_pos m) + e - 53) (-1074)).
  destruct (shl_align_spec m e E) as (mz & -> & Hmz).
  set (ez := Z.min e E) in *.
  assert (Hdz : Z.pos (digits2_pos mz) = Z.pos (digits2_pos m) + (e - ez))
    by (apply digits_shift; [lia|done]).
  assert (HE : Z.max (Z.pos (digits2_pos mz) + ez - 53) (-1074) = E)
    by (rewrite Hdz; unfold E; f_equal; lia).
  pose proof (binary_round_aux_value mz ez ltac:(lia)) as (H1 & H2 & H3).
  split; [done|split; [done|]]. rewrite H3.
  rewrite <- round_repr by (unfold scale; lia). f_equal.
  rewrite Hmz, <- Z.mul_assoc, <- Z.pow_add_r by (unfold scale; lia).
  f_equal. f_equal. lia.
Qed.

(** The sum of two non-negative finite floats is the rounded exact sum. *)
Lemma SFadd_value (x y : spec_float) :
  valid_binary x = true → valid_binary y = true →
  nonneg_finite x = true → nonneg_finite y = true →
  valid_binary (SFadd prec emax x y) = true
  ∧ nonneg (SFadd prec emax x y) = true
  ∧ value (SFadd prec emax x y) = round ((value x + value y) * 2 ^ 1074).
Proof.
  intros Hvx Hvy Hx Hy.
  destruct x as [sx| | |[|] mx ex]; try discriminate;
    destruct y as [sy| | |[|] my ey]; try discriminate.
  - cbn [value]. rewrite Z.mul_0_l, round_0. by destruct sx, sy.
  - cbn [SFadd]. rewrite Z.add_0_l, round_exact by done. done.
  - cbn [SFadd]. rewrite Z.add_0_r, round_exact by done. done.
  - cbn [SFadd cond_Zopp].
    pose proof (valid_finite_bounds false mx ex Hvx) as (Hex & _ & _).
    pose proof (valid_finite_bounds false my ey Hvy) as (Hey & _ & _).
    set (ez := Z.min ex ey).
    destruct (shl_align_spec mx ex ez) as (mx' & -> & Hmx).
    destruct (shl_align_spec my ey ez) as (my' & -> & Hmy).
    cbn [fst]. replace (Z.min ex ez) with ez in Hmx by lia.
    replace (Z.min ey ez) with ez in Hmy by lia.
    change (Z.pos mx' + Z.pos my') with (Z.pos (mx' + my')).
    cbn [binary_normalize].
    pose proof (binary_round_value (mx' + my') ez ltac:(lia)) as (H1 & H2 & H3).
    split; [done|split; [done|]]. rewrite H3. f_equal.
    rewrite Pos2Z.inj_add, Hmx, Hmy. cbn [value]. unfold e_min, scale.
    replace (ex - -1074) with ((ex - ez) + (ez + 1074)) by lia.
    replace (ey - -1074) with ((ey - ez) + (ez + 1074)) by lia.
    replace (ez + 2148) with ((ez + 1074) + 1074) by lia.
    rewrite (Z.pow_add_r 2 (ex - ez) (ez + 1074)), (Z.pow_add_r 2 (ey - ez) (ez + 1074)),
      (Z.pow_add_r 2 (ez + 1074) 1074) by lia.
    ring.
Qed.


(** ** Infinity *)

Lemma round_saturate (X : Z) : 2 ^ 3172 ≤ X → round X = 2 ^ 2098.
Proof.
  intros HX. unfold round.
  assert (0 < X) by lia.
  rewrite (proj2 (Z.eqb_neq _ _)) by lia.
  assert (Hlog : 3172 ≤ Z.log2 X) by (apply Z.log2_le_pow2; lia).
  set (E := Z.max (Z.log2 X + 1 - scale - 53) e_min).
  assert (HE : E = Z.log2 X - 2200) by (unfold E, scale, e_min; lia).
  pose proof (rne_bounds X (E + scale) ltac:(unfold scale; lia)) as Hb.
  assert (2 ^ 52 ≤ X / 2 ^ (E + scale)).
  { apply Z.div_le_lower_bound; [apply pow2_pos; unfold scale; lia|].
    rewrite <- Z.pow_add_r by (unfold scale; lia).
    replace (E + scale + 52) with (Z.log2 X) by (unfold scale; lia).
    pose proof (Z.log2_spec X ltac:(lia)). lia. }
  assert (2 ^ 2046 ≤ 2 ^ (E - e_min)) by (apply Z.pow_le_mono_r; unfold e_min; lia).
  apply Z.min_r. change 2098 with (52 + 2046). rewrite (Z.pow_add_r 2 52 2046) by lia.
  assert (0 < 2 ^ 52) by lia. assert (0 < 2 ^ 2046) by (by apply pow2_pos). nia.
Qed.

Lemma nonneg_cases (x : spec_float) :
  nonneg x = true → nonneg_finite x = true ∨ x = S754_infinity false.
Proof. destruct x as [s|[|]| |[|] m e]; auto; discriminate. Qed.

(** The sum of two non-negative floats, infinities included. *)
Lemma SFadd_nonneg (x y : spec_float) :
  valid_binary x = true → valid_binary y = true →
  nonneg x = true → nonneg y = true →
  valid_binary (SFadd prec emax x y) = true
  ∧ nonneg (SFadd prec emax x y) = true
  ∧ value (SFadd prec emax x y) = round ((value x + value y) * 2 ^ 1074).
Proof.
  intros Hvx Hvy Hx Hy.
  pose proof (value_range x Hvx) as Hrx. pose proof (value_range y Hvy) as Hry.
  assert (Hsat : ∀ v, 2 ^ 2098 ≤ v → round (v * 2 ^ 1074) = 2 ^ 2098).
  { intros v Hv. apply round_saturate. change 3172 with (2098 + 1074).
    rewrite (Z.pow_add_r 2 2098 1074) by lia.
    apply Z.mul_le_mono_nonneg_r; [|done]. apply Z.lt_le_incl. by apply pow2_pos. }
  destruct (nonneg_cases x Hx) as [Hfx| ->]; destruct (nonneg_cases y Hy) as [Hfy| ->].
  - by apply SFadd_value.
  - rewrite Hsat by (cbn [value] in *; lia).
    by destruct x as [s| | |[|] m e].
  - rewrite Hsat by (cbn [value] in *; lia).
    by destruct y as [s| | |[|] m e].
  - rewrite Hsat by (cbn [value]; lia). done.
Qed.

(** The product of a non-negative float, infinity included, with a
    positive normal number that is at least one. *)
Lemma SFmul_nonneg (x c : spec_float) :
  valid_binary x = true → valid_binary c = true →
  nonneg x = true → positive_normal c = true →
  valid_binary (SFmul prec emax x c) = true
  ∧ nonneg (SFmul prec emax x c) = true
  ∧ (2 ^ 1074 ≤ value c →
     value (SFmul prec emax x c) = round (value x * value c)).
Proof.
  intros Hvx Hvc Hx Hc.
  destruct (nonneg_cases x Hx) as [Hfx| ->].
  - destruct (SFmul_value x c Hvx Hvc Hfx Hc) as (H1 & H2 & H3). done.
  - destruct c as [| | |[|] mc ec]; try discriminate.
    split; [done|split; [done|]]. intros Hone.
    rewrite round_saturate; [done|].
    change 3172 with (2098 + 1074). rewrite (Z.pow_add_r 2 2098 1074) by lia.
    change (value (S754_infinity false)) with (2 ^ 2098).
    apply Z.mul_le_mono_nonneg_l; [|done]. apply Z.lt_le_incl. by apply pow2_pos.
Qed.

(** ** Primitive floats *)

Local Open Scope float_scope.

Lemma Prim2SF_zero : Prim2SF 0 = S754_zero false.
Proof. reflexivity. Qed.

Lemma leb_zero_nonneg (x : float) : (0 <=? x) = true ↔ nonneg (Prim2SF x) = true.
Proof.
  rewrite leb_spec, Prim2SF_zero.
  by destruct (Prim2SF x) as [s|[|]| |[|] m e].
Qed.

Lemma ltb_zero_nonneg (x : float) : (0 <? x) = true → (0 <=? x) = true.
Proof.
  rewrite ltb_spec, leb_spec, Prim2SF_zero.
  by destruct (Prim2SF x) as [s|[|]| |[|] m e].
Qed.

Lemma SFleb_nonneg (x y : spec_float) :
  nonneg x = true → SFleb x y = true → nonneg y = true.
Proof.
  destruct x as [sx|[|]| |[|] mx ex]; try discriminate;
    by destruct y as [sy|[|]| |[|] my ey].
Qed.

(** Multiplication by a positive normal constant that is at least one is
    monotone on non-negative floats. *)
Lemma float_mul_mono (x y c : float) :
  (0 <=? x) = true → (x <=? y) = true →
  positive_normal (Prim2SF c) = true → (2 ^ 1074 ≤ value (Prim2SF c))%Z →
  (0 <=? x * c) = true ∧ (0 <=? y * c) = true ∧ (x * c <=? y * c) = true.
Proof.
  rewrite !leb_zero_nonneg, !leb_spec, !mul_spec. intros Hx Hxy Hc Hone.
  pose proof (SFleb_nonneg _ _ Hx Hxy) as Hy.
  destruct (SFmul_nonneg _ _ (Prim2SF_valid x) (Prim2SF_valid c) Hx Hc)
    as (Hv1 & Hn1 & He1).
  destruct (SFmul_nonneg _ _ (Prim2SF_valid y) (Prim2SF_valid c) Hy Hc)
    as (Hv2 & Hn2 & He2).
  split; [done|split; [done|]].
  rewrite SFleb_value in * by (done || apply Prim2SF_valid).
  apply Z.leb_le in Hxy. apply Z.leb_le.
  unfold SF64mul. rewrite He1, He2 by done.
  pose proof (value_range _ (Prim2SF_valid x)).
  pose proof (value_range _ (Prim2SF_valid c)).
  apply round_mono; [apply Z.mul_nonneg_nonneg; lia|].
  apply Z.mul_le_mono_nonneg_r; lia.
Qed.

Lemma float_mul_nonneg (x c : float) :
  (0 <=? x) = true → positive_normal (Prim2SF c) = true → (0 <=? x * c) = true.
Proof.
  rewrite !leb_zero_nonneg, mul_spec. intros Hx Hc.
  by destruct (SFmul_nonneg _ _ (Prim2SF_valid x) (Prim2SF_valid c) Hx Hc)
    as (_ & Hn & _).
Qed.

(** Addition of a non-negative float, on either side, is monotone on
    non-negative floats. *)
Lemma float_add_mono (x y c : float) :
  (0 <=? x) = true → (x <=? y) = true → (0 <=? c) = true →
  (0 <=? x + c) = true ∧ (0 <=? y + c) = true ∧ (x + c <=? y + c) = true
  ∧ (0 <=? c + x) = true ∧ (0 <=? c + y) = true ∧ (c + x <=? c + y) = true.
Proof.
  rewrite !leb_zero_nonneg, !leb_spec, !add_spec. intros Hx Hxy Hc.
  pose proof (SFleb_nonneg _ _ Hx Hxy) as Hy.
  pose proof (Prim2SF_valid x) as Hvx. pose proof (Prim2SF_valid y) as Hvy.
  pose proof (Prim2SF_valid c) as Hvc.
  destruct (SFadd_nonneg _ _ Hvx Hvc Hx Hc) as (Hv1 & Hn1 & He1).
  destruct (SFadd_nonneg _ _ Hvy Hvc Hy Hc) as (Hv2 & Hn2 & He2).
  destruct (SFadd_nonneg _ _ Hvc Hvx Hc Hx) as (Hv3 & Hn3 & He3).
  destruct (SFadd_nonneg _ _ Hvc Hvy Hc Hy) as (Hv4 & Hn4 & He4).
  rewrite SFleb_value in Hxy by done. apply Z.leb_le in Hxy.
  pose proof (value_range _ Hvx). pose proof (value_range _ Hvc).
  assert (0 < 2 ^ 1074)%Z by (by apply pow2_pos).
  unfold SF64add.
  repeat split; try done.
  - rewrite SFleb_value by done. apply Z.leb_le. rewrite He1, He2.
    apply round_mono; [apply Z.mul_nonneg_nonneg; lia|].
    apply Z.mul_le_mono_nonneg_r; lia.
  - rewrite SFleb_value by done. apply Z.leb_le. rewrite He3, He4.
    apply round_mono; [apply Z.mul_nonneg_nonneg; lia|].
    apply Z.mul_le_mono_nonneg_r; lia.
Qed.

End Binary64Facts.

(** ** The rate calculator *)

Section rate_calculator.
Import CalculateRateView.

Lemma service_multiplier_table (st : string) :
  default 1.0%float (service_multipliers !! st) = spec_service_multiplier st.
Proof.
  unfold spec_service_multiplier, service_multipliers.
  repeat case_bool_decide; subst; try reflexivity.
  by rewrite !lookup_insert_ne, lookup_empty.
Qed.

Lemma distance_multiplier_table (o d : string) :
  (if negb (bool_decide (o = d)) then 1.5%float else 1.0%float)
  = spec_distance_multiplier o d.
Proof. unfold spec_distance_multiplier. by case_bool_decide. Qed.

Lemma post_request_of (w dv : float) (st o d : string) (l wd h : option float) :
  post (request_of w st o d dv (RNum <$> l, RNum <$> wd, RNum <$> h))
  = compute w (default 0%float l) (default 0%float wd) (default 0%float h) o d st dv.
Proof. by destruct l, wd, h. Qed.

(** C1. For every weight, service type, origin, destination and declared
    value (and whatever dimensions come with them), the handler answers
    with amount [(base_rate + weight * per_kg_rate) * distance_multiplier *
    service_multiplier + insurance]: base rate 10, 2 per kg, distance
    multiplier 1.0 for equal countries and 1.5 otherwise, service multiplier
    read from the fixed table with 1.0 for unknown types, insurance 1% of
    a positive declared value and 0 otherwise, added after the
    multipliers. *)
Theorem C1_rate_formula (w dv : float) (st o d : string) (l wd h : option float) :
  ∃ b, post (request_of w st o d dv (RNum <$> l, RNum <$> wd, RNum <$> h)) = Ok200 b
       ∧ total b = spec_amount w st o d dv
       ∧ base_rate b = 10.0%float
       ∧ weight_rate b = (w * 2.0)%float
       ∧ distance_multiplier b = spec_distance_multiplier o d
       ∧ service_multiplier b = spec_service_multiplier st
       ∧ insurance b = (if (0 <? dv)%float then PyFloat (0.01 * dv)%float else PyInt 0).
Proof.
  rewrite post_request_of. unfold compute, spec_amount, spec_insurance.
  rewrite service_multiplier_table, distance_multiplier_table.
  destruct (0 <? dv)%float eqn:Hdv; simpl;
    (eexists; split; [reflexivity|]); simpl;
    rewrite ?(float_mul_comm dv); repeat split; reflexivity.
Qed.

(** C4. The two worked examples: 5 kg, standard, US to US, nothing declared
    costs 20.0; 5 kg, express, US to CA, 1000 declared costs 55.0. *)
Theorem C4_worked_examples :
  amount (post (request_of 5 "standard" "US" "US" 0 (None, None, None))) = Some 20%float
  ∧ amount (post (request_of 5 "express" "US" "CA" 1000 (None, None, None)))
    = Some 55%float.
Proof. split; vm_compute; reflexivity. Qed.

Lemma post_ignores_accepted_dimensions (r1 r2 : Request) :
  same_but_dimensions r1 r2 →
  dimensions_accepted r1 = true → dimensions_accepted r2 = true →
  post r1 = post r2.
Proof.
  destruct r1 as [w1 l1 wd1 h1 f1 t1 s1 d1], r2 as [w2 l2 wd2 h2 f2 t2 s2 d2].
  unfold same_but_dimensions, dimensions_accepted; simpl.
  intros (-> & -> & -> & -> & ->) H1 H2.
  apply andb_prop in H1 as [H1 Hh1]. apply andb_prop in H1 as [Hl1 Hw1].
  apply andb_prop in H2 as [H2 Hh2]. apply andb_prop in H2 as [Hl2 Hw2].
  unfold post; simpl.
  destruct (float_get w2) as [e|w]; [reflexivity|].
  destruct l1 as [[?|?]|], l2 as [[?|?]|]; try discriminate;
  destruct wd1 as [[?|?]|], wd2 as [[?|?]|]; try discriminate;
  destruct h1 as [[?|?]|], h2 as [[?|?]|]; try discriminate; reflexivity.
Qed.

Lemma post_rejects_bad_dimension (r : Request) :
  dimensions_accepted r = false → ∃ e, post r = BadRequest400 e.
Proof.
  destruct r as [w l wd h f t s d]. unfold dimensions_accepted, post; simpl.
  intros H.
  destruct (float_get w) as [e|w']; [by eexists|].
  destruct l as [[?|?]|], wd as [[?|?]|], h as [[?|?]|]; simpl in *;
    try discriminate; by eexists.
Qed.

(** C10, in the form that holds. Two requests that differ only in length, width and
    height get the same answer, total and every breakdown field, provided
    each of the three values is absent or accepted by [float]; a dimension
    that [float] rejects makes the handler answer with the error body
    instead. *)
Theorem C10_dimensions_unused (r1 r2 : Request) :
  same_but_dimensions r1 r2 →
  (dimensions_accepted r1 = true → dimensions_accepted r2 = true → post r1 = post r2)
  ∧ (dimensions_accepted r1 = false → ∃ e, post r1 = BadRequest400 e).
Proof.
  intros H. split.
  - by apply post_ignores_accepted_dimensions.
  - apply post_rejects_bad_dimension.
Qed.

Lemma C10_dimensions_unused_witness :
  let r1 := request_of 5 "standard" "US" "US" 0 (Some (RNum 1), None, None) in
  let r2 := request_of 5 "standard" "US" "US" 0 (Some (RNum 30), Some (RNum 2), None) in
  (dimensions_accepted r1 = true → dimensions_accepted r2 = true → post r1 = post r2)
  ∧ (dimensions_accepted r1 = false → ∃ e, post r1 = BadRequest400 e).
Proof.
  intros r1 r2. apply (C10_dimensions_unused r1 r2).
  repeat split; reflexivity.
Defined.

(** C10 over all requests fails: a length that [float] cannot convert turns the
    answer into the error body, although nothing but the length changed. *)
Lemma C10_counterexample : ¬ dimensions_ignored.
Proof.
  intros H.
  specialize (H (request_of 5 "standard" "US" "US" 0 (Some (RNum 1), None, None))
                (request_of 5 "standard" "US" "US" 0
                   (Some (RBad "could not convert string to float: 'abc'"), None, None))).
  assert (Hs : same_but_dimensions
                 (request_of 5 "standard" "US" "US" 0 (Some (RNum 1), None, None))
                 (request_of 5 "standard" "US" "US" 0
                    (Some (RBad "could not convert string to float: 'abc'"), None, None)))
    by (repeat split; reflexivity).
  specialize (H Hs). vm_compute in H. discriminate H.
Qed.

(** The amount of a well-typed request, computed as the source does. *)
Lemma amount_request_of (w dv : float) (st o d : string) (l wd h : option float) :
  amount (post (request_of w st o d dv (RNum <$> l, RNum <$> wd, RNum <$> h)))
  = Some ((10.0 + w * 2.0) * spec_distance_multiplier o d * spec_service_multiplier st
          + (if (0 <? dv) then dv * 0.01 else 0))%float.
Proof.
  rewrite post_request_of. unfold compute.
  rewrite service_multiplier_table, distance_multiplier_table.
  by destruct (0 <? dv)%float.
Qed.

(** The multipliers are positive normal numbers, none below one. *)
Lemma multiplier_at_least_one (c : float) :
  c = 1.0%float ∨ c = 1.5%float ∨ c = 2.0%float ∨ c = 2.5%float →
  Binary64.positive_normal (Prim2SF c) = true
  ∧ (2 ^ 1074 ≤ Binary64.value (Prim2SF c))%Z.
Proof.
  intros [-> | [-> | [-> | ->]]]; (split; [reflexivity|]);
    apply Z.leb_le; vm_compute; reflexivity.
Qed.

Lemma spec_distance_multiplier_cases (o d : string) :
  spec_distance_multiplier o d = 1.0%float ∨ spec_distance_multiplier o d = 1.5%float
  ∨ spec_distance_multiplier o d = 2.0%float ∨ spec_distance_multiplier o d = 2.5%float.
Proof. unfold spec_distance_multiplier. case_bool_decide; auto. Qed.

Lemma spec_service_multiplier_cases (st : string) :
  spec_service_multiplier st = 1.0%float ∨ spec_service_multiplier st = 1.5%float
  ∨ spec_service_multiplier st = 2.0%float ∨ spec_service_multiplier st = 2.5%float.
Proof. unfold spec_service_multiplier. repeat case_bool_decide; auto. Qed.

Lemma insurance_nonneg (dv : float) :
  (0 <=? (if (0 <? dv) then dv * 0.01 else 0))%float = true.
Proof.
  destruct (0 <? dv)%float eqn:Hdv; [|reflexivity].
  apply Binary64Facts.float_mul_nonneg; [|reflexivity].
  by apply Binary64Facts.ltb_zero_nonneg.
Qed.

(** The amount before rounding errors are even considered: every step of
    the formula is monotone in the weight. *)
Lemma amount_monotone (w1 w2 dv : float) (st o d : string) :
  (0 <=? w1)%float = true → (w1 <=? w2)%float = true →
  ((10.0 + w1 * 2.0) * spec_distance_multiplier o d * spec_service_multiplier st
     + (if (0 <? dv) then dv * 0.01 else 0)
   <=? (10.0 + w2 * 2.0) * spec_distance_multiplier o d * spec_service_multiplier st
       + (if (0 <? dv) then dv * 0.01 else 0))%float = true.
Proof.
  intros H0 H12.
  destruct (multiplier_at_least_one 2.0%float ltac:(auto)) as [Hn2 Hv2].
  destruct (Binary64Facts.float_mul_mono w1 w2 2.0 H0 H12 Hn2 Hv2) as (Ha0 & _ & Ha).
  destruct (Binary64Facts.float_add_mono _ _ 10.0 Ha0 Ha eq_refl)
    as (_ & _ & _ & Hb0 & _ & Hb).
  destruct (multiplier_at_least_one _ (spec_distance_multiplier_cases o d)) as [Hnd Hvd].
  destruct (Binary64Facts.float_mul_mono _ _ _ Hb0 Hb Hnd Hvd) as (Hc0 & _ & Hc).
  destruct (multiplier_at_least_one _ (spec_service_multiplier_cases st)) as [Hns Hvs].
  destruct (Binary64Facts.float_mul_mono _ _ _ Hc0 Hc Hns Hvs) as (Hd0 & _ & Hd).
  by destruct (Binary64Facts.float_add_mono _ _ _ Hd0 Hd (insurance_nonneg dv))
    as (_ & _ & He & _).
Qed.

(** C5. The rate calculation is a function of the request alone (it reads
    no database, clock or random source), so equal inputs give equal
    answers; and for weights [0 <= w1 <= w2], with every other input fixed
    and whatever the service type, both requests are answered with an
    amount and the amount for [w1] is at most the amount for [w2], in
    binary64 arithmetic with all its roundings and overflow to
    infinity. *)
Theorem C5_deterministic_and_monotone (w1 w2 dv : float) (st o d : string)
    (l wd h : option float) :
  (0 <=? w1)%float = true → (w1 <=? w2)%float = true →
  (∀ r1 r2 : Request, r1 = r2 → post r1 = post r2)
  ∧ ∃ t1 t2,
      amount (post (request_of w1 st o d dv (RNum <$> l, RNum <$> wd, RNum <$> h)))
        = Some t1
      ∧ amount (post (request_of w2 st o d dv (RNum <$> l, RNum <$> wd, RNum <$> h)))
        = Some t2
      ∧ (t1 <=? t2)%float = true.
Proof.
  intros H0 H12. split; [by intros r1 r2 ->|].
  eexists _, _. rewrite !amount_request_of.
  split; [reflexivity|]. split; [reflexivity|]. by apply amount_monotone.
Qed.

Lemma C5_deterministic_and_monotone_witness :
  (0 <=? 5)%float = true ∧ (5 <=? 7.5)%float = true
  ∧ ∃ t1 t2,
      amount (post (request_of 5 "express" "US" "CA" 1000 (None, None, None))) = Some t1
      ∧ amount (post (request_of 7.5 "express" "US" "CA" 1000 (None, None, None)))
        = Some t2
      ∧ (t1 <=? t2)%float = true.
Proof.
  split; [reflexivity|]. split; [reflexivity|].
  exact (proj2 (C5_deterministic_and_monotone 5 7.5 1000 "express" "US" "CA"
                  None None None eq_refl eq_refl)).
Defined.

End rate_calculator.


(** ** Lists of rows *)

Lemma NoDup_fmap_inj_on {A B} (f : A → B) (l : list A) (x y : A) :
  NoDup (f <$> l) → x ∈ l → y ∈ l → f x = f y → x = y.
Proof.
  induction l as [|a l IH]; intros Hnd Hx Hy Hf; [by apply elem_of_nil in Hx|].
  rewrite fmap_cons in Hnd. apply NoDup_cons in Hnd as [Hna Hnd].
  apply elem_of_cons in Hx as [->|Hx]; apply elem_of_cons in Hy as [->|Hy].
  - done.
  - exfalso. apply Hna. rewrite Hf. by apply list_elem_of_fmap_2.
  - exfalso. apply Hna. rewrite <- Hf. by apply list_elem_of_fmap_2.
  - by apply IH.
Qed.

Lemma filter_nil_intro {A} (P : A → Prop) `{∀ x, Decision (P x)} (l : list A) :
  (∀ x, x ∈ l → ¬ P x) → filter P l = [].
Proof.
  induction l as [|a l IH]; intros Hl; [done|].
  rewrite filter_cons_False by (apply Hl; left).
  apply IH. intros x Hx. apply Hl. by right.
Qed.

Lemma filter_unique {A B} `{EqDecision B} (f : A → B) (l : list A) (x : A) :
  NoDup (f <$> l) → x ∈ l → filter (λ y, f y = f x) l = [x].
Proof.
  induction l as [|a l IH]; intros Hnd Hx; [by apply elem_of_nil in Hx|].
  rewrite fmap_cons in Hnd. apply NoDup_cons in Hnd as [Hna Hnd].
  apply elem_of_cons in Hx as [->|Hx].
  - rewrite filter_cons_True by done. f_equal.
    apply filter_nil_intro. intros y Hy Hf.
    apply Hna. rewrite <- Hf. by apply list_elem_of_fmap_2.
  - rewrite filter_cons_False; [by apply IH|].
    intros Hf. apply Hna. rewrite Hf. by apply list_elem_of_fmap_2.
Qed.

Lemma filter_none {A B} `{EqDecision B} (f : A → B) (l : list A) (b : B) :
  b ∉ f <$> l → filter (λ y, f y = b) l = [].
Proof.
  intros Hb. apply filter_nil_intro. intros y Hy Hf.
  apply Hb. rewrite <- Hf. by apply list_elem_of_fmap_2.
Qed.

(** Replacing the row that has the key of [x] by [x']. *)
Lemma replace_row_fmap {A K B} `{EqDecision K} (key : A → K) (g : A → B)
    (l : list A) (x x' : A) :
  NoDup (key <$> l) → x ∈ l → key x' = key x → g x' = g x →
  g <$> ((λ r, if bool_decide (key r = key x') then x' else r) <$> l) = g <$> l.
Proof.
  intros Hnd Hx Hk Hg. rewrite <- list_fmap_compose.
  apply Forall_fmap_ext_1, Forall_forall. intros r Hr. simpl.
  case_bool_decide as E; [|done].
  rewrite Hg. f_equal. symmetry.
  apply (NoDup_fmap_inj_on key l); try done. congruence.
Qed.

Lemma replace_row_elem {A K} `{EqDecision K} (key : A → K) (l : list A) (x x' : A) :
  x ∈ l → key x' = key x →
  x' ∈ (λ r, if bool_decide (key r = key x') then x' else r) <$> l.
Proof.
  intros Hx Hk. apply list_elem_of_fmap. exists x. split; [|done].
  by rewrite bool_decide_eq_true_2.
Qed.

Lemma replace_row_filter {A K} `{EqDecision K} (key : A → K) (l : list A) (x x' : A) :
  NoDup (key <$> l) → x ∈ l → key x' = key x →
  filter (λ r, key r = key x)
    ((λ r, if bool_decide (key r = key x') then x' else r) <$> l) = [x'].
Proof.
  intros Hnd Hx Hk.
  assert (Hnd' : NoDup (key <$> ((λ r, if bool_decide (key r = key x') then x' else r) <$> l))).
  { rewrite (replace_row_fmap key key l x x'); done. }
  rewrite <- Hk. apply filter_unique; [done|]. by apply replace_row_elem with x.
Qed.

(** ** Decimal columns *)

Lemma round_half_even_exact (n : Z) (b : positive) :
  round_half_even (n * Z.pos b) b = n.
Proof.
  unfold round_half_even.
  rewrite Z.div_mul, Z.mod_mul by lia. simpl.
  destruct (0 <? Z.pos b)%Z eqn:E; [done|]. apply Z.ltb_ge in E. lia.
Qed.

(** An amount given in hundredths is its own value at two places. *)
Lemma hundredths_money (n : Z) : hundredths (money n) = n.
Proof.
  unfold hundredths, money.
  assert (H : (Q2Qc (n # 100) == n # 100)%Q) by apply Qred_correct.
  unfold Qeq in H. simpl Qnum in H. simpl Qden in H.
  replace (Qnum (Q2Qc (n # 100)) * 100)%Z with (n * Z.pos (Qden (Q2Qc (n # 100))))%Z
    by (simpl; lia).
  apply round_half_even_exact.
Qed.

Lemma quantize2_money (n : Z) : quantize2 (money n) = money n.
Proof. unfold quantize2. by rewrite hundredths_money. Qed.

Lemma quantize2_is_money (q : Qc) : quantize2 q = money (hundredths q).
Proof. reflexivity. Qed.

Lemma quantize2_idem (q : Qc) : quantize2 (quantize2 q) = quantize2 q.
Proof. rewrite (quantize2_is_money q). apply quantize2_money. Qed.

Lemma money_plus (a b : Z) : (money a + money b)%Qc = money (a + b).
Proof.
  unfold money. apply Qc_is_canon. simpl.
  rewrite !Qred_correct. unfold Qeq, Qplus. simpl. lia.
Qed.

(** Sums of two-place values are two-place values, and their hundredths
    add up. *)
Lemma two_places_plus (a b : Qc) : two_places a → two_places b → two_places (a + b)%Qc.
Proof.
  unfold two_places. intros Ha Hb. rewrite <- Ha, <- Hb, !quantize2_is_money, money_plus.
  apply quantize2_money.
Qed.

Lemma Consignment_db_row_two_places (c : Consignment.t) :
  two_places (Consignment.freight_charges c) → two_places (Consignment.handling_charges c) →
  two_places (Consignment.insurance_charges c) → two_places (Consignment.customs_charges c) →
  two_places (Consignment.other_charges c) → two_places (Consignment.total_charges c) →
  Consignment_db_row c = c.
Proof.
  unfold two_places, Consignment_db_row. intros -> -> -> -> -> ->. by destruct c.
Qed.

(** Reading back a row whose charges are column values: the total decides. *)
Lemma Consignment_from_db_column_values (c : Consignment.t) :
  column_value (Consignment.freight_charges c) →
  column_value (Consignment.handling_charges c) →
  column_value (Consignment.insurance_charges c) →
  column_value (Consignment.customs_charges c) →
  column_value (Consignment.other_charges c) →
  two_places (Consignment.total_charges c) →
  Consignment_from_db c
  = if fits 10 (Consignment.total_charges c) then inr c else inl InvalidOperation.
Proof.
  intros [Hf Hf'] [Hh Hh'] [Hi Hi'] [Hc Hc'] [Ho Ho'] Ht.
  unfold Consignment_from_db, DecimalField_from_db.
  rewrite Hf', Hh', Hi', Hc', Ho', Hf, Hh, Hi, Hc, Ho.
  destruct (fits 10 (Consignment.total_charges c)); [|done].
  rewrite Ht. by destruct c.
Qed.

(** ** [Model.save]: the UPDATE-or-INSERT step *)

(** Case analysis on the guard of the first conditional of the goal. *)
Ltac case_cond :=
  match goal with
  | |- context [if ?b then _ else _] => destruct b eqn:?; simpl
  end.

(** A completed step returns the object with its columns as given (only the
    key and [created_at] may be filled in) and the object is in the table
    (a consignment as its row reads back); a refused step is an
    [IntegrityError] that leaves the world alone. *)
Lemma Shipment_super_save_inv (s : Shipment.t) (w : World) :
  match Shipment_super_save s w with
  | (inr s', w') =>
      Shipment.tracking_number s' = Shipment.tracking_number s
      ∧ Shipment.status s' = Shipment.status s
      ∧ s' ∈ shipments w'
      ∧ shipment_histories w' = shipment_histories w
      ∧ draws w' = draws w ∧ urandom w' = urandom w
  | (inl e, w') => e = IntegrityError ∧ w' = w
  end.
Proof.
  unfold Shipment_super_save.
  destruct (bool_decide (is_Some (Shipment.pk s))
            && bool_decide (Shipment.pk s ∈ Shipment.pk <$> shipments w)) eqn:E.
  - case_cond; [done|]. repeat split.
    apply andb_prop in E as [_ E]. apply bool_decide_eq_true in E.
    apply list_elem_of_fmap in E as (r & Hr & Hin). simpl.
    apply list_elem_of_fmap. exists r. split; [|done].
    by rewrite bool_decide_eq_true_2.
  - case_cond; [done|]. repeat split. left.
Qed.

Lemma Consignment_super_save_inv (c : Consignment.t) (w : World) :
  match Consignment_super_save c w with
  | (inr c', w') =>
      c' = Consignment_with_created_at (Consignment.created_at c')
             (Consignment_with_pk (Consignment.pk c') c)
      ∧ is_Some (Consignment.pk c')
      ∧ Consignment_db_row c' ∈ consignments w'
      ∧ consignment_histories w' = consignment_histories w
      ∧ shipments w' = shipments w ∧ shipment_histories w' = shipment_histories w
      ∧ draws w' = draws w ∧ urandom w' = urandom w
  | (inl e, w') => e = IntegrityError ∧ w' = w
  end.
Proof.
  unfold Consignment_super_save.
  destruct (bool_decide (is_Some (Consignment.pk c))
            && bool_decide (Consignment.pk c ∈ Consignment.pk <$> consignments w)) eqn:E.
  - case_cond; [done|]. apply andb_prop in E as [Hk E].
    apply bool_decide_eq_true in E, Hk.
    split; [by destruct c|]. split; [done|]. repeat split.
    apply list_elem_of_fmap in E as (r & Hr & Hin). simpl.
    apply list_elem_of_fmap. exists r. split; [|done].
    by rewrite bool_decide_eq_true_2.
  - case_cond; [done|]. repeat split; [done|]. left.
Qed.

Lemma Payment_super_save_inv (p : Payment.t) (w : World) :
  match Payment_super_save p w with
  | (inr p', w') =>
      Payment.payment_id p' = Payment.payment_id p
      ∧ p' ∈ payments w'
      ∧ draws w' = draws w ∧ urandom w' = urandom w
  | (inl e, w') => e = IntegrityError ∧ w' = w
  end.
Proof.
  unfold Payment_super_save.
  destruct (bool_decide (is_Some (Payment.pk p))
            && bool_decide (Payment.pk p ∈ Payment.pk <$> payments w)) eqn:E.
  - case_cond; [done|]. repeat split.
    apply andb_prop in E as [_ E]. apply bool_decide_eq_true in E.
    apply list_elem_of_fmap in E as (r & Hr & Hin). simpl.
    apply list_elem_of_fmap. exists r. split; [|done].
    by rewrite bool_decide_eq_true_2.
  - case_cond; [done|]. repeat split. left.
Qed.

(** Writing back a stored row, with its key and identifier untouched, is an
    UPDATE that the uniqueness constraint lets through. *)
Lemma Shipment_super_save_update (s0 s : Shipment.t) (w : World) :
  shipments_wf (shipments w) → s0 ∈ shipments w →
  Shipment.pk s = Shipment.pk s0 →
  Shipment.tracking_number s = Shipment.tracking_number s0 →
  Shipment_super_save s w =
    (inr s, with_shipments
              ((λ r, if bool_decide (Shipment.pk r = Shipment.pk s) then s else r)
                 <$> shipments w) w).
Proof.
  intros (Hpk & Hnd & Hnt & _) Hin Hk Ht. unfold Shipment_super_save.
  rewrite Forall_forall in Hpk.
  rewrite andb_true_intro; last first.
  { split; apply bool_decide_eq_true_2.
    - rewrite Hk. by apply Hpk.
    - rewrite Hk. by apply list_elem_of_fmap_2. }
  rewrite bool_decide_eq_false_2; [done|].
  rewrite Exists_exists. intros (r & Hr & Htr & Hne). apply Hne.
  rewrite Hk. f_equal.
  apply (NoDup_fmap_inj_on Shipment.tracking_number (shipments w)); try done.
  congruence.
Qed.

Lemma Consignment_super_save_update (c0 c : Consignment.t) (w : World) :
  consignments_wf (consignments w) → c0 ∈ consignments w →
  Consignment.pk c = Consignment.pk c0 →
  Consignment.consignment_number c = Consignment.consignment_number c0 →
  Consignment_super_save c w =
    (inr c, with_consignments
              ((λ r, if bool_decide (Consignment.pk r = Consignment.pk c)
                     then Consignment_db_row c else r)
                 <$> consignments w) w).
Proof.
  intros (Hpk & Hnd & Hnt & _) Hin Hk Ht. unfold Consignment_super_save.
  rewrite Forall_forall in Hpk.
  rewrite andb_true_intro; last first.
  { split; apply bool_decide_eq_true_2.
    - rewrite Hk. by apply Hpk.
    - rewrite Hk. by apply list_elem_of_fmap_2. }
  rewrite bool_decide_eq_false_2; [done|].
  rewrite Exists_exists. intros (r & Hr & Htr & Hne). apply Hne.
  rewrite Hk. f_equal.
  apply (NoDup_fmap_inj_on Consignment.consignment_number (consignments w)); try done.
  congruence.
Qed.

(** ** Identifiers *)

Lemma str_take_length (n : nat) (s : string) : String.length (str_take n s) ≤ n.
Proof.
  revert s. induction n as [|n IH]; intros [|c s]; simpl; try lia.
  specialize (IH s). lia.
Qed.

Lemma str_upper_length (s : string) : String.length (str_upper s) = String.length s.
Proof. induction s as [|c s IH]; simpl; [done | by rewrite IH]. Qed.

Lemma string_app_nonempty (p x : string) : p ≠ ""%string → (p +:+ x)%string ≠ ""%string.
Proof. destruct p; [done|]. discriminate. Qed.

(** A generated identifier is the fixed prefix followed by at most [n]
    characters computed from the random value. *)
Lemma generate_identifier_shape (prefix : string) (n : nat) (r : N) :
  ∃ rest, generate_identifier prefix n r = (prefix +:+ rest)%string
          ∧ String.length rest ≤ n
          ∧ rest = str_upper (str_take n (str_of_int (uuid4_int r))).
Proof.
  eexists. split; [reflexivity|]. split; [|reflexivity].
  rewrite str_upper_length. apply str_take_length.
Qed.

Lemma generated_or_kept_nonempty (prefix current : string) (n : nat) (r : N) :
  prefix ≠ ""%string →
  (if bool_decide (current = ""%string) then generate_identifier prefix n r else current)
  ≠ ""%string.
Proof.
  intros Hp. case_bool_decide; [|done]. by apply string_app_nonempty.
Qed.

Example generate_identifier_examples :
  generate_identifier "SH" 10 0 = "SH3022406782"%string
  ∧ generate_identifier "CN" 12 (2 ^ 128 - 1) = "CN340282366920"%string
  ∧ uuid4_int 5233100606242806050955395731361295 = 5233100606545046729231089879813647%N.
Proof. repeat split; vm_compute; reflexivity. Qed.

Lemma of_uint_acc_bound (d : Decimal.uint) (acc : positive) :
  (N.pos (Pos.of_uint_acc d acc)
   < (N.pos acc + 1) * 10 ^ N.of_nat (Decimal.nb_digits d))%N.
Proof.
  revert acc. induction d; intros acc; cbn [Pos.of_uint_acc Decimal.nb_digits];
    [rewrite N.pow_0_r; lia|..];
    rewrite Nat2N.inj_succ, N.pow_succ_r';
    match goal with |- context [Pos.of_uint_acc _ ?a] => specialize (IHd a) end;
    assert (0 < 10 ^ N.of_nat (Decimal.nb_digits d))%N
      by (apply N.neq_0_lt_0, N.pow_nonzero; lia);
    nia.
Qed.

(** A number is below the power of ten of its number of digits. *)
Lemma of_uint_bound (d : Decimal.uint) :
  (Pos.of_uint d < 10 ^ N.of_nat (Decimal.nb_digits d))%N.
Proof.
  induction d; cbn [Pos.of_uint Decimal.nb_digits];
    [rewrite N.pow_0_r; lia|..];
    rewrite Nat2N.inj_succ, N.pow_succ_r';
    assert (0 < 10 ^ N.of_nat (Decimal.nb_digits d))%N
      by (apply N.neq_0_lt_0, N.pow_nonzero; lia);
    [lia|..];
    match goal with |- context [Pos.of_uint_acc _ ?a] =>
      pose proof (of_uint_acc_bound d a)
    end;
    nia.
Qed.

Lemma string_of_uint_length (d : Decimal.uint) :
  String.length (NilEmpty.string_of_uint d) = Decimal.nb_digits d.
Proof. induction d; simpl; congruence. Qed.

Lemma string_of_uint_digits (d : Decimal.uint) :
  all_digits (NilEmpty.string_of_uint d) = true.
Proof. induction d; simpl; done. Qed.

Lemma str_of_int_length (n : N) (k : nat) :
  (10 ^ N.of_nat k ≤ n)%N → (k < String.length (str_of_int n))%nat.
Proof.
  intros Hn. unfold str_of_int. rewrite string_of_uint_length.
  pose proof (of_uint_bound (N.to_uint n)) as Hb.
  change (Pos.of_uint (N.to_uint n)) with (N.of_uint (N.to_uint n)) in Hb.
  rewrite DecimalN.Unsigned.of_to in Hb.
  destruct (Nat.lt_ge_cases k (Decimal.nb_digits (N.to_uint n))) as [|Hle]; [done|].
  assert (10 ^ N.of_nat (Decimal.nb_digits (N.to_uint n)) ≤ 10 ^ N.of_nat k)%N
    by (apply N.pow_le_mono_r; lia).
  lia.
Qed.

(** The version bits make every UUID integer at least [2^78]. *)
Lemma uuid4_int_lower (r : N) : (2 ^ 78 ≤ uuid4_int r)%N.
Proof.
  assert (Hb : N.testbit (uuid4_int r) 78 = true).
  { unfold uuid4_int. rewrite N.lor_spec.
    replace (N.testbit (N.shiftl 4 76) 78) with true by reflexivity.
    apply orb_true_r. }
  assert (uuid4_int r ≠ 0)%N by (intros E; rewrite E in Hb; discriminate).
  apply N.log2_le_pow2; [lia|].
  destruct (N.le_gt_cases 78 (N.log2 (uuid4_int r))) as [|Hlt]; [done|].
  rewrite (N.bits_above_log2 _ _ Hlt) in Hb. discriminate.
Qed.

Lemma str_take_exact (n : nat) (s : string) :
  (n ≤ String.length s)%nat → String.length (str_take n s) = n.
Proof.
  revert s. induction n as [|n IH]; intros [|c s] H; simpl in *; try lia.
  rewrite IH; lia.
Qed.

Lemma str_take_digits (n : nat) (s : string) :
  all_digits s = true → all_digits (str_take n s) = true.
Proof.
  revert s. induction n as [|n IH]; intros [|c s] H; simpl in *; try done.
  apply andb_prop in H as [-> H]. by apply IH.
Qed.

Lemma ascii_upper_digit (c : ascii) : is_digit c = true → ascii_upper c = c.
Proof.
  unfold is_digit, ascii_upper. intros [H1 H2]%andb_prop.
  apply Nat.leb_le in H1, H2.
  rewrite (proj2 (Nat.leb_gt 97 _)); [done|lia].
Qed.

Lemma str_upper_digits (s : string) : all_digits s = true → str_upper s = s.
Proof.
  induction s as [|c s IH]; [done|]. simpl. intros [Hc H]%andb_prop.
  by rewrite ascii_upper_digit, IH.
Qed.

Lemma string_app_length (p x : string) :
  String.length (p +:+ x) = (String.length p + String.length x)%nat.
Proof. induction p as [|c p IH]; simpl; [done | by rewrite IH]. Qed.

(** ** The generated identifier is the one the specification describes *)

Lemma testbit_shiftl_ones (k n i : N) :
  N.testbit (N.shiftl (N.ones k) n) i = (n <=? i)%N && (i <? n + k)%N.
Proof.
  destruct (N.leb_spec n i) as [Hle|Hlt]; simpl.
  - rewrite N.shiftl_spec_high' by done.
    destruct (N.ltb_spec i (n + k)) as [H|H].
    + apply N.ones_spec_low. lia.
    + apply N.ones_spec_high. lia.
  - by apply N.shiftl_spec_low.
Qed.

Lemma uuid4_int_bits (r : N) : is_uuid4_of r (uuid4_int (r mod 2 ^ 128)).
Proof.
  intros i. unfold uuid4_int.
  change (N.shiftl 49152 48) with (N.shiftl (N.ones 2) 62).
  change (N.shiftl 32768 48) with (N.shiftl (N.ones 1) 63).
  change (N.shiftl 61440 64) with (N.shiftl (N.ones 4) 76).
  change (N.shiftl 4 76) with (N.shiftl (N.ones 1) 78).
  rewrite N.lor_spec, N.ldiff_spec, N.lor_spec, N.ldiff_spec, !testbit_shiftl_ones.
  rewrite N.Div0.mod_mod.
  assert (Hr : N.testbit (r mod 2 ^ 128) i = if (128 <=? i)%N then false else N.testbit r i).
  { destruct (N.leb_spec 128 i).
    - by apply N.mod_pow2_bits_high.
    - by apply N.mod_pow2_bits_low. }
  rewrite Hr.
  destruct (N.leb_spec 128 i), (N.eqb_spec i 78), (N.leb_spec 76 i), (N.leb_spec i 79),
    (N.eqb_spec i 63), (N.eqb_spec i 62), (N.leb_spec 62 i), (N.leb_spec 63 i),
    (N.leb_spec 78 i), (N.ltb_spec i (62 + 2)), (N.ltb_spec i (63 + 1)),
    (N.ltb_spec i (76 + 4)), (N.ltb_spec i (78 + 1));
    simpl; try lia; try reflexivity; by destruct (N.testbit r i).
Qed.

Lemma to_uint_leading_digit (n : N) :
  n ≠ 0%N → ∃ c rest, str_of_int n = String c rest ∧ c ≠ "0"%char.
Proof.
  intros Hn. unfold str_of_int.
  pose proof (DecimalN.Unsigned.to_of (N.to_uint n)) as Hnorm.
  rewrite DecimalN.Unsigned.of_to in Hnorm.
  pose proof (DecimalN.Unsigned.of_to n) as Hof.
  destruct (N.to_uint n) as [|l|l|l|l|l|l|l|l|l|l] eqn:E; simpl;
    try (eexists _, _; split; [reflexivity|discriminate]).
  - by subst n.
  - exfalso. rewrite DecimalFacts.unorm_D0 in Hnorm.
    destruct l as [|l'|l'|l'|l'|l'|l'|l'|l'|l'|l'] eqn:El;
      [by subst n|..];
      (pose proof (DecimalFacts.nb_digits_unorm l) as Hd; rewrite El in Hd;
       rewrite <- Hnorm in Hd; specialize (Hd ltac:(discriminate)); simpl in Hd; lia).
Qed.

Lemma str_of_int_is_decimal (n : N) : n ≠ 0%N → is_decimal_of (str_of_int n) n.
Proof.
  intros Hn. split; [apply string_of_uint_digits|]. split; [by apply to_uint_leading_digit|].
  exists (N.to_uint n). split; [apply NilEmpty.usu|apply DecimalN.Unsigned.of_to].
Qed.

Lemma str_take_prefix (n : nat) (s : string) : ∃ rest, s = (str_take n s +:+ rest)%string.
Proof.
  revert s. induction n as [|n IH]; intros s; [by exists s|].
  destruct s as [|c s]; [by exists ""%string|].
  destruct (IH s) as [rest Hrest]. exists rest.
  change (String c s = String c (str_take n s +:+ rest)%string). by f_equal.
Qed.

(** The identifier that the model generates is the one described: prefix,
    then the [n] leading digits of the decimal representation of the
    version-4 UUID made of the random bits. *)
Lemma generate_identifier_spec (prefix : string) (n : nat) (r : N) :
  (n ≤ 24)%nat →
  is_identifier_of prefix n r (generate_identifier prefix n (r mod 2 ^ 128)%N).
Proof.
  intros Hn.
  pose proof (uuid4_int_lower (r mod 2 ^ 128)) as Hlow.
  destruct (str_take_prefix n (str_of_int (uuid4_int (r mod 2 ^ 128)))) as [rest Hrest].
  exists (uuid4_int (r mod 2 ^ 128)), (str_of_int (uuid4_int (r mod 2 ^ 128))),
    (str_take n (str_of_int (uuid4_int (r mod 2 ^ 128)))), rest.
  split; [apply uuid4_int_bits|].
  split; [apply str_of_int_is_decimal; lia|].
  split; [done|].
  split.
  - apply str_take_exact.
    assert (23 < String.length (str_of_int (uuid4_int (r mod 2 ^ 128))))%nat; [|lia].
    apply str_of_int_length. etrans; [|done]. by vm_compute.
  - unfold generate_identifier. rewrite str_upper_digits; [done|].
    apply str_take_digits, string_of_uint_digits.
Qed.


Lemma str_take_app (a b : string) : str_take (String.length a) (a +:+ b) = a.
Proof.
  induction a as [|c a IH]; [by destruct b|].
  change (String c (str_take (String.length a) (a +:+ b)) = String c a). by f_equal.
Qed.

Lemma is_decimal_of_unique (s : string) (n : N) : is_decimal_of s n → s = str_of_int n.
Proof.
  intros (_ & (c & rest & Hs & Hc) & d & Hd & Hn).
  apply NilEmpty.sus in Hd. unfold str_of_int.
  rewrite <- Hn, DecimalN.Unsigned.to_of.
  rewrite <- Hd in *.
  destruct d; simpl in *; try done.
  injection Hs as Hc' _. by subst c.
Qed.

(** The description determines the identifier: it is the generated one. *)
Lemma is_identifier_of_unique (prefix : string) (n : nat) (r : N) (identifier : string) :
  is_identifier_of prefix n r identifier →
  identifier = generate_identifier prefix n (r mod 2 ^ 128)%N.
Proof.
  intros (u & decimal & digits & rest & Hu & Hdec & Happ & Hlen & ->).
  assert (u = uuid4_int (r mod 2 ^ 128)) as ->.
  { apply N.bits_inj. intros i. by rewrite Hu, (uuid4_int_bits r i). }
  apply is_decimal_of_unique in Hdec. subst decimal.
  unfold generate_identifier. rewrite Happ, <- Hlen, str_take_app.
  rewrite str_upper_digits; [done|].
  pose proof (string_of_uint_digits (N.to_uint (uuid4_int (r mod 2 ^ 128)))) as Hall.
  fold (str_of_int (uuid4_int (r mod 2 ^ 128))) in Hall. rewrite Happ in Hall.
  clear -Hall. induction digits as [|c digits IH]; [done|].
  simpl in Hall. apply andb_prop in Hall as [Hc Hall]. simpl. rewrite Hc. by apply IH.
Qed.
(** ** The [save] methods of the models *)

Lemma Shipment_save_inv (s : Shipment.t) (w : World) :
  match Shipment_save s w with
  | (inr s', w') =>
      Shipment.tracking_number s' =
        (if bool_decide (Shipment.tracking_number s = ""%string)
         then generate_identifier "SH" 10 (urandom w (draws w) mod 2 ^ 128)%N
         else Shipment.tracking_number s)
      ∧ Shipment.status s' = Shipment.status s
      ∧ s' ∈ shipments w'
      ∧ shipment_histories w' = shipment_histories w
      ∧ draws w' = (if bool_decide (Shipment.tracking_number s = ""%string)
                    then S (draws w) else draws w)
  | (inl e, w') =>
      e = IntegrityError ∧ shipments w' = shipments w
      ∧ shipment_histories w' = shipment_histories w
  end.
Proof.
  unfold Shipment_save, str_truthy, bind.
  case_bool_decide as Hn; simpl.
  - match goal with |- context [Shipment_super_save ?x ?y] =>
      pose proof (Shipment_super_save_inv x y) as H;
      destruct (Shipment_super_save x y) as [[e|s'] w']
    end; simpl in *.
    + by destruct H as [-> ->].
    + destruct H as (H1 & H2 & H3 & H4 & H5 & H6). by repeat split.
  - match goal with |- context [Shipment_super_save ?x ?y] =>
      pose proof (Shipment_super_save_inv x y) as H;
      destruct (Shipment_super_save x y) as [[e|s'] w']
    end; simpl in *.
    + by destruct H as [-> ->].
    + destruct H as (H1 & H2 & H3 & H4 & H5 & H6). by repeat split.
Qed.

(** A completed save returns the object as given, with the number filled
    in when it was empty, the total recomputed, and the key and
    [created_at] set on insertion; its row is in the table. *)
Lemma Consignment_save_inv (c : Consignment.t) (w : World) :
  match Consignment_save c w with
  | (inr c', w') =>
      c' = Consignment_with_created_at (Consignment.created_at c')
             (Consignment_with_pk (Consignment.pk c')
                (Consignment_with_total_charges
                   (Consignment.freight_charges c + Consignment.handling_charges c
                    + Consignment.insurance_charges c + Consignment.customs_charges c
                    + Consignment.other_charges c)%Qc
                   (Consignment_with_consignment_number
                      (if bool_decide (Consignment.consignment_number c = ""%string)
                       then generate_identifier "CN" 12 (urandom w (draws w) mod 2 ^ 128)%N
                       else Consignment.consignment_number c) c)))
      ∧ is_Some (Consignment.pk c')
      ∧ Consignment_db_row c' ∈ consignments w'
      ∧ consignment_histories w' = consignment_histories w
      ∧ shipments w' = shipments w ∧ shipment_histories w' = shipment_histories w
      ∧ draws w' = (if bool_decide (Consignment.consignment_number c = ""%string)
                    then S (draws w) else draws w)
  | (inl e, w') =>
      e = IntegrityError ∧ consignments w' = consignments w
      ∧ consignment_histories w' = consignment_histories w
  end.
Proof.
  unfold Consignment_save, str_truthy, bind.
  case_bool_decide as Hn; simpl.
  - match goal with |- context [Consignment_super_save ?x ?y] =>
      pose proof (Consignment_super_save_inv x y) as H;
      destruct (Consignment_super_save x y) as [[e|c'] w']
    end; simpl in *.
    + by destruct H as [-> ->].
    + destruct H as (H1 & H2 & H3 & H4 & H5 & H6 & H7 & _). by repeat split.
  - match goal with |- context [Consignment_super_save ?x ?y] =>
      pose proof (Consignment_super_save_inv x y) as H;
      destruct (Consignment_super_save x y) as [[e|c'] w']
    end; simpl in *.
    + by destruct H as [-> ->].
    + destruct H as (H1 & H2 & H3 & H4 & H5 & H6 & H7 & _). by repeat split.
Qed.

Lemma Payment_save_inv (p : Payment.t) (w : World) :
  match Payment_save p w with
  | (inr p', w') =>
      Payment.payment_id p' =
        (if bool_decide (Payment.payment_id p = ""%string)
         then generate_identifier "PAY" 12 (urandom w (draws w) mod 2 ^ 128)%N
         else Payment.payment_id p)
      ∧ p' ∈ payments w'
      ∧ draws w' = (if bool_decide (Payment.payment_id p = ""%string)
                    then S (draws w) else draws w)
  | (inl e, w') => e = IntegrityError ∧ payments w' = payments w
  end.
Proof.
  unfold Payment_save, str_truthy, bind.
  case_bool_decide as Hn; simpl.
  - match goal with |- context [Payment_super_save ?x ?y] =>
      pose proof (Payment_super_save_inv x y) as H;
      destruct (Payment_super_save x y) as [[e|p'] w']
    end; simpl in *.
    + by destruct H as [-> ->].
    + destruct H as (H1 & H2 & H3 & H4). by repeat split.
  - match goal with |- context [Payment_super_save ?x ?y] =>
      pose proof (Payment_super_save_inv x y) as H;
      destruct (Payment_super_save x y) as [[e|p'] w']
    end; simpl in *.
    + by destruct H as [-> ->].
    + destruct H as (H1 & H2 & H3 & H4). by repeat split.
Qed.

Lemma Consignment_save_forgets_total (c : Consignment.t) (w : World) (before : Qc) :
  Consignment_save (Consignment_with_total_charges before c) w = Consignment_save c w.
Proof.
  unfold Consignment_save, bind. simpl.
  destruct (str_truthy (Consignment.consignment_number c)); reflexivity.
Qed.

(** Saving a stored consignment again, whatever was assigned to its other
    fields, completes. *)
Lemma Consignment_save_update (c0 c : Consignment.t) (w : World) :
  consignments_wf (consignments w) → c0 ∈ consignments w →
  Consignment.pk c = Consignment.pk c0 →
  Consignment.consignment_number c = Consignment.consignment_number c0 →
  let c' := Consignment_with_total_charges
              (Consignment.freight_charges c + Consignment.handling_charges c
               + Consignment.insurance_charges c + Consignment.customs_charges c
               + Consignment.other_charges c)%Qc c in
  Consignment_save c w =
    (inr c', with_consignments
               ((λ r, if bool_decide (Consignment.pk r = Consignment.pk c)
                      then Consignment_db_row c' else r)
                  <$> consignments w) w).
Proof.
  intros Hwf Hin Hk Hn c'. unfold Consignment_save, str_truthy, bind.
  pose proof Hwf as (Hpk & Hnd & Hnn & Hne).
  rewrite Forall_forall in Hne.
  rewrite bool_decide_eq_false_2 by (rewrite Hn; by apply Hne). simpl.
  fold c'. by apply (Consignment_super_save_update c0 c' w).
Qed.

Lemma Shipment_save_update (s0 s : Shipment.t) (w : World) :
  shipments_wf (shipments w) → s0 ∈ shipments w →
  Shipment.pk s = Shipment.pk s0 →
  Shipment.tracking_number s = Shipment.tracking_number s0 →
  Shipment_save s w =
    (inr s, with_shipments
              ((λ r, if bool_decide (Shipment.pk r = Shipment.pk s) then s else r)
                 <$> shipments w) w).
Proof.
  intros Hwf Hin Hk Hn. unfold Shipment_save, str_truthy, bind.
  pose proof Hwf as (Hpk & Hnd & Hnn & Hne).
  rewrite Forall_forall in Hne.
  rewrite bool_decide_eq_false_2 by (rewrite Hn; by apply Hne). simpl.
  by rewrite (Shipment_super_save_update s0).
Qed.

Lemma Payment_save_update (p0 p : Payment.t) (w : World) :
  payments_wf (payments w) → p0 ∈ payments w →
  Payment.pk p = Payment.pk p0 →
  Payment.payment_id p = Payment.payment_id p0 →
  Payment_save p w =
    (inr p, with_payments
              ((λ r, if bool_decide (Payment.pk r = Payment.pk p) then p else r)
                 <$> payments w) w).
Proof.
  intros (Hpk & Hnd & Hnt & Hne) Hin Hk Ht.
  unfold Payment_save, str_truthy, bind.
  rewrite Forall_forall in Hne, Hpk.
  rewrite bool_decide_eq_false_2 by (rewrite Ht; by apply Hne). simpl.
  unfold Payment_super_save.
  rewrite andb_true_intro; last first.
  { split; apply bool_decide_eq_true_2.
    - rewrite Hk. by apply Hpk.
    - rewrite Hk. by apply list_elem_of_fmap_2. }
  rewrite bool_decide_eq_false_2; [done|].
  rewrite Exists_exists. intros (r & Hr & Htr & Hneq). apply Hneq.
  rewrite Hk. f_equal.
  apply (NoDup_fmap_inj_on Payment.payment_id (payments w)); try done.
  congruence.
Qed.

(** The first save of a new entity, when the number drawn is free: an
    INSERT under a fresh key, with one random value drawn. *)
Lemma Shipment_save_new (s : Shipment.t) (w : World) :
  Shipment.pk s = None → Shipment.tracking_number s = ""%string →
  generate_identifier "SH" 10 (urandom w (draws w) mod 2 ^ 128)%N
    ∉ Shipment.tracking_number <$> shipments w →
  ∃ s1 w1, Shipment_save s w = (inr s1, w1)
    ∧ s1 = Shipment_with_created_at (now w)
             (Shipment_with_pk (Some (fresh_pk (Shipment.pk <$> shipments w)))
                (Shipment_with_tracking_number
                   (generate_identifier "SH" 10 (urandom w (draws w) mod 2 ^ 128)%N) s))
    ∧ shipments w1 = s1 :: shipments w
    ∧ draws w1 = S (draws w).
Proof.
  intros Hpk Htn Hfree.
  unfold Shipment_save, str_truthy, bind. rewrite Htn. simpl.
  unfold bind. simpl. unfold Shipment_super_save. simpl. rewrite Hpk. simpl.
  rewrite bool_decide_eq_false_2 by done. simpl.
  by eexists _, _.
Qed.

Lemma Consignment_save_new (c : Consignment.t) (w : World) :
  Consignment.pk c = None → Consignment.consignment_number c = ""%string →
  generate_identifier "CN" 12 (urandom w (draws w) mod 2 ^ 128)%N
    ∉ Consignment.consignment_number <$> consignments w →
  ∃ c1 w1, Consignment_save c w = (inr c1, w1)
    ∧ c1 = Consignment_with_created_at (now w)
             (Consignment_with_pk (Some (fresh_pk (Consignment.pk <$> consignments w)))
                (Consignment_with_total_charges
                   (Consignment.freight_charges c + Consignment.handling_charges c
                    + Consignment.insurance_charges c + Consignment.customs_charges c
                    + Consignment.other_charges c)%Qc
                   (Consignment_with_consignment_number
                      (generate_identifier "CN" 12 (urandom w (draws w) mod 2 ^ 128)%N) c)))
    ∧ consignments w1 = Consignment_db_row c1 :: consignments w
    ∧ draws w1 = S (draws w).
Proof.
  intros Hpk Hcn Hfree.
  unfold Consignment_save, str_truthy, bind. rewrite Hcn. simpl.
  unfold bind. simpl. unfold Consignment_super_save. simpl. rewrite Hpk. simpl.
  rewrite bool_decide_eq_false_2 by done. simpl.
  by eexists _, _.
Qed.

Lemma Payment_save_new (p : Payment.t) (w : World) :
  Payment.pk p = None → Payment.payment_id p = ""%string →
  generate_identifier "PAY" 12 (urandom w (draws w) mod 2 ^ 128)%N
    ∉ Payment.payment_id <$> payments w →
  ∃ p1 w1, Payment_save p w = (inr p1, w1)
    ∧ p1 = Payment_with_created_at (now w)
             (Payment_with_pk (Some (fresh_pk (Payment.pk <$> payments w)))
                (Payment_with_payment_id
                   (generate_identifier "PAY" 12 (urandom w (draws w) mod 2 ^ 128)%N) p))
    ∧ payments w1 = p1 :: payments w
    ∧ draws w1 = S (draws w).
Proof.
  intros Hpk Hid Hfree.
  unfold Payment_save, str_truthy, bind. rewrite Hid. simpl.
  unfold bind. simpl. unfold Payment_super_save. simpl. rewrite Hpk. simpl.
  rewrite bool_decide_eq_false_2 by done. simpl.
  by eexists _, _.
Qed.

(** C3, in the form that holds. A save of a consignment overwrites
    [total_charges] with the sum of the five charge fields, whatever it
    held before (the value held before does not influence the outcome):
    the object that a completed save leaves has the five charges and every
    other column it was given, and the sum as its total.  The row that the
    save stores is this object as the decimal columns read back, each at
    two decimal places.  For charges that the columns hold (two places,
    ten digits) the row is the object itself, so the stored total is the
    sum of the stored charges; it can be read back when the sum also fits
    ten digits, and reading it raises [InvalidOperation] when it does not.
    A save completes for a stored consignment and for a new one whose
    drawn number is free; a save that the database refuses (duplicate
    number) writes nothing. *)
Theorem C3_total_charges_after_save (c : Consignment.t) (w : World) (before : Qc) :
  let total :=
    (Consignment.freight_charges c + Consignment.handling_charges c
     + Consignment.insurance_charges c + Consignment.customs_charges c
     + Consignment.other_charges c)%Qc in
  Consignment_save (Consignment_with_total_charges before c) w = Consignment_save c w
  ∧ match Consignment_save c w with
    | (inr c', w') =>
        Consignment.freight_charges c' = Consignment.freight_charges c
        ∧ Consignment.handling_charges c' = Consignment.handling_charges c
        ∧ Consignment.insurance_charges c' = Consignment.insurance_charges c
        ∧ Consignment.customs_charges c' = Consignment.customs_charges c
        ∧ Consignment.other_charges c' = Consignment.other_charges c
        ∧ Consignment.total_charges c' = total
        ∧ Consignment.status c' = Consignment.status c
        ∧ Consignment.user c' = Consignment.user c
        ∧ Consignment.approved_by c' = Consignment.approved_by c
        ∧ Consignment.approved_at c' = Consignment.approved_at c
        ∧ Consignment.consignment_number c'
          = (if bool_decide (Consignment.consignment_number c = ""%string)
             then generate_identifier "CN" 12 (urandom w (draws w) mod 2 ^ 128)%N
             else Consignment.consignment_number c)
        ∧ is_Some (Consignment.pk c')
        ∧ Consignment_db_row c' ∈ consignments w'
        ∧ Consignment.total_charges (Consignment_db_row c') = quantize2 total
        ∧ consignment_histories w' = consignment_histories w
        ∧ (column_value (Consignment.freight_charges c) →
           column_value (Consignment.handling_charges c) →
           column_value (Consignment.insurance_charges c) →
           column_value (Consignment.customs_charges c) →
           column_value (Consignment.other_charges c) →
           Consignment_db_row c' = c'
           ∧ c' ∈ consignments w'
           ∧ Consignment_from_db (Consignment_db_row c')
             = if fits 10 total then inr c' else inl InvalidOperation)
    | (inl e, w') =>
        e = IntegrityError ∧ consignments w' = consignments w
        ∧ consignment_histories w' = consignment_histories w
    end
  ∧ (∀ c0, consignments_wf (consignments w) → c0 ∈ consignments w →
           Consignment.pk c = Consignment.pk c0 →
           Consignment.consignment_number c = Consignment.consignment_number c0 →
           ∃ w', Consignment_save c w = (inr (Consignment_with_total_charges total c), w'))
  ∧ (Consignment.pk c = None → Consignment.consignment_number c = ""%string →
     generate_identifier "CN" 12 (urandom w (draws w) mod 2 ^ 128)%N
       ∉ Consignment.consignment_number <$> consignments w →
     ∃ c' w', Consignment_save c w = (inr c', w')).
Proof.
  intros total. split; [apply Consignment_save_forgets_total|]. split; [|split].
  - pose proof (Consignment_save_inv c w) as H.
    destruct (Consignment_save c w) as [[e|c'] w']; [done|].
    destruct H as (Hc' & Hpk & Hin & Hh & _). fold total in Hc'.
    assert (Hf : Consignment.freight_charges c' = Consignment.freight_charges c)
      by (by rewrite Hc').
    assert (Hha : Consignment.handling_charges c' = Consignment.handling_charges c)
      by (by rewrite Hc').
    assert (Hi : Consignment.insurance_charges c' = Consignment.insurance_charges c)
      by (by rewrite Hc').
    assert (Hcu : Consignment.customs_charges c' = Consignment.customs_charges c)
      by (by rewrite Hc').
    assert (Ho : Consignment.other_charges c' = Consignment.other_charges c)
      by (by rewrite Hc').
    assert (Ht : Consignment.total_charges c' = total) by (by rewrite Hc').
    split; [done|]. split; [done|]. split; [done|]. split; [done|]. split; [done|].
    split; [done|]. split; [by rewrite Hc'|]. split; [by rewrite Hc'|].
    split; [by rewrite Hc'|]. split; [by rewrite Hc'|]. split; [by rewrite Hc'|].
    split; [done|]. split; [done|]. split; [simpl; by rewrite Ht|]. split; [done|].
    intros Cf Ch Ci Cc Co.
    assert (Htot : two_places (Consignment.total_charges c')).
    { rewrite Ht. unfold total.
      repeat apply two_places_plus; by (apply Cf || apply Ch || apply Ci || apply Cc
                                        || apply Co). }
    assert (Hrow : Consignment_db_row c' = c').
    { apply Consignment_db_row_two_places; try done;
        rewrite ?Hf, ?Hha, ?Hi, ?Hcu, ?Ho;
        by (apply Cf || apply Ch || apply Ci || apply Cc || apply Co). }
    split; [done|]. split; [by rewrite <- Hrow|].
    rewrite Hrow, <- Ht.
    apply Consignment_from_db_column_values; by rewrite ?Hf, ?Hha, ?Hi, ?Hcu, ?Ho.
  - intros c0 Hwf Hin Hk Hn. eexists. by apply (Consignment_save_update c0).
  - intros Hpk Hcn Hfree.
    destruct (Consignment_save_new c w Hpk Hcn Hfree) as (c1 & w1 & E & _).
    by exists c1, w1.
Qed.

(** C3 read on the stored row fails: with five charges of 0.004 the row
    reads back with a total of 0.02 and charges of 0.00. *)
Lemma C3_counterexample : ¬ stored_total_is_sum.
Proof.
  intros H.
  pose (c := Consignment.mk None "" (Some 1%nat) "draft"
               (Q2Qc (4 # 1000)) (Q2Qc (4 # 1000)) (Q2Qc (4 # 1000))
               (Q2Qc (4 # 1000)) (Q2Qc (4 # 1000)) 0%Qc 0 None None).
  epose proof (H c _ empty_world _ eq_refl _ (list_elem_of_here _ _) eq_refl) as E.
  vm_compute in E. discriminate E.
Qed.

(** C9. A save of an entity whose identifier is empty draws one random
    128-bit value and writes the identifier made from it: the fixed prefix
    followed by the leading decimal digits of the version-4 UUID built
    from those bits ([is_identifier_of], which determines the identifier).
    A save of an entity that has an identifier keeps it and draws nothing.
    A saved entity's identifier is never empty, and every later save of
    it, in any state of the world, leaves the identifier as it is and
    draws no random value.  The first save of a new entity completes and
    inserts its row when no stored row bears the drawn identifier; a save
    of a stored entity under its own identifier completes.  A save that
    the database refuses (duplicate identifier) writes nothing.  This
    holds for [Shipment.tracking_number] (prefix SH, 10 digits),
    [Consignment.consignment_number] (prefix CN, 12 digits) and
    [Payment.payment_id] (prefix PAY, 12 digits). *)
Theorem C9_identifier_generated_once :
  (∀ (prefix : string) (n : nat) (r : N) (identifier : string), (n ≤ 24)%nat →
     is_identifier_of prefix n r identifier
     ↔ identifier = generate_identifier prefix n (r mod 2 ^ 128)%N)
  ∧ (∀ (s : Shipment.t) (w : World),
     match Shipment_save s w with
     | (inr s1, w1) =>
         (if bool_decide (Shipment.tracking_number s = ""%string)
          then is_identifier_of "SH" 10 (urandom w (draws w)) (Shipment.tracking_number s1)
               ∧ draws w1 = S (draws w)
          else Shipment.tracking_number s1 = Shipment.tracking_number s ∧ draws w1 = draws w)
         ∧ Shipment.tracking_number s1 ≠ ""%string
         ∧ s1 ∈ shipments w1
         ∧ ∀ w', match Shipment_save s1 w' with
                 | (inr s2, w2) =>
                     Shipment.tracking_number s2 = Shipment.tracking_number s1
                     ∧ draws w2 = draws w'
                 | (inl e, w2) => e = IntegrityError ∧ shipments w2 = shipments w'
                 end
     | (inl e, w1) => e = IntegrityError ∧ shipments w1 = shipments w
     end)
  ∧ (∀ (s : Shipment.t) (w : World),
     Shipment.pk s = None → Shipment.tracking_number s = ""%string →
     (∀ identifier, is_identifier_of "SH" 10 (urandom w (draws w)) identifier →
                    identifier ∉ Shipment.tracking_number <$> shipments w) →
     ∃ s1 w1, Shipment_save s w = (inr s1, w1)
       ∧ is_identifier_of "SH" 10 (urandom w (draws w)) (Shipment.tracking_number s1)
       ∧ shipments w1 = s1 :: shipments w
       ∧ draws w1 = S (draws w))
  ∧ (∀ (s0 s : Shipment.t) (w : World),
     shipments_wf (shipments w) → s0 ∈ shipments w →
     Shipment.pk s = Shipment.pk s0 → Shipment.tracking_number s = Shipment.tracking_number s0 →
     ∃ s1 w1, Shipment_save s w = (inr s1, w1)
       ∧ Shipment.tracking_number s1 = Shipment.tracking_number s
       ∧ draws w1 = draws w)
  ∧ (∀ (c : Consignment.t) (w : World),
     match Consignment_save c w with
     | (inr c1, w1) =>
         (if bool_decide (Consignment.consignment_number c = ""%string)
          then is_identifier_of "CN" 12 (urandom w (draws w)) (Consignment.consignment_number c1)
               ∧ draws w1 = S (draws w)
          else Consignment.consignment_number c1 = Consignment.consignment_number c ∧ draws w1 = draws w)
         ∧ Consignment.consignment_number c1 ≠ ""%string
         ∧ Consignment_db_row c1 ∈ consignments w1
         ∧ ∀ w', match Consignment_save c1 w' with
                 | (inr c2, w2) =>
                     Consignment.consignment_number c2 = Consignment.consignment_number c1
                     ∧ draws w2 = draws w'
                 | (inl e, w2) => e = IntegrityError ∧ consignments w2 = consignments w'
                 end
     | (inl e, w1) => e = IntegrityError ∧ consignments w1 = consignments w
     end)
  ∧ (∀ (c : Consignment.t) (w : World),
     Consignment.pk c = None → Consignment.consignment_number c = ""%string →
     (∀ identifier, is_identifier_of "CN" 12 (urandom w (draws w)) identifier →
                    identifier ∉ Consignment.consignment_number <$> consignments w) →
     ∃ c1 w1, Consignment_save c w = (inr c1, w1)
       ∧ is_identifier_of "CN" 12 (urandom w (draws w)) (Consignment.consignment_number c1)
       ∧ consignments w1 = Consignment_db_row c1 :: consignments w
       ∧ draws w1 = S (draws w))
  ∧ (∀ (c0 c : Consignment.t) (w : World),
     consignments_wf (consignments w) → c0 ∈ consignments w →
     Consignment.pk c = Consignment.pk c0 → Consignment.consignment_number c = Consignment.consignment_number c0 →
     ∃ c1 w1, Consignment_save c w = (inr c1, w1)
       ∧ Consignment.consignment_number c1 = Consignment.consignment_number c
       ∧ draws w1 = draws w)
  ∧ (∀ (p : Payment.t) (w : World),
     match Payment_save p w with
     | (inr p1, w1) =>
         (if bool_decide (Payment.payment_id p = ""%string)
          then is_identifier_of "PAY" 12 (urandom w (draws w)) (Payment.payment_id p1)
               ∧ draws w1 = S (draws w)
          else Payment.payment_id p1 = Payment.payment_id p ∧ draws w1 = draws w)
         ∧ Payment.payment_id p1 ≠ ""%string
         ∧ p1 ∈ payments w1
         ∧ ∀ w', match Payment_save p1 w' with
                 | (inr p2, w2) =>
                     Payment.payment_id p2 = Payment.payment_id p1
                     ∧ draws w2 = draws w'
                 | (inl e, w2) => e = IntegrityError ∧ payments w2 = payments w'
                 end
     | (inl e, w1) => e = IntegrityError ∧ payments w1 = payments w
     end)
  ∧ (∀ (p : Payment.t) (w : World),
     Payment.pk p = None → Payment.payment_id p = ""%string →
     (∀ identifier, is_identifier_of "PAY" 12 (urandom w (draws w)) identifier →
                    identifier ∉ Payment.payment_id <$> payments w) →
     ∃ p1 w1, Payment_save p w = (inr p1, w1)
       ∧ is_identifier_of "PAY" 12 (urandom w (draws w)) (Payment.payment_id p1)
       ∧ payments w1 = p1 :: payments w
       ∧ draws w1 = S (draws w))
  ∧ (∀ (p0 p : Payment.t) (w : World),
     payments_wf (payments w) → p0 ∈ payments w →
     Payment.pk p = Payment.pk p0 → Payment.payment_id p = Payment.payment_id p0 →
     ∃ p1 w1, Payment_save p w = (inr p1, w1)
       ∧ Payment.payment_id p1 = Payment.payment_id p
       ∧ draws w1 = draws w).
Proof.
  split.
  { intros prefix n r identifier Hn. split.
    - apply is_identifier_of_unique.
    - intros ->. by apply generate_identifier_spec. }
  split; [|split; [|split; [|split; [|split; [|split; [|split; [|split]]]]]]].
  - intros s w. pose proof (Shipment_save_inv s w) as H.
    destruct (Shipment_save s w) as [[e|s1] w1]; [by destruct H as (-> & -> & _)|].
    destruct H as (Htn & _ & Hin & _ & Hd).
    assert (Hne : Shipment.tracking_number s1 ≠ ""%string)
      by (rewrite Htn; by apply generated_or_kept_nonempty).
    split.
    { case_bool_decide; [|done]. split; [|done].
      rewrite Htn. apply generate_identifier_spec. lia. }
    repeat split; try done. intros w'.
    pose proof (Shipment_save_inv s1 w') as H.
    destruct (Shipment_save s1 w') as [[e|s2] w2]; [by destruct H as (-> & -> & _)|].
    destruct H as (Htn2 & _ & _ & _ & Hd2).
    by rewrite bool_decide_eq_false_2 in Htn2, Hd2 by done.
  - intros s w Hpk Htn Hfree.
    destruct (Shipment_save_new s w Hpk Htn) as (s1 & w1 & E & Hs1 & Ht & Hd).
    { apply Hfree, generate_identifier_spec. lia. }
    exists s1, w1. repeat split; try done.
    rewrite Hs1. simpl. apply generate_identifier_spec. lia.
  - intros s0 s w Hwf Hin Hk Hn. eexists s, _.
    rewrite (Shipment_save_update s0) by done. done.
  - intros c w. pose proof (Consignment_save_inv c w) as H.
    destruct (Consignment_save c w) as [[e|c1] w1]; [by destruct H as (-> & -> & _)|].
    destruct H as (Hc1 & _ & Hin & _ & _ & _ & Hd).
    assert (Hcn : Consignment.consignment_number c1 =
                  (if bool_decide (Consignment.consignment_number c = ""%string)
                   then generate_identifier "CN" 12 (urandom w (draws w) mod 2 ^ 128)%N
                   else Consignment.consignment_number c)) by (by rewrite Hc1).
    assert (Hne : Consignment.consignment_number c1 ≠ ""%string)
      by (rewrite Hcn; by apply generated_or_kept_nonempty).
    split.
    { case_bool_decide; [|done]. split; [|done].
      rewrite Hcn. apply generate_identifier_spec. lia. }
    repeat split; try done. intros w'.
    pose proof (Consignment_save_inv c1 w') as H.
    destruct (Consignment_save c1 w') as [[e|c2] w2]; [by destruct H as (-> & -> & _)|].
    destruct H as (Hc2 & _ & _ & _ & _ & _ & Hd2).
    rewrite bool_decide_eq_false_2 in Hc2, Hd2 by done.
    split; [by rewrite Hc2|done].
  - intros c w Hpk Hcn Hfree.
    destruct (Consignment_save_new c w Hpk Hcn) as (c1 & w1 & E & Hc1 & Ht & Hd).
    { apply Hfree, generate_identifier_spec. lia. }
    exists c1, w1. repeat split; try done.
    rewrite Hc1. simpl. apply generate_identifier_spec. lia.
  - intros c0 c w Hwf Hin Hk Hn. eexists _, _.
    rewrite (Consignment_save_update c0) by done. done.
  - intros p w. pose proof (Payment_save_inv p w) as H.
    destruct (Payment_save p w) as [[e|p1] w1]; [by destruct H as (-> & ->)|].
    destruct H as (Hid & Hin & Hd).
    assert (Hne : Payment.payment_id p1 ≠ ""%string)
      by (rewrite Hid; by apply generated_or_kept_nonempty).
    split.
    { case_bool_decide; [|done]. split; [|done].
      rewrite Hid. apply generate_identifier_spec. lia. }
    repeat split; try done. intros w'.
    pose proof (Payment_save_inv p1 w') as H.
    destruct (Payment_save p1 w') as [[e|p2] w2]; [by destruct H as (-> & ->)|].
    destruct H as (Hid2 & _ & Hd2).
    by rewrite bool_decide_eq_false_2 in Hid2, Hd2 by done.
  - intros p w Hpk Hid Hfree.
    destruct (Payment_save_new p w Hpk Hid) as (p1 & w1 & E & Hp1 & Ht & Hd).
    { apply Hfree, generate_identifier_spec. lia. }
    exists p1, w1. repeat split; try done.
    rewrite Hp1. simpl. apply generate_identifier_spec. lia.
  - intros p0 p w Hwf Hin Hk Hn. eexists p, _.
    rewrite (Payment_save_update p0) by done. done.
Qed.

(** ** Status changes of shipments *)

Lemma get_shipment_or_404_found (s : Shipment.t) (w : World) :
  shipments_wf (shipments w) → s ∈ shipments w →
  get_shipment_or_404 (Shipment.tracking_number s) w = (inr s, w)
  ∧ first (Shipment_objects_filter (Some (Shipment.tracking_number s)) w) = Some s.
Proof.
  intros (_ & _ & Hnt & _) Hin. unfold get_shipment_or_404, Shipment_objects_filter.
  by rewrite (filter_unique Shipment.tracking_number).
Qed.

Lemma get_shipment_or_404_missing (tn : string) (w : World) :
  Shipment_objects_filter (Some tn) w = [] →
  get_shipment_or_404 tn w = (inl Http404, w).
Proof. intros H. unfold get_shipment_or_404. by rewrite H. Qed.

(** Setting the status of a stored shipment and saving it, then writing
    the history row: the two writes of every status handler. *)
Lemma save_then_log (s : Shipment.t) (st loc desc : string) (actor : option nat)
    (w : World) :
  shipments_wf (shipments w) → s ∈ shipments w →
  ∃ w1, Shipment_save (Shipment_with_status st s) w = (inr (Shipment_with_status st s), w1)
    ∧ shipment_histories w1 = shipment_histories w
    ∧ Shipment_with_status st s ∈ shipments w1
    ∧ (ShipmentHistory_objects_create (Shipment_with_status st s) st loc desc actor w1).2
      = after_status_change s st loc desc actor w.
Proof.
  intros Hwf Hin. eexists. split.
  - by apply (Shipment_save_update s).
  - simpl. split; [done|]. split; [|done].
    destruct Hwf as (_ & Hnd & _).
    by apply (replace_row_elem Shipment.pk (shipments w) s (Shipment_with_status st s)).
Qed.

Lemma after_status_change_wf (s : Shipment.t) (st loc desc : string) (actor : option nat)
    (w : World) :
  world_wf w → s ∈ shipments w →
  world_wf (after_status_change s st loc desc actor w)
  ∧ Shipment_with_status st s ∈ shipments (after_status_change s st loc desc actor w).
Proof.
  intros ((Hpk & Hnd & Hnt & Hne) & Hc & Hfk & Hfc) Hin.
  assert (Hpks : Shipment.pk <$> shipments (after_status_change s st loc desc actor w)
                 = Shipment.pk <$> shipments w).
  { by apply (replace_row_fmap Shipment.pk Shipment.pk (shipments w) s
                (Shipment_with_status st s)). }
  assert (Htns : Shipment.tracking_number
                   <$> shipments (after_status_change s st loc desc actor w)
                 = Shipment.tracking_number <$> shipments w).
  { by apply (replace_row_fmap Shipment.pk Shipment.tracking_number (shipments w) s
                (Shipment_with_status st s)). }
  split; [|by apply (replace_row_elem Shipment.pk (shipments w) s
                      (Shipment_with_status st s))].
  split; [|split; [done|split; [|done]]].
  - split; [|split; [by rewrite Hpks|split; [by rewrite Htns|]]].
    + apply (proj1 (Forall_fmap Shipment.pk is_Some _)). rewrite Hpks.
      by apply (proj2 (Forall_fmap Shipment.pk is_Some _)).
    + apply (proj1 (Forall_fmap Shipment.tracking_number (λ t, t ≠ ""%string) _)).
      rewrite Htns.
      by apply (proj2 (Forall_fmap Shipment.tracking_number (λ t, t ≠ ""%string) _)).
  - rewrite Hpks. simpl. constructor; [|done]. simpl.
    by apply list_elem_of_fmap_2.
Qed.

Lemma after_status_change_history (s : Shipment.t) (st loc desc : string)
    (actor : option nat) (w : World) (k : nat) :
  shipment_history_of k (after_status_change s st loc desc actor w)
  = if bool_decide (Shipment.pk s = Some k)
    then ShipmentHistory.mk
           (Some (fresh_pk (ShipmentHistory.pk <$> shipment_histories w)))
           (Shipment.pk s) st loc desc (now w) actor
         :: shipment_history_of k w
    else shipment_history_of k w.
Proof.
  unfold shipment_history_of. simpl.
  case_bool_decide as E.
  - by rewrite filter_cons_True.
  - by rewrite filter_cons_False.
Qed.

Section shipping.
Import shipping_views.

(** What [update_shipment_status] does to a stored shipment. *)
Lemma update_shipment_status_found (request : HttpRequest) (s : Shipment.t) (w : World) :
  shipments_wf (shipments w) → s ∈ shipments w →
  update_shipment_status request (Shipment.tracking_number s) w =
    match user request with
    | None => (inr RedirectToLogin, w)
    | Some u =>
        (inr (Redirect "shipment_detail" (Shipment.tracking_number s)),
         if is_status_change request s
         then after_status_change s (default ""%string (POST request !! "status"%string))
                (default ""%string (POST request !! "location"%string))
                (default ""%string (POST request !! "description"%string))
                (Some (User.pk u)) w
         else w)
    end.
Proof.
  intros Hwf Hin. unfold update_shipment_status, is_status_change.
  destruct (user request) as [u|]; [|done].
  unfold bind at 1. destruct (get_shipment_or_404_found s w Hwf Hin) as [-> _].
  rewrite (bool_decide_eq_true_2 (is_Some (Some u))) by done. simpl.
  case_bool_decide as Hm; simpl; [|done].
  destruct (POST request !! "status"%string) as [st|]; simpl; [|done].
  destruct (str_truthy st && negb (bool_decide (st = Shipment.status s))); [|done].
  unfold bind.
  destruct (save_then_log s st (default ""%string (POST request !! "location"%string))
              (default ""%string (POST request !! "description"%string))
              (Some (User.pk u)) w Hwf Hin) as (w1 & -> & _ & _ & <-).
  done.
Qed.

End shipping.

Lemma fresh_pk_fresh (pks : list (option nat)) : Some (fresh_pk pks) ∉ pks.
Proof.
  assert (H : ∀ k, Some k ∈ pks → k < fresh_pk pks).
  { unfold fresh_pk. induction pks as [|[a|] pks IH]; intros k Hk.
    - by apply elem_of_nil in Hk.
    - simpl. apply elem_of_cons in Hk as [[= ->]|Hk]; [lia|].
      specialize (IH k Hk). lia.
    - simpl. apply elem_of_cons in Hk as [[=]|Hk]. specialize (IH k Hk). lia. }
  intros Hin. specialize (H _ Hin). lia.
Qed.

Lemma example_world_wf : world_wf example_world.
Proof.
  repeat split; simpl; repeat constructor; try done; set_solver.
Qed.

Section shipping_history.
Import shipping_views.

Lemma exec_update_shipment_status (request : HttpRequest) (s : Shipment.t) (w : World) :
  shipments_wf (shipments w) → s ∈ shipments w →
  exec (update_shipment_status request (Shipment.tracking_number s)) w =
    if is_status_change request s
    then after_status_change s (default ""%string (POST request !! "status"%string))
           (default ""%string (POST request !! "location"%string))
           (default ""%string (POST request !! "description"%string))
           (User.pk <$> user request) w
    else w.
Proof.
  intros Hwf Hin. unfold exec. rewrite update_shipment_status_found by done.
  unfold is_status_change. by destruct (user request) as [u|].
Qed.

(** The history of a shipment grows by exactly the number of requests that
    change its status. *)
Lemma history_grows_with_changes (requests : list HttpRequest) (s : Shipment.t) (k : nat)
    (w : World) :
  world_wf w → s ∈ shipments w → Shipment.pk s = Some k →
  List.length (shipment_history_of k (run_updates requests (Shipment.tracking_number s) w))
  = (List.length (shipment_history_of k w)
     + count_status_changes requests (Shipment.tracking_number s) w)%nat.
Proof.
  revert s w. induction requests as [|r rest IH]; intros s w Hwf Hin Hk;
    cbn [run_updates count_status_changes]; [lia|].
  pose proof Hwf as (Hs & _).
  destruct (get_shipment_or_404_found s w Hs Hin) as [_ ->].
  rewrite exec_update_shipment_status by done.
  destruct (is_status_change r s).
  - set (st := default ""%string (POST r !! "status"%string)).
    set (loc := default ""%string (POST r !! "location"%string)).
    set (desc := default ""%string (POST r !! "description"%string)).
    destruct (after_status_change_wf s st loc desc (User.pk <$> user r) w Hwf Hin)
      as [Hwf' Hin'].
    specialize (IH (Shipment_with_status st s) _ Hwf' Hin' Hk). simpl in IH.
    rewrite IH, after_status_change_history, bool_decide_eq_true_2 by done.
    simpl. lia.
  - rewrite (IH s w) by done. lia.
Qed.

Section create.
Variable ShipmentForm : gmap string string → option Shipment.t.
Variable calculate_shipping_cost : Qc → string → string → string → Qc.

(** [create_shipment] with a valid form: the new shipment is stored under a
    fresh key together with one 'pending' history row, provided the
    generated tracking number is not taken. *)
Lemma create_shipment_history (request : HttpRequest) (u : User.t) (f : Shipment.t)
    (w : World) :
  world_wf w →
  user request = Some u → method request = "POST"%string →
  ShipmentForm (POST request) = Some f →
  Shipment.pk f = None → Shipment.tracking_number f = ""%string →
  generate_identifier "SH" 10 (urandom w (draws w) mod 2 ^ 128)%N
    ∉ Shipment.tracking_number <$> shipments w →
  ∃ s k w',
    create_shipment ShipmentForm calculate_shipping_cost request w
      = (inr (Redirect "shipment_detail" (Shipment.tracking_number s)), w')
    ∧ first (shipments w') = Some s
    ∧ Shipment.pk s = Some k
    ∧ Shipment.tracking_number s
      = generate_identifier "SH" 10 (urandom w (draws w) mod 2 ^ 128)%N
    ∧ Shipment.status s = Shipment.status f
    ∧ (ShipmentHistory.status <$> shipment_history_of k w') = ["pending"%string]
    ∧ world_wf w'.
Proof.
  intros Hwf Hu Hm Hf Hpk Htn Hfree.
  pose proof Hwf as ((Hpks & Hnd & Hnt & Hne) & Hc & Hfk & Hfc).
  unfold create_shipment. rewrite Hu, Hm, Hf. simpl.
  unfold bind, Shipment_save, str_truthy. simpl. rewrite Htn. simpl.
  unfold bind. simpl. unfold Shipment_super_save. simpl. rewrite Hpk. simpl.
  rewrite bool_decide_eq_false_2 by done. simpl.
  match goal with |- context [with_shipments (?s :: _)] => exists s end.
  eexists _, _. split; [reflexivity|]. simpl.
  split; [done|]. split; [done|]. split; [done|]. split; [done|]. split.
  - unfold shipment_history_of. simpl.
    rewrite filter_cons_True by done. simpl. f_equal.
    rewrite filter_nil_intro; [done|].
    intros h Hh Heq. rewrite Forall_forall in Hfk. specialize (Hfk h Hh).
    rewrite Heq in Hfk. by apply fresh_pk_fresh in Hfk.
  - split; [|split; [done|split; [|done]]]; simpl.
    + split; [|split; [|split]].
      * by constructor.
      * rewrite fmap_cons. constructor; [apply fresh_pk_fresh|done].
      * rewrite fmap_cons. by constructor.
      * constructor; [|done]. simpl. by apply string_app_nonempty.
    + constructor; [simpl; left|].
      eapply Forall_impl; [exact Hfk|]. intros h Hh. by right.
Qed.

End create.
End shipping_history.

(** ** Status changes through the webhook *)

Lemma consignment_save_then_log (c0 c : Consignment.t) (st loc desc : string)
    (actor : option nat) (w : World) :
  consignments_wf (consignments w) → c0 ∈ consignments w →
  Consignment.pk c = Consignment.pk c0 →
  Consignment.consignment_number c = Consignment.consignment_number c0 →
  let c' := Consignment_with_total_charges
              (Consignment.freight_charges c + Consignment.handling_charges c
               + Consignment.insurance_charges c + Consignment.customs_charges c
               + Consignment.other_charges c)%Qc c in
  ∃ w1, Consignment_save c w = (inr c', w1)
    ∧ consignment_histories w1 = consignment_histories w
    ∧ (ConsignmentHistory_objects_create c' st loc desc actor w1).2
      = after_consignment_change c st loc desc actor w
    ∧ Consignment_db_row c' ∈ consignments (after_consignment_change c st loc desc actor w).
Proof.
  intros Hwf Hin Hk Hn c'. eexists. split.
  - by apply (Consignment_save_update c0).
  - simpl. split; [done|]. split; [done|].
    by apply (replace_row_elem Consignment.pk (consignments w) c0 (Consignment_db_row c')).
Qed.

Lemma Shipment_save_status (s : Shipment.t) (st : string) (w : World) :
  shipments_wf (shipments w) → s ∈ shipments w →
  Shipment_save (Shipment_with_status st s) w
  = (inr (Shipment_with_status st s), after_status_saved s st w).
Proof. intros Hwf Hin. by rewrite (Shipment_save_update s). Qed.

Lemma Consignment_save_status (c : Consignment.t) (st : string) (w : World) :
  consignments_wf (consignments w) → c ∈ consignments w →
  ∃ c', Consignment_save (Consignment_with_status st c) w
        = (inr c', after_consignment_saved c st w)
        ∧ Consignment.pk c' = Consignment.pk c.
Proof.
  intros Hwf Hin. eexists. split; [|shelve].
  by rewrite (Consignment_save_update c). Unshelve. done.
Qed.

(** A request body whose values are all strings, as a JSON object. *)
Lemma json_get_str (data : gmap string string) (k : string) :
  mjoin ((Some <$> data : gmap string (option string)) !! k) = data !! k.
Proof. rewrite lookup_fmap. by destruct (data !! k). Qed.

Lemma json_get_default_str (data : gmap string string) (k : string) :
  default (Some ""%string) ((Some <$> data : gmap string (option string)) !! k)
  = Some (default ""%string (data !! k)).
Proof. rewrite lookup_fmap. by destruct (data !! k). Qed.

Section webhook.
Import tracking_views.

Lemma webhook_update_not_found (data : gmap string (option string)) (w : World) :
  Shipment_objects_filter (mjoin (data !! "tracking_number"%string)) w = [] →
  Consignment_objects_filter (mjoin (data !! "tracking_number"%string)) w = [] →
  webhook_update {| method := "POST"; body := Some data |} w
  = (inr (Json404 "Tracking number not found"), w).
Proof. intros Hs Hc. unfold webhook_update. simpl. by rewrite Hs, Hc. Qed.

Lemma webhook_update_shipment_logged (data : gmap string (option string))
    (s : Shipment.t) (st loc desc : string) (w : World) :
  shipments_wf (shipments w) → s ∈ shipments w →
  mjoin (data !! "tracking_number"%string) = Some (Shipment.tracking_number s) →
  mjoin (data !! "status"%string) = Some st →
  default (Some ""%string) (data !! "location"%string) = Some loc →
  default (Some ""%string) (data !! "description"%string) = Some desc →
  webhook_update {| method := "POST"; body := Some data |} w
  = (inr Json200, after_status_change s st loc desc None w).
Proof.
  intros Hwf Hin Htn Hst Hloc Hdesc. unfold webhook_update. simpl.
  rewrite Htn, Hst, Hloc, Hdesc.
  destruct (get_shipment_or_404_found s w Hwf Hin) as [_ ->].
  unfold bind. by rewrite (Shipment_save_status s st w Hwf Hin).
Qed.

Lemma webhook_update_shipment_null (data : gmap string (option string))
    (s : Shipment.t) (st : string) (w : World) :
  shipments_wf (shipments w) → s ∈ shipments w →
  mjoin (data !! "tracking_number"%string) = Some (Shipment.tracking_number s) →
  mjoin (data !! "status"%string) = Some st →
  default (Some ""%string) (data !! "location"%string) = None
  ∨ default (Some ""%string) (data !! "description"%string) = None →
  webhook_update {| method := "POST"; body := Some data |} w
  = (inr (Json400 (Some IntegrityError)), after_status_saved s st w).
Proof.
  intros Hwf Hin Htn Hst Hnull. unfold webhook_update. simpl.
  rewrite Htn, Hst.
  destruct (get_shipment_or_404_found s w Hwf Hin) as [_ ->].
  unfold bind. rewrite (Shipment_save_status s st w Hwf Hin).
  unfold ShipmentHistory_objects_create_nullable.
  destruct Hnull as [-> | ->]; [done|].
  by destruct (default (Some ""%string) (data !! "location"%string)).
Qed.

Lemma webhook_update_shipment_no_status (data : gmap string (option string))
    (s : Shipment.t) (w : World) :
  shipments_wf (shipments w) → s ∈ shipments w →
  mjoin (data !! "tracking_number"%string) = Some (Shipment.tracking_number s) →
  mjoin (data !! "status"%string) = None →
  webhook_update {| method := "POST"; body := Some data |} w
  = (inr (Json400 (Some IntegrityError)), w).
Proof.
  intros Hwf Hin Htn Hst. unfold webhook_update. simpl. rewrite Htn, Hst.
  by destruct (get_shipment_or_404_found s w Hwf Hin) as [_ ->].
Qed.

Lemma first_consignment_found (c : Consignment.t) (w : World) :
  consignments_wf (consignments w) → c ∈ consignments w →
  first (Consignment_objects_filter (Some (Consignment.consignment_number c)) w) = Some c.
Proof.
  intros Hwf Hin. unfold Consignment_objects_filter.
  pose proof Hwf as (_ & _ & Hnn & _).
  by rewrite (filter_unique Consignment.consignment_number).
Qed.

Lemma webhook_update_consignment_logged (data : gmap string (option string))
    (c : Consignment.t) (st loc desc : string) (w : World) :
  consignments_wf (consignments w) → c ∈ consignments w →
  Shipment_objects_filter (Some (Consignment.consignment_number c)) w = [] →
  mjoin (data !! "tracking_number"%string) = Some (Consignment.consignment_number c) →
  mjoin (data !! "status"%string) = Some st →
  default (Some ""%string) (data !! "location"%string) = Some loc →
  default (Some ""%string) (data !! "description"%string) = Some desc →
  webhook_update {| method := "POST"; body := Some data |} w
  = (inr Json200,
     after_consignment_change (Consignment_with_status st c) st loc desc None w).
Proof.
  intros Hwf Hin Hnone Htn Hst Hloc Hdesc. unfold webhook_update. simpl.
  rewrite Htn, Hst, Hloc, Hdesc, Hnone. simpl.
  unfold Consignment_objects_filter.
  pose proof Hwf as (_ & _ & Hnn & _).
  rewrite (filter_unique Consignment.consignment_number) by done. simpl.
  unfold bind.
  destruct (consignment_save_then_log c (Consignment_with_status st c) st loc desc None w
              Hwf Hin eq_refl eq_refl) as (w1 & -> & _ & <- & _).
  done.
Qed.

Lemma webhook_update_consignment_null (data : gmap string (option string))
    (c : Consignment.t) (st : string) (w : World) :
  consignments_wf (consignments w) → c ∈ consignments w →
  Shipment_objects_filter (Some (Consignment.consignment_number c)) w = [] →
  mjoin (data !! "tracking_number"%string) = Some (Consignment.consignment_number c) →
  mjoin (data !! "status"%string) = Some st →
  default (Some ""%string) (data !! "location"%string) = None
  ∨ default (Some ""%string) (data !! "description"%string) = None →
  webhook_update {| method := "POST"; body := Some data |} w
  = (inr (Json400 (Some IntegrityError)), after_consignment_saved c st w).
Proof.
  intros Hwf Hin Hnone Htn Hst Hnull. unfold webhook_update. simpl.
  rewrite Htn, Hst, Hnone. simpl.
  unfold Consignment_objects_filter.
  pose proof Hwf as (_ & _ & Hnn & _).
  rewrite (filter_unique Consignment.consignment_number) by done. simpl.
  unfold bind.
  destruct (Consignment_save_status c st w Hwf Hin) as (c' & -> & _).
  unfold ConsignmentHistory_objects_create_nullable.
  destruct Hnull as [-> | ->]; [done|].
  by destruct (default (Some ""%string) (data !! "location"%string)).
Qed.

Lemma webhook_update_consignment_no_status (data : gmap string (option string))
    (c : Consignment.t) (w : World) :
  consignments_wf (consignments w) → c ∈ consignments w →
  Shipment_objects_filter (Some (Consignment.consignment_number c)) w = [] →
  mjoin (data !! "tracking_number"%string) = Some (Consignment.consignment_number c) →
  mjoin (data !! "status"%string) = None →
  webhook_update {| method := "POST"; body := Some data |} w
  = (inr (Json400 (Some IntegrityError)), w).
Proof.
  intros Hwf Hin Hnone Htn Hst. unfold webhook_update. simpl. rewrite Htn, Hst, Hnone.
  simpl. unfold Consignment_objects_filter.
  pose proof Hwf as (_ & _ & Hnn & _).
  by rewrite (filter_unique Consignment.consignment_number) by done.
Qed.


Lemma webhook_update_shipment (data : gmap string string) (s : Shipment.t) (st : string)
    (w : World) :
  shipments_wf (shipments w) → s ∈ shipments w →
  data !! "tracking_number"%string = Some (Shipment.tracking_number s) →
  data !! "status"%string = Some st →
  webhook_update {| method := "POST"; body := Some (Some <$> data) |} w
  = (inr Json200,
     after_status_change s st (default ""%string (data !! "location"%string))
       (default ""%string (data !! "description"%string)) None w).
Proof.
  intros Hwf Hin Htn Hst.
  apply webhook_update_shipment_logged;
    by rewrite ?json_get_str, ?json_get_default_str.
Qed.


End webhook.

Lemma empty_world_wf : world_wf empty_world.
Proof.
  repeat split; simpl; try apply NoDup_nil_2; by apply Forall_nil.
Qed.

Lemma after_status_saved_elem (s : Shipment.t) (st : string) (w : World) :
  s ∈ shipments w → Shipment_with_status st s ∈ shipments (after_status_saved s st w).
Proof.
  intros Hin.
  by apply (replace_row_elem Shipment.pk (shipments w) s (Shipment_with_status st s)).
Qed.

Section status_history.
Import shipping_views.

(** C2, in the form that holds. In a consistent database:
    - a request to [update_shipment_status] that changes the status of a
      stored shipment (a POST by a logged-in user whose status is
      non-empty and differs from the stored one) stores the new status and
      puts exactly one history row, carrying the new status, in front of
      the shipment's history; the histories of other shipments stay as
      they are, and any other request leaves the database alone.  The two
      writes are successive steps of the handler (save, then create):
      after the first the status is already stored while the history is
      still the old one;
    - a POST to [webhook_update] that names a stored shipment and a status
      stores the status, changed or not; it adds one history row when the
      location and the description are absent or text, and with a null
      location or description it answers 400 with the status stored and
      no history row written;
    - over a run of [update_shipment_status] requests the history grows by
      the number of status changes;
    - a shipment made by [create_shipment] starts with one 'pending' row,
      so after any run of [update_shipment_status] requests its history
      holds one row more than the number of status changes applied. *)
Theorem C2_status_change_appends_one_record (w : World) :
  world_wf w →
  (∀ s k request, s ∈ shipments w → Shipment.pk s = Some k →
     let new_status := default ""%string (POST request !! "status"%string) in
     let w' := exec (update_shipment_status request (Shipment.tracking_number s)) w in
     if is_status_change request s then
       Shipment_with_status new_status s ∈ shipments w'
       ∧ (∃ h, shipment_history_of k w' = h :: shipment_history_of k w
               ∧ ShipmentHistory.status h = new_status)
       ∧ (∀ k', k' ≠ k → shipment_history_of k' w' = shipment_history_of k' w)
       ∧ (∃ w1, Shipment_save (Shipment_with_status new_status s) w
                  = (inr (Shipment_with_status new_status s), w1)
                ∧ Shipment_with_status new_status s ∈ shipments w1
                ∧ shipment_histories w1 = shipment_histories w
                ∧ (ShipmentHistory_objects_create (Shipment_with_status new_status s)
                     new_status (default ""%string (POST request !! "location"%string))
                     (default ""%string (POST request !! "description"%string))
                     (User.pk <$> user request) w1).2 = w')
     else w' = w)
  ∧ (∀ s k (data : gmap string (option string)) st,
       s ∈ shipments w → Shipment.pk s = Some k →
       mjoin (data !! "tracking_number"%string) = Some (Shipment.tracking_number s) →
       mjoin (data !! "status"%string) = Some st →
       let request := {| tracking_views.method := "POST";
                         tracking_views.body := Some data |} in
       let w' := exec (tracking_views.webhook_update request) w in
       Shipment_with_status st s ∈ shipments w'
       ∧ match default (Some ""%string) (data !! "location"%string),
               default (Some ""%string) (data !! "description"%string) with
         | Some location, Some description =>
             eval (tracking_views.webhook_update request) w = inr tracking_views.Json200
             ∧ (∃ h, shipment_history_of k w' = h :: shipment_history_of k w
                     ∧ ShipmentHistory.status h = st)
             ∧ (∀ k', k' ≠ k → shipment_history_of k' w' = shipment_history_of k' w)
         | _, _ =>
             eval (tracking_views.webhook_update request) w
             = inr (tracking_views.Json400 (Some IntegrityError))
             ∧ w' = after_status_saved s st w
             ∧ shipment_histories w' = shipment_histories w
         end)
  ∧ (∀ s k requests, s ∈ shipments w → Shipment.pk s = Some k →
       List.length
         (shipment_history_of k (run_updates requests (Shipment.tracking_number s) w))
       = (List.length (shipment_history_of k w)
          + count_status_changes requests (Shipment.tracking_number s) w)%nat)
  ∧ (∀ ShipmentForm calculate_shipping_cost request u f,
       user request = Some u → method request = "POST"%string →
       ShipmentForm (POST request) = Some f →
       Shipment.pk f = None → Shipment.tracking_number f = ""%string →
       generate_identifier "SH" 10 (urandom w (draws w) mod 2 ^ 128)%N
         ∉ Shipment.tracking_number <$> shipments w →
       ∃ s1 k1 w1,
         create_shipment ShipmentForm calculate_shipping_cost request w
           = (inr (Redirect "shipment_detail" (Shipment.tracking_number s1)), w1)
         ∧ first (shipments w1) = Some s1 ∧ Shipment.pk s1 = Some k1
         ∧ (ShipmentHistory.status <$> shipment_history_of k1 w1) = ["pending"%string]
         ∧ ∀ requests,
             List.length
               (shipment_history_of k1
                  (run_updates requests (Shipment.tracking_number s1) w1))
             = S (count_status_changes requests (Shipment.tracking_number s1) w1)).
Proof.
  intros Hwf. pose proof Hwf as (Hs & _). split; [|split; [|split]].
  - intros s k request Hin Hk new_status w'. subst w'.
    rewrite exec_update_shipment_status by done.
    destruct (is_status_change request s); [|done].
    set (loc := default ""%string (POST request !! "location"%string)).
    set (desc := default ""%string (POST request !! "description"%string)).
    split; [by apply after_status_change_wf|]. split; [|split].
    + eexists. rewrite after_status_change_history, bool_decide_eq_true_2 by done.
      by split.
    + intros k' Hk'. rewrite after_status_change_history, bool_decide_eq_false_2; [done|].
      rewrite Hk. congruence.
    + destruct (save_then_log s new_status loc desc (User.pk <$> user request) w Hs Hin)
        as (w1 & E & Hh & Hin1 & Hw). by exists w1.
  - intros s k data st Hin Hk Htn Hst request w'. subst request w'. unfold exec, eval.
    destruct (default (Some ""%string) (data !! "location"%string)) as [loc|] eqn:Eloc;
      [destruct (default (Some ""%string) (data !! "description"%string)) as [desc|]
         eqn:Edesc|].
    + rewrite (webhook_update_shipment_logged data s st loc desc w) by done.
      cbn [fst snd].
      split; [by apply after_status_change_wf|]. split; [done|]. split.
      * eexists. rewrite after_status_change_history, bool_decide_eq_true_2 by done.
        by split.
      * intros k' Hk'.
        rewrite after_status_change_history, bool_decide_eq_false_2; [done|].
        rewrite Hk. congruence.
    + rewrite (webhook_update_shipment_null data s st w) by auto. cbn [fst snd].
      split; [by apply after_status_saved_elem|done].
    + rewrite (webhook_update_shipment_null data s st w) by auto. cbn [fst snd].
      split; [by apply after_status_saved_elem|done].
  - intros s k requests Hin Hk. by apply history_grows_with_changes.
  - intros Form cost request u f Hu Hm Hf Hpk Htn Hfree.
    destruct (create_shipment_history Form cost request u f w Hwf Hu Hm Hf Hpk Htn Hfree)
      as (s1 & k1 & w1 & E & Hfirst & Hk1 & _ & _ & Hhist & Hwf1).
    exists s1, k1, w1. repeat split; try done.
    intros requests.
    assert (Hin1 : s1 ∈ shipments w1).
    { unfold first in Hfirst. destruct (shipments w1); [done|].
      simpl in Hfirst. injection Hfirst as ->. left. }
    rewrite (history_grows_with_changes requests s1 k1 w1 Hwf1 Hin1 Hk1).
    apply (f_equal List.length) in Hhist. rewrite length_fmap in Hhist.
    rewrite Hhist. reflexivity.
Qed.

Lemma C2_status_change_appends_one_record_witness :
  world_wf empty_world
  ∧ (∀ requests,
       List.length
         (shipment_history_of 1 (run_updates requests "SH1234567890" example_world))
       = (1 + count_status_changes requests "SH1234567890" example_world)%nat)
  ∧ ∃ s1 k1 w1,
      create_shipment (λ _, Some example_form) (λ _ _ _ _, money 4500)
        {| method := "POST"; user := Some alice; POST := ∅ |} empty_world
      = (inr (Redirect "shipment_detail" (Shipment.tracking_number s1)), w1)
      ∧ first (shipments w1) = Some s1 ∧ Shipment.pk s1 = Some k1
      ∧ (ShipmentHistory.status <$> shipment_history_of k1 w1) = ["pending"%string]
      ∧ ∀ requests,
          List.length
            (shipment_history_of k1
               (run_updates requests (Shipment.tracking_number s1) w1))
          = S (count_status_changes requests (Shipment.tracking_number s1) w1).
Proof.
  split; [exact empty_world_wf|]. split.
  - intros requests.
    exact (proj1 (proj2 (proj2 (C2_status_change_appends_one_record example_world
                                  example_world_wf)))
             example_shipment 1%nat requests (list_elem_of_here example_shipment [])
             eq_refl).
  - apply (proj2 (proj2 (proj2 (C2_status_change_appends_one_record empty_world
                                  empty_world_wf)))
             (λ _, Some example_form) (λ _ _ _ _, money 4500)
             {| method := "POST"; user := Some alice; POST := ∅ |} alice example_form);
      try reflexivity.
    simpl. intros Hx. by apply elem_of_nil in Hx.
Defined.

(** The example database after bob sets the shipment in transit. *)
Example update_shipment_status_example :
  let request := {| method := "POST"; user := Some bob;
                    POST := {["status" := "in_transit"]} |} in
  let w' := exec (update_shipment_status request "SH1234567890") example_world in
  Shipment.status <$> shipments w' = ["in_transit"%string]
  ∧ ShipmentHistory.status <$> shipment_history_of 1 w' = ["in_transit"; "pending"]%string
  ∧ eval (update_shipment_status request "SH1234567890") example_world
    = inr (Redirect "shipment_detail" "SH1234567890").
Proof. repeat split; vm_compute; reflexivity. Qed.

(** C2 read literally fails twice.  A shipment made by [create_shipment]
    has one history row although no status change was applied to it.  And
    the status and the history are not written as one unit: a webhook
    request with a null location stores the new status of the example
    shipment and writes no history row. *)
Lemma C2_counterexample : ¬ history_count_is_change_count ∧ ¬ status_change_is_atomic.
Proof.
  split.
  - intros H.
    pose (form := Shipment.mk None "" None "pending" "pending" "US" "CA"
                    (money 500) "express" (money 0) (money 0) (money 0) (money 0) 0 None).
    pose (create := {| method := "POST"; user := Some alice; POST := ∅ |}).
    epose proof (H (λ _, Some form) (λ _ _ _ _, money 4500) create [] _ 1%nat
                   eq_refl eq_refl) as Hcount.
    vm_compute in Hcount. discriminate Hcount.
  - intros H.
    pose (data := {[ "tracking_number"%string := Some "SH1234567890"%string;
                     "status"%string := Some "delivered"%string;
                     "location"%string := None ]} : gmap string (option string)).
    specialize (H {| tracking_views.method := "POST"; tracking_views.body := Some data |}
                  example_world example_world_wf).
    destruct H as [h Hh].
    + intros E. apply (f_equal (fmap Shipment.status)) in E.
      vm_compute in E. discriminate E.
    + apply (f_equal List.length) in Hh. vm_compute in Hh. discriminate Hh.
Qed.

End status_history.



(** ** Approval of consignments *)

Section approval.
Import api_views.
Variable get_object : Request → nat → M Consignment.t.

Lemma approve_success_needs_staff (request : Request) (pk : nat) (w w' : World)
    (cn st by_ : string) (at_ : option Z) :
  approve get_object request pk w = (inr (Approved200 cn st by_ at_), w') →
  is_admin_or_staff (user request) = true.
Proof.
  unfold approve, bind. destruct (get_object request pk w) as [[e|c] w1]; [done|].
  by destruct (is_admin_or_staff (user request)).
Qed.

Lemma approve_forbidden (request : Request) (pk : nat) (c : Consignment.t) (w : World) :
  get_object request pk w = (inr c, w) →
  is_admin_or_staff (user request) = false →
  approve get_object request pk w
  = (inr (Forbidden403 "Only admin or staff can approve consignments"), w).
Proof. intros Hg Hs. unfold approve, bind. by rewrite Hg, Hs. Qed.

Lemma approve_by_staff (request : Request) (pk : nat) (c : Consignment.t) (w : World) :
  get_object request pk w = (inr c, w) →
  consignments_wf (consignments w) → c ∈ consignments w →
  is_admin_or_staff (user request) = true →
  let c1 := Consignment_with_approved_at (Some (now w))
              (Consignment_with_approved_by (Some (User.pk (user request)))
                 (Consignment_with_status "approved" c)) in
  approve get_object request pk w
  = (inr (Approved200 (Consignment.consignment_number c) "approved"
            (User.email (user request)) (Some (now w))),
     after_consignment_change c1 "approved" "" "Consignment approved via API"
       (Some (User.pk (user request))) w).
Proof.
  intros Hg Hwf Hin Hs c1. unfold approve, bind. rewrite Hg, Hs. simpl.
  destruct (consignment_save_then_log c c1 "approved" "" "Consignment approved via API"
              (Some (User.pk (user request))) w Hwf Hin eq_refl eq_refl)
    as (w1 & E & _ & <- & _).
  fold c1. by rewrite E.
Qed.

End approval.

(** C7. [approve] answers with success only for an actor whose user type is
    admin or staff.  For a consignment that the retrieval step hands over:
    any other actor gets the 403 answer and nothing is written; an admin or
    staff actor gets the success answer, and the stored consignment then
    has status 'approved', [approved_by] the actor and [approved_at] the
    current time, whatever its status was before (the history gains one
    'approved' row).  When the retrieval step itself raises, [approve]
    raises the same and adds no write of its own. *)
Theorem C7_approve (get_object : api_views.Request → nat → M Consignment.t)
    (request : api_views.Request) (pk : nat) (c : Consignment.t) (w : World) :
  get_object request pk w = (inr c, w) →
  consignments_wf (consignments w) → c ∈ consignments w →
  (∀ w0 w' cn st by_ at_,
     api_views.approve get_object request pk w0
       = (inr (api_views.Approved200 cn st by_ at_), w') →
     api_views.is_admin_or_staff (api_views.user request) = true)
  ∧ (∀ w0 w' e, get_object request pk w0 = (inl e, w') →
       api_views.approve get_object request pk w0 = (inl e, w'))
  ∧ (api_views.is_admin_or_staff (api_views.user request) = false →
       api_views.approve get_object request pk w
       = (inr (api_views.Forbidden403 "Only admin or staff can approve consignments"), w))
  ∧ (api_views.is_admin_or_staff (api_views.user request) = true →
       ∃ c' w',
         api_views.approve get_object request pk w
         = (inr (api_views.Approved200 (Consignment.consignment_number c) "approved"
                   (User.email (api_views.user request)) (Some (now w))), w')
         ∧ c' ∈ consignments w'
         ∧ Consignment.pk c' = Consignment.pk c
         ∧ Consignment.consignment_number c' = Consignment.consignment_number c
         ∧ Consignment.status c' = "approved"%string
         ∧ Consignment.approved_by c' = Some (User.pk (api_views.user request))
         ∧ Consignment.approved_at c' = Some (now w)
         ∧ ∃ h, consignment_histories w' = h :: consignment_histories w
                ∧ ConsignmentHistory.consignment h = Consignment.pk c
                ∧ ConsignmentHistory.status h = "approved"%string).
Proof.
  intros Hg Hwf Hin. split; [|split; [|split]].
  - intros w0 w' cn st by_ at_. apply approve_success_needs_staff.
  - intros w0 w' e He. unfold api_views.approve, bind. by rewrite He.
  - by apply (approve_forbidden get_object request pk c).
  - intros Hs.
    set (c1 := Consignment_with_approved_at (Some (now w))
                 (Consignment_with_approved_by (Some (User.pk (api_views.user request)))
                    (Consignment_with_status "approved" c))).
    destruct (consignment_save_then_log c c1 "approved" "" "Consignment approved via API"
                (Some (User.pk (api_views.user request))) w Hwf Hin eq_refl eq_refl)
      as (w1 & _ & _ & _ & Hel).
    eexists _, _. split; [by apply approve_by_staff|].
    split; [exact Hel|]. repeat split. by eexists.
Qed.

Lemma C7_approve_witness :
  let request := {| api_views.user := bob; api_views.start_date := None;
                    api_views.end_date := None |} in
  api_views.get_object request 1 example_world = (inr example_consignment, example_world)
  ∧ api_views.is_admin_or_staff bob = true
  ∧ ∃ c' w',
      api_views.approve api_views.get_object request 1 example_world
      = (inr (api_views.Approved200 "CN123456789012" "approved" "bob@example.com"
                (Some 1000%Z)), w')
      ∧ c' ∈ consignments w'
      ∧ Consignment.pk c' = Some 1%nat
      ∧ Consignment.consignment_number c' = "CN123456789012"%string
      ∧ Consignment.status c' = "approved"%string
      ∧ Consignment.approved_by c' = Some 2%nat
      ∧ Consignment.approved_at c' = Some 1000%Z
      ∧ ∃ h, consignment_histories w' = h :: consignment_histories example_world
             ∧ ConsignmentHistory.consignment h = Some 1%nat
             ∧ ConsignmentHistory.status h = "approved"%string.
Proof.
  intros request. split; [reflexivity|]. split; [reflexivity|].
  apply (proj2 (proj2 (proj2
           (C7_approve api_views.get_object request 1 example_consignment example_world
              eq_refl (proj1 (proj2 example_world_wf))
              (list_elem_of_here example_consignment []))))).
  reflexivity.
Defined.

(** ** Guarded averages *)

Lemma py_truediv_nonzero (x : pynum) (n : Z) :
  n ≠ 0%Z → ∃ v, py_truediv x n = inr v.
Proof.
  intros Hn. unfold py_truediv.
  destruct (Z.eqb_spec n 0) as [->|_]; [done|].
  destruct x; by eexists.
Qed.

Lemma guarded_average_total (a : pynum) (n : Z) :
  ∃ v, guarded_average a n = inr v ∧ ((n ≤ 0)%Z → v = PyInt 0).
Proof.
  unfold guarded_average. destruct (Z.ltb_spec 0 n) as [Hpos|Hle].
  - destruct (py_truediv_nonzero a n) as [v Hv]; [lia|].
    exists v. split; [done|]. lia.
  - by exists (PyInt 0).
Qed.

Section averages.
Import api_views.

Lemma stats_total (request : Request) (w : World) :
  ∃ body, stats request w = (inr body, w)
    ∧ total_shipments body = Z.of_nat (List.length (Shipment_get_queryset request w))
    ∧ (total_shipments body = 0%Z → average_cost body = PyInt 0).
Proof.
  unfold stats, bind, get_world; simpl.
  match goal with |- context [guarded_average ?a ?n] =>
    destruct (guarded_average_total a n) as (v & -> & Hv)
  end.
  eexists. split; [reflexivity|]. simpl. split; [done|]. intros H. apply Hv. lia.
Qed.

Lemma ShipmentReportView_get_total (request : Request) (w : World) :
  ∃ body, ShipmentReportView_get request w = (inr body, w)
    ∧ (report_total_shipments body = 0%Z → average_value body = PyInt 0).
Proof.
  unfold ShipmentReportView_get, bind, get_world; simpl.
  match goal with |- context [guarded_average ?a ?n] =>
    destruct (guarded_average_total a n) as (v & -> & Hv)
  end.
  eexists. split; [reflexivity|]. simpl. intros H. apply Hv. lia.
Qed.

Lemma FinancialReportView_get_total (request : Request) (w : World) :
  ∃ body, FinancialReportView_get request w = (inr body, w)
    ∧ (filter (λ p, in_date_range (start_date request) (end_date request)
                      (Payment.created_at p) = true)
         (filter (λ p, Payment.status p = "completed"%string) (payments w)) = []
       → average_payment body = PyInt 0).
Proof.
  unfold FinancialReportView_get, bind, get_world; simpl.
  match goal with |- context [guarded_average ?a ?n] =>
    destruct (guarded_average_total a n) as (v & -> & Hv)
  end.
  eexists. split; [reflexivity|]. simpl. intros H. apply Hv. rewrite H. simpl. lia.
Qed.

(** C8. Each average the views compute is defined for every state of the
    database (the handler returns a body, it never raises
    [ZeroDivisionError]) and is 0 when the record set is empty:
    [average_cost] of [ShipmentViewSet.stats], [average_value] of
    [ShipmentReportView.get], [average_payment] of
    [FinancialReportView.get], and the two [Avg(...) or 0] values of
    [reports/views.py]. *)
Theorem C8_average_of_nothing_is_zero :
  (∀ request w, ∃ body, stats request w = (inr body, w)
      ∧ (total_shipments body = 0%Z → average_cost body = PyInt 0))
  ∧ (∀ request w, ∃ body, ShipmentReportView_get request w = (inr body, w)
      ∧ (report_total_shipments body = 0%Z → average_value body = PyInt 0))
  ∧ (∀ request w, ∃ body, FinancialReportView_get request w = (inr body, w)
      ∧ (filter (λ p, in_date_range (start_date request) (end_date request)
                        (Payment.created_at p) = true)
           (filter (λ p, Payment.status p = "completed"%string) (payments w)) = []
         → average_payment body = PyInt 0))
  ∧ (∀ f w, filter (λ s, in_date_range (reports_views.start_date f) (reports_views.end_date f)
                           (Shipment.created_at s)
                         && reports_views.matches (reports_views.status f) (Shipment.status s)
                         && reports_views.matches (reports_views.payment_status f)
                              (Shipment.payment_status s) = true)
                   (shipments w) = []
            → reports_views.avg_shipment_value f w = PyInt 0)
  ∧ (∀ w, filter (λ p, Payment.status p = "completed"%string) (payments w) = []
          → reports_views.avg_payment w = PyInt 0).
Proof.
  split; [|split; [|split; [|split]]].
  - intros request w. destruct (stats_total request w) as (b & E & _ & H). by exists b.
  - apply ShipmentReportView_get_total.
  - apply FinancialReportView_get_total.
  - intros f w H. unfold reports_views.avg_shipment_value. by rewrite H.
  - intros w H. unfold reports_views.avg_payment. by rewrite H.
Qed.

End averages.

(* ===================================================================== *)
(** * Part III: further properties of the handlers                        *)
(* ===================================================================== *)

(** ** Queries and the shape of the tables *)

Lemma first_elem_of {A} (l : list A) (x : A) : first l = Some x → x ∈ l.
Proof. destruct l; [done|]. intros [= ->]. left. Qed.

Lemma first_None {A} (l : list A) : first l = None → l = [].
Proof. by destruct l. Qed.

Lemma first_shipment_filter (tn : option string) (s : Shipment.t) (w : World) :
  first (Shipment_objects_filter tn w) = Some s →
  s ∈ shipments w ∧ tn = Some (Shipment.tracking_number s).
Proof.
  destruct tn as [tn|]; [|done]. intros H%first_elem_of.
  apply list_elem_of_filter in H as [-> H]. done.
Qed.

Lemma first_consignment_filter (cn : option string) (c : Consignment.t) (w : World) :
  first (Consignment_objects_filter cn w) = Some c →
  c ∈ consignments w ∧ cn = Some (Consignment.consignment_number c).
Proof.
  destruct cn as [cn|]; [|done]. intros H%first_elem_of.
  apply list_elem_of_filter in H as [-> H]. done.
Qed.

(** Under the uniqueness constraint a tracking number selects no row or
    exactly one. *)
Lemma Shipment_objects_filter_cases (tn : string) (w : World) :
  shipments_wf (shipments w) →
  Shipment_objects_filter (Some tn) w = []
  ∨ ∃ s, s ∈ shipments w ∧ Shipment.tracking_number s = tn
         ∧ Shipment_objects_filter (Some tn) w = [s].
Proof.
  intros (_ & _ & Hnt & _).
  destruct (first (Shipment_objects_filter (Some tn) w)) as [s|] eqn:E.
  - right. apply first_shipment_filter in E as [Hin [= ->]]. exists s.
    split; [done|]. split; [done|].
    unfold Shipment_objects_filter. by apply (filter_unique Shipment.tracking_number).
  - left. by apply first_None.
Qed.

(** [world_wf] looks at the four tables only. *)
Lemma world_wf_tables (w w' : World) :
  shipments w' = shipments w → shipment_histories w' = shipment_histories w →
  consignments w' = consignments w → consignment_histories w' = consignment_histories w →
  world_wf w → world_wf w'.
Proof. unfold world_wf. by intros -> -> -> ->. Qed.

Lemma after_consignment_change_wf (c0 c : Consignment.t) (st loc desc : string)
    (actor : option nat) (w : World) :
  world_wf w → c0 ∈ consignments w →
  Consignment.pk c = Consignment.pk c0 →
  Consignment.consignment_number c = Consignment.consignment_number c0 →
  world_wf (after_consignment_change c st loc desc actor w).
Proof.
  intros (Hs & (Hpk & Hnd & Hnt & Hne) & Hfk & Hfc) Hin Hk Hn.
  set (c' := Consignment_db_row
               (Consignment_with_total_charges
                  (Consignment.freight_charges c + Consignment.handling_charges c
                   + Consignment.insurance_charges c + Consignment.customs_charges c
                   + Consignment.other_charges c)%Qc c)).
  assert (Hpks : Consignment.pk <$> consignments (after_consignment_change c st loc desc actor w)
                 = Consignment.pk <$> consignments w).
  { by apply (replace_row_fmap Consignment.pk Consignment.pk (consignments w) c0 c'). }
  assert (Hcns : Consignment.consignment_number
                   <$> consignments (after_consignment_change c st loc desc actor w)
                 = Consignment.consignment_number <$> consignments w).
  { by apply (replace_row_fmap Consignment.pk Consignment.consignment_number
                (consignments w) c0 c'). }
  split; [done|]. split; [|split; [done|]].
  - split; [|split; [by rewrite Hpks|split; [by rewrite Hcns|]]].
    + apply (proj1 (Forall_fmap Consignment.pk is_Some _)). rewrite Hpks.
      by apply (proj2 (Forall_fmap Consignment.pk is_Some _)).
    + apply (proj1 (Forall_fmap Consignment.consignment_number (λ t, t ≠ ""%string) _)).
      rewrite Hcns.
      by apply (proj2 (Forall_fmap Consignment.consignment_number (λ t, t ≠ ""%string) _)).
  - rewrite Hpks. simpl. constructor; [|done]. simpl. rewrite Hk.
    by apply list_elem_of_fmap_2.
Qed.

Lemma after_consignment_saved_wf (c : Consignment.t) (st : string) (w : World) :
  world_wf w → c ∈ consignments w → world_wf (after_consignment_saved c st w).
Proof.
  intros (Hs & (Hpk & Hnd & Hnt & Hne) & Hfk & Hfc) Hin.
  set (c1 := Consignment_with_status st c).
  set (c' := Consignment_db_row
               (Consignment_with_total_charges
                  (Consignment.freight_charges c1 + Consignment.handling_charges c1
                   + Consignment.insurance_charges c1 + Consignment.customs_charges c1
                   + Consignment.other_charges c1)%Qc c1)).
  assert (Hpks : Consignment.pk <$> consignments (after_consignment_saved c st w)
                 = Consignment.pk <$> consignments w).
  { by apply (replace_row_fmap Consignment.pk Consignment.pk (consignments w) c c'). }
  assert (Hcns : Consignment.consignment_number
                   <$> consignments (after_consignment_saved c st w)
                 = Consignment.consignment_number <$> consignments w).
  { by apply (replace_row_fmap Consignment.pk Consignment.consignment_number
                (consignments w) c c'). }
  split; [done|]. split; [|split; [done|]].
  - split; [|split; [by rewrite Hpks|split; [by rewrite Hcns|]]].
    + apply (proj1 (Forall_fmap Consignment.pk is_Some _)). rewrite Hpks.
      by apply (proj2 (Forall_fmap Consignment.pk is_Some _)).
    + apply (proj1 (Forall_fmap Consignment.consignment_number (λ t, t ≠ ""%string) _)).
      rewrite Hcns.
      by apply (proj2 (Forall_fmap Consignment.consignment_number (λ t, t ≠ ""%string) _)).
  - by rewrite Hpks.
Qed.

Lemma after_status_saved_wf (s : Shipment.t) (st : string) (w : World) :
  world_wf w → s ∈ shipments w → world_wf (after_status_saved s st w).
Proof.
  intros Hwf Hin.
  destruct (after_status_change_wf s st ""%string ""%string None w Hwf Hin)
    as [(H1 & H2 & H3 & H4) _].
  split; [exact H1|]. split; [exact H2|]. split; [|exact H4].
  simpl in H3. by apply Forall_cons in H3 as [_ H3].
Qed.

(** Writing a stored row back unchanged leaves the table as it is. *)
Lemma replace_row_same {A K} `{EqDecision K} (key : A → K) (l : list A) (x : A) :
  NoDup (key <$> l) → x ∈ l →
  (λ r, if bool_decide (key r = key x) then x else r) <$> l = l.
Proof.
  intros Hnd Hx.
  pose proof (replace_row_fmap key id l x x Hnd Hx eq_refl eq_refl) as H.
  by rewrite !list_fmap_id in H.
Qed.

Lemma Shipment_with_status_same (s : Shipment.t) :
  Shipment_with_status (Shipment.status s) s = s.
Proof. by destruct s. Qed.

(** ** The webhook: which failures write *)

Section webhook_failures.
Import tracking_views.

Lemma webhook_update_missing_status (data : gmap string (option string)) (w : World) :
  mjoin (data !! "status"%string) = None →
  ∃ r, webhook_update {| method := "POST"; body := Some data |} w = (inr r, w)
       ∧ r ≠ Json200.
Proof.
  intros Hst. unfold webhook_update. simpl. rewrite Hst.
  destruct (first (Shipment_objects_filter (mjoin (data !! "tracking_number"%string)) w));
    [by eexists|].
  destruct (first (Consignment_objects_filter (mjoin (data !! "tracking_number"%string)) w));
    by eexists.
Qed.

(** X7. [webhook_update] never raises.  On a database that satisfies its
    constraints: a request that is not a POST is answered 405, a body that
    is no JSON object 400, a number that no shipment or consignment
    carries 404, and an update without a status (missing or null) is not
    answered with success; all of these leave the world exactly as it
    was, and for a known shipment the last one is answered 400 with the
    [IntegrityError] of the refused write.  The one failure that writes is
    an update of a known shipment or consignment that carries a status and
    a null location or description: it is answered 400 with the
    [IntegrityError] of the refused history row, after the save has stored
    the new status.  Every answer is one of these or success. *)
Theorem webhook_update_failures (request : HttpRequest) (w : World) :
  world_wf w →
  ∃ r, webhook_update request w = (inr r, exec (webhook_update request) w)
    ∧ (method request ≠ "POST"%string →
       r = Json405 "Invalid method" ∧ exec (webhook_update request) w = w)
    ∧ (method request = "POST"%string → body request = None →
       r = Json400 None ∧ exec (webhook_update request) w = w)
    ∧ (∀ error, r = Json404 error → exec (webhook_update request) w = w)
    ∧ (∀ data, method request = "POST"%string → body request = Some data →
         mjoin (data !! "status"%string) = None →
         r ≠ Json200 ∧ exec (webhook_update request) w = w)
    ∧ (∀ data s, method request = "POST"%string → body request = Some data →
         s ∈ shipments w →
         mjoin (data !! "tracking_number"%string) = Some (Shipment.tracking_number s) →
         mjoin (data !! "status"%string) = None →
         r = Json400 (Some IntegrityError))
    ∧ (∀ data s st, method request = "POST"%string → body request = Some data →
         s ∈ shipments w →
         mjoin (data !! "tracking_number"%string) = Some (Shipment.tracking_number s) →
         mjoin (data !! "status"%string) = Some st →
         default (Some ""%string) (data !! "location"%string) = None
         ∨ default (Some ""%string) (data !! "description"%string) = None →
         r = Json400 (Some IntegrityError)
         ∧ exec (webhook_update request) w = after_status_saved s st w
         ∧ Shipment_with_status st s ∈ shipments (exec (webhook_update request) w)
         ∧ shipment_histories (exec (webhook_update request) w) = shipment_histories w)
    ∧ (r = Json200
       ∨ exec (webhook_update request) w = w
       ∨ ∃ data st,
           body request = Some data
           ∧ mjoin (data !! "status"%string) = Some st
           ∧ (default (Some ""%string) (data !! "location"%string) = None
              ∨ default (Some ""%string) (data !! "description"%string) = None)
           ∧ r = Json400 (Some IntegrityError)
           ∧ ((∃ s, s ∈ shipments w
                    ∧ mjoin (data !! "tracking_number"%string)
                      = Some (Shipment.tracking_number s)
                    ∧ exec (webhook_update request) w = after_status_saved s st w)
              ∨ (∃ c, c ∈ consignments w
                      ∧ mjoin (data !! "tracking_number"%string)
                        = Some (Consignment.consignment_number c)
                      ∧ exec (webhook_update request) w
                        = after_consignment_saved c st w))).
Proof.
  intros (Hs & Hc & _ & _). destruct request as [m b]. unfold exec. simpl.
  destruct (decide (m = "POST"%string)) as [->|Hm].
  2:{ unfold webhook_update. simpl. rewrite bool_decide_eq_false_2 by done.
      eexists. split; [reflexivity|]. simpl. repeat split; try done. by right; left. }
  destruct b as [data|].
  2:{ eexists. split; [reflexivity|]. simpl. repeat split; try done. by right; left. }
  assert (Hnull : ∀ o1 o2 : option string,
            {∃ loc desc, o1 = Some loc ∧ o2 = Some desc} + {o1 = None ∨ o2 = None}).
  { intros [l|] [d|]; [left; by eexists _, _|right; by right|right; by left
                       |right; by left]. }
  destruct (mjoin (data !! "status"%string)) as [st|] eqn:Hst.
  - destruct (first (Shipment_objects_filter (mjoin (data !! "tracking_number"%string)) w))
      as [s|] eqn:E.
    + apply first_shipment_filter in E as [Hin Htn].
      assert (Huniq : ∀ s', s' ∈ shipments w →
                mjoin (data !! "tracking_number"%string)
                = Some (Shipment.tracking_number s') → s' = s).
      { intros s' Hin' Htn'. rewrite Htn in Htn'. injection Htn' as Htn'.
        destruct Hs as (_ & _ & Hnt & _).
        pose proof (filter_unique Shipment.tracking_number (shipments w) s Hnt Hin) as Hf.
        assert (Hel : s' ∈ filter (λ y, Shipment.tracking_number y
                                        = Shipment.tracking_number s) (shipments w))
          by (by apply list_elem_of_filter).
        rewrite Hf in Hel. by apply list_elem_of_singleton in Hel. }
      destruct (Hnull (default (Some ""%string) (data !! "location"%string))
                  (default (Some ""%string) (data !! "description"%string)))
        as [(loc & desc & Hloc & Hdesc)|Hn].
      * rewrite (webhook_update_shipment_logged data s st loc desc w Hs Hin Htn Hst
                   Hloc Hdesc).
        eexists. split; [reflexivity|]. cbn [fst snd].
        split; [done|]. split; [done|]. split; [done|].
        split; [intros data' _ [= <-] Hst'; congruence|].
        split; [intros data' s' _ [= <-] _ _ Hst'; congruence|].
        split; [|by left].
        intros data' s' st' _ [= <-] _ _ _ [Hl|Hd]; congruence.
      * rewrite (webhook_update_shipment_null data s st w Hs Hin Htn Hst Hn).
        eexists. split; [reflexivity|]. cbn [fst snd].
        split; [done|]. split; [done|]. split; [done|].
        split; [intros data' _ [= <-] Hst'; congruence|].
        split; [intros data' s' _ [= <-] _ _ Hst'; congruence|].
        split.
        -- intros data' s' st' _ [= <-] Hin' Htn' Hst' _.
           assert (st' = st) as -> by congruence.
           rewrite (Huniq s' Hin' Htn').
           split; [done|]. split; [done|]. split; [|done].
           by apply after_status_saved_elem.
        -- right; right. exists data, st. repeat split; try done.
           left. by exists s.
    + apply first_None in E.
      destruct (first (Consignment_objects_filter
                         (mjoin (data !! "tracking_number"%string)) w))
        as [c|] eqn:E'.
      * apply first_consignment_filter in E' as [Hin Hcn].
        assert (Hnone : Shipment_objects_filter (Some (Consignment.consignment_number c)) w
                        = []) by (by rewrite <- Hcn).
        assert (Hno : ∀ s', s' ∈ shipments w →
                  mjoin (data !! "tracking_number"%string)
                  ≠ Some (Shipment.tracking_number s')).
        { intros s' Hin' Htn'. rewrite Htn' in E. unfold Shipment_objects_filter in E.
          assert (Hel : s' ∈ filter (λ y, Shipment.tracking_number y
                                          = Shipment.tracking_number s') (shipments w))
            by (by apply list_elem_of_filter).
          rewrite E in Hel. by apply elem_of_nil in Hel. }
        destruct (Hnull (default (Some ""%string) (data !! "location"%string))
                    (default (Some ""%string) (data !! "description"%string)))
          as [(loc & desc & Hloc & Hdesc)|Hn].
        -- rewrite (webhook_update_consignment_logged data c st loc desc w Hc Hin Hnone
                      Hcn Hst Hloc Hdesc).
           eexists. split; [reflexivity|]. cbn [fst snd].
           split; [done|]. split; [done|]. split; [done|].
           split; [intros data' _ [= <-] Hst'; congruence|].
           split; [intros data' s' _ [= <-] _ _ Hst'; congruence|].
           split; [|by left].
           intros data' s' st' _ [= <-] Hin' Htn' _ _. by destruct (Hno s' Hin').
        -- rewrite (webhook_update_consignment_null data c st w Hc Hin Hnone Hcn Hst Hn).
           eexists. split; [reflexivity|]. cbn [fst snd].
           split; [done|]. split; [done|]. split; [done|].
           split; [intros data' _ [= <-] Hst'; congruence|].
           split; [intros data' s' _ [= <-] _ _ Hst'; congruence|].
           split.
           ++ intros data' s' st' _ [= <-] Hin' Htn' _ _. by destruct (Hno s' Hin').
           ++ right; right. exists data, st. repeat split; try done.
              right. by exists c.
      * apply first_None in E'. rewrite (webhook_update_not_found data w E E').
        eexists. split; [reflexivity|]. cbn [fst snd].
        split; [done|]. split; [done|]. split; [done|].
        split; [intros data' _ [= <-] Hst'; congruence|].
        split; [intros data' s' _ [= <-] _ _ Hst'; congruence|].
        split; [|by right; left].
        intros data' s' st' _ [= <-] Hin' Htn' _ _. exfalso.
        rewrite Htn' in E. unfold Shipment_objects_filter in E.
        assert (Hel : s' ∈ filter (λ y, Shipment.tracking_number y
                                        = Shipment.tracking_number s') (shipments w))
          by (by apply list_elem_of_filter).
        rewrite E in Hel. by apply elem_of_nil in Hel.
  - destruct (webhook_update_missing_status data w Hst) as (r & E & Hr).
    rewrite E. exists r. split; [done|]. cbn [fst snd].
    split; [done|]. split; [done|]. split; [done|].
    split; [done|].
    split.
    { intros data' s _ [= <-] Hin Htn _.
      destruct (get_shipment_or_404_found s w Hs Hin) as [_ Hf].
      revert E. unfold webhook_update. simpl. rewrite Htn, Hf, Hst. simpl.
      by intros [= <-]. }
    split; [|by right; left].
    intros data' s' st' _ [= <-] _ _ Hst'. congruence.
Qed.

Lemma webhook_update_failures_witness :
  world_wf example_world
  ∧ ∃ r, webhook_update
           {| method := "POST";
              body := Some {[ "tracking_number"%string := Some "SH1234567890"%string;
                              "status"%string := Some "delivered"%string;
                              "location"%string := None ]} |}
           example_world
         = (inr r, after_status_saved example_shipment "delivered" example_world)
      ∧ r = Json400 (Some IntegrityError).
Proof.
  split; [exact example_world_wf|].
  destruct (webhook_update_failures
              {| method := "POST";
                 body := Some {[ "tracking_number"%string := Some "SH1234567890"%string;
                                 "status"%string := Some "delivered"%string;
                                 "location"%string := None ]} |}
              example_world example_world_wf) as (r & E & _ & _ & _ & _ & _ & Hn & _).
  exists r.
  destruct (Hn _ example_shipment "delivered"%string eq_refl eq_refl
              (list_elem_of_here _ _) eq_refl eq_refl (or_introl eq_refl))
    as (Hr & Hw & _).
  split; [|exact Hr]. rewrite E. by rewrite Hw.
Defined.

(** X8. A webhook update that names the status a shipment already has
    still writes a history row: the shipments table stays as it is and the
    shipment's history grows by one.  The form handler
    [update_shipment_status] given the same status writes nothing. *)
Theorem webhook_logs_unchanged_status (data : gmap string string) (s : Shipment.t)
    (k : nat) (w : World) :
  world_wf w → s ∈ shipments w → Shipment.pk s = Some k →
  data !! "tracking_number"%string = Some (Shipment.tracking_number s) →
  data !! "status"%string = Some (Shipment.status s) →
  let w' := exec (webhook_update {| method := "POST"; body := Some (Some <$> data) |}) w in
  shipments w' = shipments w
  ∧ (∃ h, shipment_history_of k w' = h :: shipment_history_of k w
          ∧ ShipmentHistory.status h = Shipment.status s
          ∧ ShipmentHistory.created_by h = None)
  ∧ ∀ request,
      shipping_views.POST request !! "status"%string = Some (Shipment.status s) →
      exec (shipping_views.update_shipment_status request (Shipment.tracking_number s)) w
      = w.
Proof.
  intros Hwf Hin Hk Htn Hst w'. pose proof Hwf as (Hs & _). subst w'. unfold exec.
  rewrite (webhook_update_shipment data s _ w Hs Hin Htn Hst). simpl.
  split; [|split].
  - rewrite Shipment_with_status_same.
    destruct Hs as (_ & Hnd & _). by apply replace_row_same.
  - eexists.
    pose proof (after_status_change_history s (Shipment.status s)
                  (default ""%string (data !! "location"%string))
                  (default ""%string (data !! "description"%string)) None w k) as H.
    rewrite bool_decide_eq_true_2 in H by done.
    unfold after_status_change in H. simpl in H. split; [exact H|done].
  - intros request Hp. rewrite update_shipment_status_found by done.
    unfold shipping_views.is_status_change. rewrite Hp.
    rewrite (bool_decide_eq_true_2 (Shipment.status s = Shipment.status s)) by done.
    rewrite andb_false_r, andb_false_r. by destruct (shipping_views.user request).
Qed.

Lemma webhook_logs_unchanged_status_witness :
  let data : gmap string string :=
    {[ "tracking_number"%string := "SH1234567890"%string;
       "status"%string := "pending"%string ]} in
  let w' := exec (webhook_update {| method := "POST"; body := Some (Some <$> data) |}) example_world in
  shipments w' = shipments example_world
  ∧ ∃ h, shipment_history_of 1 w' = h :: shipment_history_of 1 example_world
         ∧ ShipmentHistory.status h = "pending"%string
         ∧ ShipmentHistory.created_by h = None.
Proof.
  intros data w'.
  destruct (webhook_logs_unchanged_status data example_shipment 1 example_world
              example_world_wf (list_elem_of_here example_shipment []) eq_refl
              eq_refl eq_refl) as (H1 & H2 & _).
  split; [exact H1|exact H2].
Defined.

End webhook_failures.

(** ** The form handler: replay and the invariant *)

Section replay.
Import shipping_views.

(** X9. Sending the same request to [update_shipment_status] twice is the
    same as sending it once: the second request finds the status already
    stored and writes nothing, so a double submission leaves one history
    row, not two. *)
Theorem update_shipment_status_replay (request : HttpRequest) (s : Shipment.t) (w : World) :
  world_wf w → s ∈ shipments w →
  let w1 := exec (update_shipment_status request (Shipment.tracking_number s)) w in
  exec (update_shipment_status request (Shipment.tracking_number s)) w1 = w1.
Proof.
  intros Hwf Hin w1. subst w1. pose proof Hwf as (Hs & _).
  rewrite (exec_update_shipment_status request s w Hs Hin).
  destruct (is_status_change request s) eqn:Hch.
  - set (st := default ""%string (POST request !! "status"%string)).
    set (loc := default ""%string (POST request !! "location"%string)).
    set (desc := default ""%string (POST request !! "description"%string)).
    destruct (after_status_change_wf s st loc desc (User.pk <$> user request) w Hwf Hin)
      as [(Hs' & _) Hin'].
    pose proof (exec_update_shipment_status request (Shipment_with_status st s) _ Hs' Hin')
      as E.
    simpl in E. rewrite E.
    assert (is_status_change request (Shipment_with_status st s) = false) as ->; [|done].
    unfold is_status_change in *. simpl.
    destruct (POST request !! "status"%string) as [st'|]; [|by rewrite andb_false_r].
    subst st. simpl. rewrite (bool_decide_eq_true_2 (st' = st')) by done.
    by rewrite !andb_false_r.
  - rewrite (exec_update_shipment_status request s w Hs Hin). by rewrite Hch.
Qed.

Lemma update_shipment_status_replay_witness :
  let request := {| method := "POST"; user := Some bob;
                    POST := {["status" := "in_transit"]} |} in
  let w1 := exec (update_shipment_status request "SH1234567890") example_world in
  exec (update_shipment_status request "SH1234567890") w1 = w1.
Proof.
  intros request.
  exact (update_shipment_status_replay request example_shipment example_world
           example_world_wf (list_elem_of_here example_shipment [])).
Defined.

End replay.

(** ** The invariant of the tables *)

Section invariant.
Import shipping_views.

Lemma update_shipment_status_wf (request : HttpRequest) (tn : string) (w : World) :
  world_wf w → world_wf (exec (update_shipment_status request tn) w).
Proof.
  intros Hwf. pose proof Hwf as (Hs & _).
  destruct (Shipment_objects_filter_cases tn w Hs) as [Hnone|(s & Hin & <- & _)].
  - unfold exec, update_shipment_status. destruct (user request); [|done].
    unfold bind. by rewrite (get_shipment_or_404_missing tn w Hnone).
  - rewrite exec_update_shipment_status by done.
    destruct (is_status_change request s); [|done]. by apply after_status_change_wf.
Qed.

Lemma webhook_update_wf (request : tracking_views.HttpRequest) (w : World) :
  world_wf w → world_wf (exec (tracking_views.webhook_update request) w).
Proof.
  intros Hwf. pose proof Hwf as (Hs & Hc & _ & _). destruct request as [m b]. unfold exec.
  destruct (decide (m = "POST"%string)) as [->|Hm].
  2:{ unfold tracking_views.webhook_update. simpl.
      by rewrite bool_decide_eq_false_2 by done. }
  destruct b as [data|]; [|done].
  assert (Hnull : ∀ o1 o2 : option string,
            {∃ loc desc, o1 = Some loc ∧ o2 = Some desc} + {o1 = None ∨ o2 = None}).
  { intros [l|] [d|]; [left; by eexists _, _|right; by right|right; by left
                       |right; by left]. }
  destruct (Hnull (default (Some ""%string) (data !! "location"%string))
              (default (Some ""%string) (data !! "description"%string)))
    as [(loc & desc & Hloc & Hdesc)|Hn];
    (destruct (mjoin (data !! "status"%string)) as [st|] eqn:Hst;
     [|by destruct (webhook_update_missing_status data w Hst) as (r & -> & _)]);
    (destruct (first (Shipment_objects_filter (mjoin (data !! "tracking_number"%string)) w))
       as [s|] eqn:E;
     [apply first_shipment_filter in E as [Hin Htn]
     |apply first_None in E;
      destruct (first (Consignment_objects_filter
                         (mjoin (data !! "tracking_number"%string)) w))
        as [c|] eqn:E';
      [apply first_consignment_filter in E' as [Hin Hcn];
       assert (Hnone : Shipment_objects_filter
                         (Some (Consignment.consignment_number c)) w = [])
         by (by rewrite <- Hcn)
      |apply first_None in E'; by rewrite (webhook_update_not_found data w E E')]]).
  - rewrite (webhook_update_shipment_logged data s st loc desc w Hs Hin Htn Hst Hloc Hdesc).
    by apply after_status_change_wf.
  - rewrite (webhook_update_consignment_logged data c st loc desc w Hc Hin Hnone Hcn Hst
               Hloc Hdesc).
    by apply (after_consignment_change_wf c).
  - rewrite (webhook_update_shipment_null data s st w Hs Hin Htn Hst Hn).
    by apply after_status_saved_wf.
  - rewrite (webhook_update_consignment_null data c st w Hc Hin Hnone Hcn Hst Hn).
    by apply after_consignment_saved_wf.
Qed.

Section create.
Variable ShipmentForm : gmap string string → option Shipment.t.
Variable calculate_shipping_cost : Qc → string → string → string → Qc.

(** The row and the history row that [create_shipment] writes. *)
Lemma create_shipment_stored (request : HttpRequest) (u : User.t) (f : Shipment.t)
    (w : World) :
  user request = Some u → method request = "POST"%string →
  ShipmentForm (POST request) = Some f →
  Shipment.pk f = None → Shipment.tracking_number f = ""%string →
  generate_identifier "SH" 10 (urandom w (draws w) mod 2 ^ 128)%N
    ∉ Shipment.tracking_number <$> shipments w →
  let cost := calculate_shipping_cost (Shipment.weight f) (Shipment.shipping_method f)
                (Shipment.sender_country f) (Shipment.receiver_country f) in
  let k := fresh_pk (Shipment.pk <$> shipments w) in
  let s := Shipment_with_created_at (now w)
             (Shipment_with_pk (Some k)
                (Shipment_with_tracking_number
                   (generate_identifier "SH" 10 (urandom w (draws w) mod 2 ^ 128)%N)
                   (Shipment_with_owner_and_costs (User.pk u) cost
                      (cost + Shipment.insurance_cost f + Shipment.tax f)%Qc f))) in
  let h := ShipmentHistory.mk
             (Some (fresh_pk (ShipmentHistory.pk <$> shipment_histories w)))
             (Some k) "pending" "" "Shipment created successfully" (now w) None in
  ∃ w', create_shipment ShipmentForm calculate_shipping_cost request w
          = (inr (Redirect "shipment_detail" (Shipment.tracking_number s)), w')
        ∧ shipments w' = s :: shipments w
        ∧ shipment_histories w' = h :: shipment_histories w
        ∧ consignments w' = consignments w
        ∧ consignment_histories w' = consignment_histories w
        ∧ payments w' = payments w.
Proof.
  intros Hu Hm Hf Hpk Htn Hfree cost k s h.
  unfold create_shipment. rewrite Hu, Hm, Hf. simpl.
  unfold bind, Shipment_save, str_truthy. simpl. rewrite Htn. simpl.
  unfold bind. simpl. unfold Shipment_super_save. simpl. rewrite Hpk. simpl.
  rewrite bool_decide_eq_false_2 by done. simpl.
  eexists. split; [reflexivity|]. done.
Qed.

(** A generated tracking number that is already taken: the insert is
    refused and the handler lets the [IntegrityError] through. *)
Lemma create_shipment_collision (request : HttpRequest) (u : User.t) (f : Shipment.t)
    (w : World) :
  user request = Some u → method request = "POST"%string →
  ShipmentForm (POST request) = Some f →
  Shipment.pk f = None → Shipment.tracking_number f = ""%string →
  generate_identifier "SH" 10 (urandom w (draws w) mod 2 ^ 128)%N
    ∈ Shipment.tracking_number <$> shipments w →
  ∃ w', create_shipment ShipmentForm calculate_shipping_cost request w
          = (inl IntegrityError, w')
        ∧ shipments w' = shipments w
        ∧ shipment_histories w' = shipment_histories w
        ∧ consignments w' = consignments w
        ∧ consignment_histories w' = consignment_histories w
        ∧ draws w' = S (draws w).
Proof.
  intros Hu Hm Hf Hpk Htn Htaken.
  unfold create_shipment. rewrite Hu, Hm, Hf. simpl.
  unfold bind, Shipment_save, str_truthy. simpl. rewrite Htn. simpl.
  unfold bind. simpl. unfold Shipment_super_save. simpl. rewrite Hpk. simpl.
  rewrite bool_decide_eq_true_2 by done. simpl.
  eexists. split; [reflexivity|]. done.
Qed.

Lemma create_shipment_wf (request : HttpRequest) (w : World) :
  (∀ f, ShipmentForm (POST request) = Some f →
        Shipment.pk f = None ∧ Shipment.tracking_number f = ""%string) →
  world_wf w →
  world_wf (exec (create_shipment ShipmentForm calculate_shipping_cost request) w).
Proof.
  intros Hform Hwf. unfold exec.
  destruct (user request) as [u|] eqn:Hu; [|by unfold create_shipment; rewrite Hu].
  destruct (decide (method request = "POST"%string)) as [Hm|Hm].
  2:{ unfold create_shipment. rewrite Hu. by rewrite bool_decide_eq_false_2 by done. }
  destruct (ShipmentForm (POST request)) as [f|] eqn:Hf.
  2:{ unfold create_shipment. rewrite Hu, Hf. by case_bool_decide. }
  destruct (Hform f eq_refl) as [Hpk Htn].
  destruct (decide (generate_identifier "SH" 10 (urandom w (draws w) mod 2 ^ 128)%N
                      ∈ Shipment.tracking_number <$> shipments w)) as [Htaken|Hfree].
  - destruct (create_shipment_collision request u f w Hu Hm Hf Hpk Htn Htaken)
      as (w' & -> & H1 & H2 & H3 & H4 & _).
    by apply (world_wf_tables w w').
  - destruct (create_shipment_history ShipmentForm calculate_shipping_cost request u f w
                Hwf Hu Hm Hf Hpk Htn Hfree) as (s & k & w' & -> & _ & _ & _ & _ & _ & Hwf').
    done.
Qed.

End create.

Lemma Consignment_get_object_inv (request : api_views.Request) (pk : nat) (w : World) :
  match api_views.get_object request pk w with
  | (inr c, w') =>
      w' = w ∧ c ∈ consignments w ∧ Consignment.pk c = Some pk
      ∧ Consignment.user c = Some (User.pk (api_views.user request))
  | (inl e, w') => w' = w ∧ e ≠ IntegrityError
  end.
Proof.
  unfold api_views.get_object.
  destruct (filter _ (api_views.Consignment_get_queryset request w)) as [|c [|c' l]] eqn:E;
    [done| |done].
  case_bool_decide as Ho; [|done].
  assert (Hin : c ∈ filter (λ c, Consignment.pk c = Some pk)
                  (api_views.Consignment_get_queryset request w))
    by (rewrite E; left).
  apply list_elem_of_filter in Hin as [Hk Hin]. repeat split; try done.
  unfold api_views.Consignment_get_queryset in Hin.
  destruct (api_views.is_admin_or_staff (api_views.user request)); [done|].
  by apply list_elem_of_filter in Hin as [_ Hin].
Qed.

Lemma approve_wf (request : api_views.Request) (pk : nat) (w : World) :
  world_wf w →
  world_wf (exec (api_views.approve api_views.get_object request pk) w).
Proof.
  intros Hwf. pose proof Hwf as (_ & Hc & _ & _). unfold exec.
  pose proof (Consignment_get_object_inv request pk w) as H.
  destruct (api_views.get_object request pk w) as [[e|c] w'] eqn:E.
  - destruct H as [-> _]. unfold api_views.approve, bind. by rewrite E.
  - destruct H as (-> & Hin & _ & _).
    destruct (api_views.is_admin_or_staff (api_views.user request)) eqn:Hs.
    + rewrite (approve_by_staff api_views.get_object request pk c w E Hc Hin Hs). simpl.
      by apply (after_consignment_change_wf c).
    + by rewrite (approve_forbidden api_views.get_object request pk c w E Hs).
Qed.

(** X10. The constraints of the tables (every row has a key, keys and
    identifiers are unique and identifiers non-empty, every history row
    points to a stored parent) are kept by every handler that writes:
    [update_shipment_status] and [webhook_update] for any request at all,
    [approve] for any actor and key, and [create_shipment] whatever the
    form data, also when the insert is refused. *)
Theorem writers_preserve_world_wf (w : World) :
  world_wf w →
  (∀ request tracking_number,
     world_wf (exec (update_shipment_status request tracking_number) w))
  ∧ (∀ request, world_wf (exec (tracking_views.webhook_update request) w))
  ∧ (∀ request pk, world_wf (exec (api_views.approve api_views.get_object request pk) w))
  ∧ (∀ ShipmentForm calculate_shipping_cost request,
       (∀ f, ShipmentForm (POST request) = Some f →
             Shipment.pk f = None ∧ Shipment.tracking_number f = ""%string) →
       world_wf (exec (create_shipment ShipmentForm calculate_shipping_cost request) w)).
Proof.
  intros Hwf. split; [|split; [|split]].
  - intros request tn. by apply update_shipment_status_wf.
  - intros request. by apply webhook_update_wf.
  - intros request pk. by apply approve_wf.
  - intros Form cost request Hform. by apply create_shipment_wf.
Qed.

Lemma writers_preserve_world_wf_witness :
  world_wf example_world
  ∧ world_wf (exec (create_shipment (λ _, Some example_form) (λ _ _ _ _, money 4500)
                      {| method := "POST"; user := Some alice; POST := ∅ |})
                example_world).
Proof.
  split; [exact example_world_wf|].
  apply (proj2 (proj2 (proj2 (writers_preserve_world_wf example_world example_world_wf)))).
  intros f [= <-]. split; reflexivity.
Defined.

(** ** [create_shipment] *)

(** X11. A valid form posted by a logged-in user, when the generated
    tracking number is free: the shipment is inserted in front of the
    table with the posting user as [user] and [created_by], the current
    time as [created_at], [shipping_cost] the value of
    [calculate_shipping_cost] on the weight, shipping method and the two
    countries of the form, and [total_cost] that cost plus the form's
    insurance cost and tax; one history row for it, 'pending' and without
    author, is put in front of the history table; no other table
    changes. *)
Theorem create_shipment_stores_costs
    (ShipmentForm : gmap string string → option Shipment.t)
    (calculate_shipping_cost : Qc → string → string → string → Qc)
    (request : HttpRequest) (u : User.t) (f : Shipment.t) (w : World) :
  user request = Some u → method request = "POST"%string →
  ShipmentForm (POST request) = Some f →
  Shipment.pk f = None → Shipment.tracking_number f = ""%string →
  generate_identifier "SH" 10 (urandom w (draws w) mod 2 ^ 128)%N
    ∉ Shipment.tracking_number <$> shipments w →
  ∃ s h w',
    create_shipment ShipmentForm calculate_shipping_cost request w
      = (inr (Redirect "shipment_detail" (Shipment.tracking_number s)), w')
    ∧ shipments w' = s :: shipments w
    ∧ shipment_histories w' = h :: shipment_histories w
    ∧ consignments w' = consignments w
    ∧ consignment_histories w' = consignment_histories w
    ∧ payments w' = payments w
    ∧ Shipment.shipping_cost s
      = calculate_shipping_cost (Shipment.weight f) (Shipment.shipping_method f)
          (Shipment.sender_country f) (Shipment.receiver_country f)
    ∧ Shipment.total_cost s
      = (Shipment.shipping_cost s + Shipment.insurance_cost f + Shipment.tax f)%Qc
    ∧ Shipment.insurance_cost s = Shipment.insurance_cost f
    ∧ Shipment.tax s = Shipment.tax f
    ∧ Shipment.status s = Shipment.status f
    ∧ Shipment.user s = Some (User.pk u)
    ∧ Shipment.created_by s = Some (User.pk u)
    ∧ Shipment.created_at s = now w
    ∧ ShipmentHistory.shipment h = Shipment.pk s
    ∧ ShipmentHistory.status h = "pending"%string
    ∧ ShipmentHistory.created_by h = None.
Proof.
  intros Hu Hm Hf Hpk Htn Hfree.
  destruct (create_shipment_stored ShipmentForm calculate_shipping_cost request u f w
              Hu Hm Hf Hpk Htn Hfree) as (w' & E & H1 & H2 & H3 & H4 & H5).
  eexists _, _, w'. split; [exact E|]. split; [exact H1|]. split; [exact H2|].
  repeat split; done.
Qed.

Lemma create_shipment_stores_costs_witness :
  ∃ s h w',
    create_shipment (λ _, Some example_form) (λ _ _ _ _, money 4500)
      {| method := "POST"; user := Some alice; POST := ∅ |} example_world
      = (inr (Redirect "shipment_detail" (Shipment.tracking_number s)), w')
    ∧ shipments w' = s :: shipments example_world
    ∧ shipment_histories w' = h :: shipment_histories example_world
    ∧ Shipment.total_cost s = money 4850.
Proof.
  destruct (create_shipment_stores_costs (λ _, Some example_form) (λ _ _ _ _, money 4500)
              {| method := "POST"; user := Some alice; POST := ∅ |} alice example_form
              example_world eq_refl eq_refl eq_refl eq_refl eq_refl)
    as (s & h & w' & E & H1 & H2 & _ & _ & _ & Hc & Ht & _).
  { apply (bool_decide_unpack _). by vm_compute. }
  exists s, h, w'. split; [exact E|]. split; [exact H1|]. split; [exact H2|].
  rewrite Ht, Hc. apply Qc_is_canon. reflexivity.
Defined.

(** X12. [create_shipment] writes a shipment and its first history row
    together or not at all: an anonymous request, a GET and an invalid
    form are answered without touching the world; a refused insert raises
    [IntegrityError] and leaves both tables as they were.  The handler
    does not draw a second tracking number: when the generated number is
    already taken the request fails. *)
Theorem create_shipment_all_or_nothing
    (ShipmentForm : gmap string string → option Shipment.t)
    (calculate_shipping_cost : Qc → string → string → string → Qc)
    (request : HttpRequest) (w : World) :
  match create_shipment ShipmentForm calculate_shipping_cost request w with
  | (inr (Redirect _ tn), w') =>
      ∃ s h, s ∈ shipments w' ∧ Shipment.tracking_number s = tn
             ∧ shipment_histories w' = h :: shipment_histories w
  | (inr _, w') => w' = w
  | (inl e, w') =>
      e = IntegrityError ∧ shipments w' = shipments w
      ∧ shipment_histories w' = shipment_histories w
  end
  ∧ (∀ u f,
       user request = Some u → method request = "POST"%string →
       ShipmentForm (POST request) = Some f →
       Shipment.pk f = None → Shipment.tracking_number f = ""%string →
       generate_identifier "SH" 10 (urandom w (draws w) mod 2 ^ 128)%N
         ∈ Shipment.tracking_number <$> shipments w →
       ∃ w', create_shipment ShipmentForm calculate_shipping_cost request w
             = (inl IntegrityError, w')
             ∧ shipments w' = shipments w
             ∧ shipment_histories w' = shipment_histories w).
Proof.
  split.
  - unfold create_shipment. destruct (user request) as [u|]; [|done].
    case_bool_decide as Hm; [|done].
    destruct (ShipmentForm (POST request)) as [f|]; [|done].
    unfold bind.
    match goal with |- context [Shipment_save ?x ?y] =>
      pose proof (Shipment_save_inv x y) as H;
      destruct (Shipment_save x y) as [[e|s'] w1]
    end.
    + done.
    + destruct H as (_ & _ & Hin & Hh & _). simpl.
      eexists s', _. split; [done|]. split; [done|]. by rewrite Hh.
  - intros u f Hu Hm Hf Hpk Htn Htaken.
    destruct (create_shipment_collision ShipmentForm calculate_shipping_cost request u f w
                Hu Hm Hf Hpk Htn Htaken) as (w' & E & H1 & H2 & _).
    by exists w'.
Qed.

End invariant.

(** ** Creating a shipment through the API *)



(** ** Approval and ownership *)


(** ** Tracking *)

Lemma insert_desc_perm {A} (key : A → Z) (x : A) (l : list A) :
  api_tracking.insert_desc key x l ≡ₚ x :: l.
Proof.
  induction l as [|y l IH]; simpl; [done|].
  destruct (key y <=? key x)%Z; [done|]. rewrite IH. apply Permutation_swap.
Qed.

Lemma order_by_desc_perm {A} (key : A → Z) (l : list A) :
  api_tracking.order_by_desc key l ≡ₚ l.
Proof.
  induction l as [|x l IH]; simpl; [done|].
  rewrite insert_desc_perm. by rewrite IH.
Qed.

Section tracking.
Import api_tracking.

Lemma TrackShipmentView_get_shipment (s : Shipment.t) (w : World) :
  shipments_wf (shipments w) → s ∈ shipments w →
  TrackShipmentView_get (Shipment.tracking_number s) w
  = (inr (Found200
            {| type_ := "shipment";
               tracking_number := Shipment.tracking_number s;
               status := Shipment.status s;
               history :=
                 (λ h, {| entry_status := ShipmentHistory.status h;
                          entry_location := ShipmentHistory.location h;
                          entry_description := ShipmentHistory.description h;
                          entry_timestamp := ShipmentHistory.created_at h |})
                   <$> order_by_desc ShipmentHistory.created_at
                         (filter (λ h, ShipmentHistory.shipment h = Shipment.pk s)
                            (shipment_histories w)) |}), w).
Proof.
  intros Hwf Hin. unfold TrackShipmentView_get, bind, get_world.
  destruct (get_shipment_or_404_found s w Hwf Hin) as [_ ->]. done.
Qed.

(** X15. What the webhook writes is what the tracking endpoint shows:
    after a successful [webhook_update] for a stored shipment,
    [TrackShipmentView.get] for its number answers with type 'shipment',
    the new status, and a history that holds an entry with the new status,
    the location and description of the update and the time of the
    update, and is one entry longer than the shipment's history was. *)
Theorem track_after_webhook (data : gmap string string) (s : Shipment.t) (st : string)
    (w : World) :
  world_wf w → s ∈ shipments w →
  data !! "tracking_number"%string = Some (Shipment.tracking_number s) →
  data !! "status"%string = Some st →
  let w' := exec (tracking_views.webhook_update
                    {| tracking_views.method := "POST";
                       tracking_views.body := Some (Some <$> data) |}) w in
  ∃ body,
    TrackShipmentView_get (Shipment.tracking_number s) w' = (inr (Found200 body), w')
    ∧ type_ body = "shipment"%string
    ∧ tracking_number body = Shipment.tracking_number s
    ∧ status body = st
    ∧ {| entry_status := st;
         entry_location := default ""%string (data !! "location"%string);
         entry_description := default ""%string (data !! "description"%string);
         entry_timestamp := now w |} ∈ history body
    ∧ List.length (history body)
      = S (List.length (filter (λ h, ShipmentHistory.shipment h = Shipment.pk s)
                          (shipment_histories w))).
Proof.
  intros Hwf Hin Htn Hst w'. pose proof Hwf as (Hs & _). subst w'. unfold exec.
  rewrite (webhook_update_shipment data s st w Hs Hin Htn Hst). simpl.
  set (loc := default ""%string (data !! "location"%string)).
  set (desc := default ""%string (data !! "description"%string)).
  destruct (after_status_change_wf s st loc desc None w Hwf Hin) as [(Hs' & _) Hin'].
  pose proof (TrackShipmentView_get_shipment (Shipment_with_status st s) _ Hs' Hin') as E.
  simpl in E. eexists. split; [exact E|]. simpl.
  split; [done|]. split; [done|]. split; [done|].
  rewrite filter_cons_True by done. split.
  - apply list_elem_of_fmap. eexists. split; [|rewrite order_by_desc_perm; left]. done.
  - rewrite length_fmap, order_by_desc_perm. done.
Qed.

Lemma track_after_webhook_witness :
  let data : gmap string string :=
    {[ "tracking_number"%string := "SH1234567890"%string;
       "status"%string := "delivered"%string;
       "location"%string := "Toronto"%string ]} in
  let w' := exec (tracking_views.webhook_update
                    {| tracking_views.method := "POST";
                       tracking_views.body := Some (Some <$> data) |}) example_world in
  ∃ body,
    TrackShipmentView_get "SH1234567890" w' = (inr (Found200 body), w')
    ∧ status body = "delivered"%string
    ∧ List.length (history body) = 2%nat.
Proof.
  intros data w'.
  destruct (track_after_webhook data example_shipment "delivered" example_world
              example_world_wf (list_elem_of_here example_shipment []) eq_refl eq_refl)
    as (body & E & _ & _ & Hst & _ & Hlen).
  exists body. split; [exact E|]. split; [exact Hst|exact Hlen].
Defined.


(** [TrackingWebhookView.post] on the example database: an update of the
    stored shipment, and an unknown number. *)
Example TrackingWebhookView_post_examples :
  eval (TrackingWebhookView_post
          (Some {[ "tracking_number"%string := Some "SH1234567890"%string;
                   "status"%string := Some "delivered"%string ]})) example_world
  = inr (Ok200 "Shipment SH1234567890 updated to delivered")
  ∧ TrackingWebhookView_post
      (Some {[ "tracking_number"%string := Some "SH0000000000"%string;
               "status"%string := Some "delivered"%string ]}) example_world
    = (inl AttributeError, example_world)
  ∧ TrackingWebhookView_post None example_world = (inl UnboundLocalError, example_world).
Proof. split; [|split]; vm_compute; reflexivity. Qed.

End tracking.
(** ** Payments *)

Lemma example_payments_wf : payments_wf [example_payment].
Proof. repeat split; simpl; repeat constructor; try done; set_solver. Qed.

(** X17. [process] sets a stored payment to 'processing' whatever its
    status was (a completed or refunded payment included): the answer
    names the payment and the new status, the stored row differs from the
    old one in the status only, every other payment stays as it is, and no
    random value is drawn. *)
Theorem process_sets_processing (get_object : api_views.Request → nat → M Payment.t)
    (request : api_views.Request) (pk : nat) (p : Payment.t) (w : World) :
  get_object request pk w = (inr p, w) →
  payments_wf (payments w) → p ∈ payments w →
  ∃ w',
    api_payments.process get_object request pk w
    = (inr (api_payments.Processing200 (Payment.payment_id p) "processing"
              "Payment processing started"), w')
    ∧ payments w'
      = (λ r, if bool_decide (Payment.pk r = Payment.pk p)
              then Payment_with_status "processing" p else r) <$> payments w
    ∧ Payment_with_status "processing" p ∈ payments w'
    ∧ (∀ q, q ∈ payments w → Payment.pk q ≠ Payment.pk p → q ∈ payments w')
    ∧ Payment.amount <$> payments w' = Payment.amount <$> payments w
    ∧ draws w' = draws w.
Proof.
  intros Hg Hwf Hin. unfold api_payments.process, bind. rewrite Hg.
  rewrite (Payment_save_update p (Payment_with_status "processing" p) w Hwf Hin
             eq_refl eq_refl). simpl.
  eexists. split; [reflexivity|]. simpl. split; [done|].
  destruct Hwf as (_ & Hnd & _).
  split; [|split; [|split; [|done]]].
  - by apply (replace_row_elem Payment.pk (payments w) p
                (Payment_with_status "processing" p)).
  - intros q Hq Hne. apply list_elem_of_fmap. exists q. split; [|done].
    by rewrite bool_decide_eq_false_2.
  - by apply (replace_row_fmap Payment.pk Payment.amount (payments w) p
                (Payment_with_status "processing" p)).
Qed.

Lemma process_sets_processing_witness :
  let w := with_payments [example_payment] example_world in
  let request := {| api_views.user := alice; api_views.start_date := None;
                    api_views.end_date := None |} in
  ∃ w',
    api_payments.process api_payments.get_object request 1 w
    = (inr (api_payments.Processing200 "PAY123456789012" "processing"
              "Payment processing started"), w')
    ∧ Payment.status <$> payments w' = ["processing"%string].
Proof.
  intros w request.
  destruct (process_sets_processing api_payments.get_object request 1 example_payment w
              eq_refl example_payments_wf (list_elem_of_here example_payment []))
    as (w' & E & Hp & _).
  exists w'. split; [exact E|]. rewrite Hp. reflexivity.
Defined.

(** ** Statistics *)

Lemma count_status_three (l : list Shipment.t) :
  (api_views.count_status "pending" l + api_views.count_status "in_transit" l
   + api_views.count_status "delivered" l ≤ Z.of_nat (List.length l))%Z.
Proof.
  unfold api_views.count_status.
  induction l as [|s l IH]; simpl; [lia|].
  destruct (decide (Shipment.status s = "pending"%string)) as [E|E];
    [rewrite (filter_cons_True (λ s, Shipment.status s = "pending"%string)) by done
    |rewrite (filter_cons_False (λ s, Shipment.status s = "pending"%string)) by done];
  (destruct (decide (Shipment.status s = "in_transit"%string)) as [E1|E1];
    [rewrite (filter_cons_True (λ s, Shipment.status s = "in_transit"%string)) by done
    |rewrite (filter_cons_False (λ s, Shipment.status s = "in_transit"%string)) by done]);
  (destruct (decide (Shipment.status s = "delivered"%string)) as [E2|E2];
    [rewrite (filter_cons_True (λ s, Shipment.status s = "delivered"%string)) by done
    |rewrite (filter_cons_False (λ s, Shipment.status s = "delivered"%string)) by done]);
  simpl; try congruence; lia.
Qed.

(** X18. [stats] always answers, reads the database without changing it,
    and its counts are consistent: the pending, in-transit and delivered
    counts are non-negative and together never exceed the total, and for
    a customer the total never exceeds the number of stored shipments. *)
Theorem stats_counts_consistent (request : api_views.Request) (w : World) :
  ∃ body, api_views.stats request w = (inr body, w)
    ∧ (0 ≤ api_views.pending_shipments body)%Z
    ∧ (0 ≤ api_views.in_transit_shipments body)%Z
    ∧ (0 ≤ api_views.delivered_shipments body)%Z
    ∧ (api_views.pending_shipments body + api_views.in_transit_shipments body
       + api_views.delivered_shipments body ≤ api_views.total_shipments body)%Z
    ∧ (api_views.total_shipments body ≤ Z.of_nat (List.length (shipments w)))%Z.
Proof.
  unfold api_views.stats, bind, get_world; simpl.
  match goal with |- context [guarded_average ?a ?n] =>
    destruct (guarded_average_total a n) as (v & -> & Hv)
  end.
  eexists. split; [reflexivity|]. simpl.
  split; [unfold api_views.count_status; lia|].
  split; [unfold api_views.count_status; lia|].
  split; [unfold api_views.count_status; lia|].
  split; [apply count_status_three|].
  unfold api_views.Shipment_get_queryset.
  destruct (api_views.is_admin_or_staff (api_views.user request)); [lia|].
  apply inj_le, length_filter.
Qed.

(** ** The detail page *)

Section detail.
Import shipping_views shipping_detail.

Lemma get_own_shipment_or_404_stored (s : Shipment.t) (u : nat) (w : World) :
  shipments_wf (shipments w) → s ∈ shipments w →
  get_own_shipment_or_404 (Shipment.tracking_number s) u w
  = if bool_decide (Shipment.user s = Some u) then (inr s, w) else (inl Http404, w).
Proof.
  intros (_ & _ & Hnt & _) Hin. unfold get_own_shipment_or_404.
  rewrite (list_filter_iff _ (λ r, Shipment.user r = Some u
                                   ∧ Shipment.tracking_number r = Shipment.tracking_number s))
    by (intros r; tauto).
  rewrite <- (list_filter_filter (λ r, Shipment.user r = Some u)
                (λ r, Shipment.tracking_number r = Shipment.tracking_number s)).
  rewrite (filter_unique Shipment.tracking_number) by done.
  case_bool_decide as Ho.
  - by rewrite filter_cons_True.
  - by rewrite filter_cons_False.
Qed.

(** X20. [update_shipment_status] does not ask whose shipment it is: a
    status-changing POST by any logged-in user changes the stored status
    of any shipment and redirects to the detail page.  The detail page
    does ask: followed by the same user it renders the shipment with the
    new status and the longer history when the user owns the shipment, and
    is [Http404] when not. *)
Theorem update_then_detail (request : HttpRequest) (u : User.t) (s : Shipment.t)
    (st : string) (w : World) :
  world_wf w → s ∈ shipments w →
  user request = Some u → method request = "POST"%string →
  POST request !! "status"%string = Some st →
  st ≠ ""%string → st ≠ Shipment.status s →
  ∃ w',
    update_shipment_status request (Shipment.tracking_number s) w
    = (inr (Redirect "shipment_detail" (Shipment.tracking_number s)), w')
    ∧ Shipment_with_status st s ∈ shipments w'
    ∧ (Shipment.user s ≠ Some (User.pk u) →
       shipment_detail request (Shipment.tracking_number s) w' = (inl Http404, w'))
    ∧ (Shipment.user s = Some (User.pk u) →
       ∃ history,
         shipment_detail request (Shipment.tracking_number s) w'
         = (inr (RenderDetail "shipping/shipment_detail.html"
                   (Shipment_with_status st s) history), w')
         ∧ List.length history
           = S (List.length (filter (λ h, ShipmentHistory.shipment h = Shipment.pk s)
                               (shipment_histories w)))).
Proof.
  intros Hwf Hin Hu Hm Hp Hne Hch. pose proof Hwf as (Hs & _).
  rewrite (update_shipment_status_found request s w Hs Hin), Hu.
  assert (is_status_change request s = true) as ->.
  { unfold is_status_change, str_truthy. rewrite Hu, Hm, Hp.
    rewrite (bool_decide_eq_true_2 (is_Some (Some u))) by done.
    rewrite (bool_decide_eq_true_2 ("POST"%string = "POST"%string)) by done.
    by rewrite (bool_decide_eq_false_2 (st = ""%string)),
               (bool_decide_eq_false_2 (st = Shipment.status s)) by done. }
  rewrite Hp. simpl.
  set (loc := default ""%string (POST request !! "location"%string)).
  set (desc := default ""%string (POST request !! "description"%string)).
  destruct (after_status_change_wf s st loc desc (Some (User.pk u)) w Hwf Hin)
    as [(Hs' & _) Hin'].
  eexists. split; [reflexivity|]. split; [done|].
  pose proof (get_own_shipment_or_404_stored (Shipment_with_status st s) (User.pk u) _
                Hs' Hin') as E.
  simpl in E. unfold shipment_detail, bind, get_world. rewrite Hu, E. split.
  - intros Ho. by rewrite bool_decide_eq_false_2.
  - intros Ho. rewrite bool_decide_eq_true_2 by done. simpl.
    eexists. split; [reflexivity|].
    rewrite filter_cons_True by done.
    by rewrite order_by_desc_perm.
Qed.

Lemma update_then_detail_witness :
  let request := {| method := "POST"; user := Some bob;
                    POST := {["status" := "in_transit"]} |} in
  ∃ w',
    update_shipment_status request "SH1234567890" example_world
    = (inr (Redirect "shipment_detail" "SH1234567890"), w')
    ∧ Shipment_with_status "in_transit" example_shipment ∈ shipments w'
    ∧ shipment_detail request "SH1234567890" w' = (inl Http404, w').
Proof.
  intros request.
  destruct (update_then_detail request bob example_shipment "in_transit" example_world
              example_world_wf (list_elem_of_here example_shipment [])
              eq_refl eq_refl eq_refl)
    as (w' & E & Hin & H404 & _); [done|done|].
  exists w'. split; [exact E|]. split; [exact Hin|]. by apply H404.
Defined.

End detail.

(** ** The rate calculator: order of the amounts *)

Section rate_order.
Import CalculateRateView Binary64 Binary64Facts.
Local Open Scope float_scope.

Lemma float_leb_trans (x y z : float) :
  (0 <=? x) = true → (x <=? y) = true → (y <=? z) = true → (x <=? z) = true.
Proof.
  rewrite leb_zero_nonneg, !leb_spec. intros Hx Hxy Hyz.
  pose proof (SFleb_nonneg _ _ Hx Hxy) as Hy. pose proof (SFleb_nonneg _ _ Hy Hyz) as Hz.
  rewrite SFleb_value in * by (done || apply Prim2SF_valid).
  apply Z.leb_le in Hxy, Hyz. apply Z.leb_le. lia.
Qed.

(** A non-negative float times the larger of two constants that are at
    least one is the larger product. *)
Lemma float_mul_mono_r (t c1 c2 : float) :
  (0 <=? t) = true →
  positive_normal (Prim2SF c1) = true → positive_normal (Prim2SF c2) = true →
  (2 ^ 1074 ≤ value (Prim2SF c1))%Z → (value (Prim2SF c1) ≤ value (Prim2SF c2))%Z →
  (t * c1 <=? t * c2) = true.
Proof.
  rewrite leb_zero_nonneg, leb_spec, !mul_spec. intros Ht Hc1 Hc2 H1 H12.
  destruct (SFmul_nonneg _ _ (Prim2SF_valid t) (Prim2SF_valid c1) Ht Hc1)
    as (Hv1 & Hn1 & He1).
  destruct (SFmul_nonneg _ _ (Prim2SF_valid t) (Prim2SF_valid c2) Ht Hc2)
    as (Hv2 & Hn2 & He2).
  unfold SF64mul. rewrite SFleb_value by done. apply Z.leb_le.
  rewrite He1, He2 by lia.
  pose proof (value_range _ (Prim2SF_valid t)).
  apply round_mono; [apply Z.mul_nonneg_nonneg; lia|].
  apply Z.mul_le_mono_nonneg_l; lia.
Qed.

Lemma nonneg_finite_value (x : spec_float) :
  valid_binary x = true → nonneg_finite x = true → (value x < 2 ^ 2098)%Z.
Proof.
  intros Hv Hx. destruct x as [s| | |s m e]; try discriminate.
  - cbn [value]. by apply pow2_pos.
  - pose proof (value_finite_range s m e Hv). lia.
Qed.

(** Multiplication by any positive normal constant is monotone on
    non-negative floats. *)
Lemma float_mul_mono_any (x y c : float) :
  (0 <=? x) = true → (x <=? y) = true → positive_normal (Prim2SF c) = true →
  (x * c <=? y * c) = true.
Proof.
  rewrite leb_zero_nonneg, !leb_spec, !mul_spec. intros Hx Hxy Hc.
  pose proof (SFleb_nonneg _ _ Hx Hxy) as Hy.
  pose proof (Prim2SF_valid x) as Hvx. pose proof (Prim2SF_valid y) as Hvy.
  pose proof (Prim2SF_valid c) as Hvc.
  destruct (SFmul_nonneg _ _ Hvx Hvc Hx Hc) as (Hv1 & Hn1 & _).
  destruct (SFmul_nonneg _ _ Hvy Hvc Hy Hc) as (Hv2 & Hn2 & _).
  rewrite SFleb_value in Hxy by done. apply Z.leb_le in Hxy.
  unfold SF64mul. rewrite SFleb_value by done. apply Z.leb_le.
  destruct (nonneg_cases _ Hy) as [Hfy|Hiy].
  - assert (Hfx : nonneg_finite (Prim2SF x) = true).
    { destruct (nonneg_cases _ Hx) as [|Hix]; [done|].
      pose proof (nonneg_finite_value _ Hvy Hfy). rewrite Hix in Hxy.
      cbn [value] in Hxy. lia. }
    destruct (SFmul_value _ _ Hvx Hvc Hfx Hc) as (_ & _ & ->).
    destruct (SFmul_value _ _ Hvy Hvc Hfy Hc) as (_ & _ & ->).
    pose proof (value_range _ Hvx). pose proof (value_range _ Hvc).
    apply round_mono; [apply Z.mul_nonneg_nonneg; lia|].
    apply Z.mul_le_mono_nonneg_r; lia.
  - pose proof (value_range _ Hv1) as Hr. rewrite Hiy.
    destruct (Prim2SF c) as [| | |[|] mc ec]; try discriminate.
    cbn [SFmul xorb value]. lia.
Qed.

Lemma ltb_leb_pos (x y : float) :
  (0 <? x) = true → (x <=? y) = true → (0 <? y) = true.
Proof.
  rewrite !ltb_spec, leb_spec, Prim2SF_zero.
  destruct (Prim2SF x) as [sx|[|]| |[|] mx ex]; try discriminate;
    by destruct (Prim2SF y) as [sy|[|]| |[|] my ey].
Qed.

(** A total of at least the base rate stays so under each multiplier. *)
Lemma multiplier_keeps_floor (x c : float) :
  (10.0 <=? x) = true →
  c = 1.0 ∨ c = 1.5 ∨ c = 2.0 ∨ c = 2.5 →
  (0 <=? x * c) = true ∧ (10.0 <=? x * c) = true.
Proof.
  intros Hx Hc. destruct (multiplier_at_least_one c Hc) as [Hn Hv].
  destruct (float_mul_mono 10.0 x c eq_refl Hx Hn Hv) as (_ & H0 & H).
  split; [done|].
  apply (float_leb_trans 10.0 (10.0 * c) (x * c)); [done| |done].
  by destruct Hc as [-> | [-> | [-> | ->]]].
Qed.

(** The amount before insurance is at least the base rate. *)
Lemma subtotal_floor (w : float) (st o d : string) :
  (0 <=? w) = true →
  (0 <=? (10.0 + w * 2.0) * spec_distance_multiplier o d * spec_service_multiplier st)
  = true
  ∧ (10.0 <=? (10.0 + w * 2.0) * spec_distance_multiplier o d
              * spec_service_multiplier st) = true.
Proof.
  intros Hw.
  assert (Ha : (0 <=? w * 2.0) = true) by (by apply float_mul_nonneg).
  destruct (float_add_mono 0 (w * 2.0) 10.0 eq_refl Ha eq_refl)
    as (_ & _ & _ & _ & _ & Hb).
  change (10.0 + 0) with 10.0 in Hb.
  destruct (multiplier_keeps_floor _ _ Hb (spec_distance_multiplier_cases o d)) as [_ Hc].
  exact (multiplier_keeps_floor _ _ Hc (spec_service_multiplier_cases st)).
Qed.

(** X2. For a weight that is not negative the quoted amount is never
    below the base rate of 10, whatever the service type, the countries
    and the declared value: no combination of multipliers, insurance and
    binary64 rounding brings it under the base rate. *)
Theorem amount_at_least_base_rate (w dv : float) (st o d : string)
    (l wd h : option float) :
  (0 <=? w) = true →
  ∃ t, amount (post (request_of w st o d dv (RNum <$> l, RNum <$> wd, RNum <$> h)))
       = Some t
       ∧ (10.0 <=? t) = true.
Proof.
  intros Hw. rewrite amount_request_of. eexists. split; [reflexivity|].
  destruct (subtotal_floor w st o d Hw) as [H0 H10].
  set (t := (10.0 + w * 2.0) * spec_distance_multiplier o d * spec_service_multiplier st)
    in *.
  destruct (float_add_mono 10.0 t 0 eq_refl H10 eq_refl) as (_ & _ & H1 & _).
  destruct (float_add_mono 0 _ t eq_refl (insurance_nonneg dv) H0)
    as (_ & _ & _ & _ & _ & H2).
  change (10.0 + 0) with 10.0 in H1.
  exact (float_leb_trans 10.0 (t + 0) _ eq_refl H1 H2).
Qed.

Lemma amount_at_least_base_rate_witness :
  (0 <=? 0.5) = true
  ∧ ∃ t, amount (post (request_of 0.5 "standard" "US" "US" (-3) (None, None, None)))
         = Some t
         ∧ (10.0 <=? t) = true.
Proof.
  split; [reflexivity|].
  exact (amount_at_least_base_rate 0.5 (-3) "standard" "US" "US" None None None eq_refl).
Defined.

(** X3. The amount never goes down when the declared value goes up: for
    a weight that is not negative and declared values [dv1 <= dv2]
    (negative ones and zero included, for which no insurance is charged)
    the amount for [dv1] is at most the amount for [dv2]. *)
Theorem amount_monotone_in_declared_value (w dv1 dv2 : float) (st o d : string)
    (l wd h : option float) :
  (0 <=? w) = true → (dv1 <=? dv2) = true →
  ∃ t1 t2,
    amount (post (request_of w st o d dv1 (RNum <$> l, RNum <$> wd, RNum <$> h)))
      = Some t1
    ∧ amount (post (request_of w st o d dv2 (RNum <$> l, RNum <$> wd, RNum <$> h)))
      = Some t2
    ∧ (t1 <=? t2) = true.
Proof.
  intros Hw H12. rewrite !amount_request_of. eexists _, _.
  split; [reflexivity|]. split; [reflexivity|].
  destruct (subtotal_floor w st o d Hw) as [H0 _].
  assert (Hins : ((if 0 <? dv1 then dv1 * 0.01 else 0)
                  <=? (if 0 <? dv2 then dv2 * 0.01 else 0)) = true).
  { destruct (0 <? dv1) eqn:H1.
    - rewrite (ltb_leb_pos dv1 dv2 H1 H12).
      apply float_mul_mono_any; [by apply ltb_zero_nonneg|done|reflexivity].
    - exact (insurance_nonneg dv2). }
  by destruct (float_add_mono _ _ _ (insurance_nonneg dv1) Hins H0)
    as (_ & _ & _ & _ & _ & H).
Qed.

Lemma amount_monotone_in_declared_value_witness :
  (0 <=? 5) = true ∧ ((-20) <=? 1000) = true
  ∧ ∃ t1 t2,
      amount (post (request_of 5 "express" "US" "CA" (-20) (None, None, None))) = Some t1
      ∧ amount (post (request_of 5 "express" "US" "CA" 1000 (None, None, None))) = Some t2
      ∧ (t1 <=? t2) = true.
Proof.
  split; [reflexivity|]. split; [reflexivity|].
  exact (amount_monotone_in_declared_value 5 (-20) 1000 "express" "US" "CA"
           None None None eq_refl eq_refl).
Defined.

(** The amount is monotone in each multiplier. *)
Lemma amount_monotone_in_multipliers (w dv d1 d2 s1 s2 : float) :
  (0 <=? w) = true →
  d1 = 1.0 ∨ d1 = 1.5 ∨ d1 = 2.0 ∨ d1 = 2.5 → d2 = 1.0 ∨ d2 = 1.5 ∨ d2 = 2.0 ∨ d2 = 2.5 →
  s1 = 1.0 ∨ s1 = 1.5 ∨ s1 = 2.0 ∨ s1 = 2.5 → s2 = 1.0 ∨ s2 = 1.5 ∨ s2 = 2.0 ∨ s2 = 2.5 →
  (value (Prim2SF d1) ≤ value (Prim2SF d2))%Z →
  (value (Prim2SF s1) ≤ value (Prim2SF s2))%Z →
  ((10.0 + w * 2.0) * d1 * s1 + (if 0 <? dv then dv * 0.01 else 0)
   <=? (10.0 + w * 2.0) * d2 * s2 + (if 0 <? dv then dv * 0.01 else 0)) = true.
Proof.
  intros Hw Hd1 Hd2 Hs1 Hs2 Hd Hs.
  destruct (multiplier_at_least_one d1 Hd1) as [Hnd1 Hvd1].
  destruct (multiplier_at_least_one d2 Hd2) as [Hnd2 Hvd2].
  destruct (multiplier_at_least_one s1 Hs1) as [Hns1 Hvs1].
  destruct (multiplier_at_least_one s2 Hs2) as [Hns2 Hvs2].
  assert (Ha : (0 <=? w * 2.0) = true) by (by apply float_mul_nonneg).
  destruct (float_add_mono 0 (w * 2.0) 10.0 eq_refl Ha eq_refl)
    as (_ & _ & _ & _ & Hb0 & _).
  set (a := 10.0 + w * 2.0) in *.
  pose proof (float_mul_nonneg a d1 Hb0 Hnd1) as Hc0.
  pose proof (float_mul_mono_r a d1 d2 Hb0 Hnd1 Hnd2 Hvd1 Hd) as Hc.
  destruct (float_mul_mono _ _ s1 Hc0 Hc Hns1 Hvs1) as (He0 & Hf0 & He).
  pose proof (float_leb_trans 0 _ _ eq_refl Hc0 Hc) as Hc0'.
  pose proof (float_mul_mono_r (a * d2) s1 s2 Hc0' Hns1 Hns2 Hvs1 Hs) as Hg.
  pose proof (float_leb_trans _ _ _ He0 He Hg) as Hh.
  by destruct (float_add_mono _ _ _ He0 Hh (insurance_nonneg dv)) as (_ & _ & H & _).
Qed.

(** X4. A faster service never costs less: with the weight (not
    negative), the countries and the declared value fixed, the amounts
    for 'standard', 'express', 'overnight' and 'same_day' are in
    ascending order. *)
Theorem faster_service_never_cheaper (w dv : float) (o d : string)
    (l wd h : option float) :
  (0 <=? w) = true →
  ∃ t1 t2 t3 t4,
    amount (post (request_of w "standard" o d dv (RNum <$> l, RNum <$> wd, RNum <$> h)))
      = Some t1
    ∧ amount (post (request_of w "express" o d dv (RNum <$> l, RNum <$> wd, RNum <$> h)))
      = Some t2
    ∧ amount (post (request_of w "overnight" o d dv (RNum <$> l, RNum <$> wd, RNum <$> h)))
      = Some t3
    ∧ amount (post (request_of w "same_day" o d dv (RNum <$> l, RNum <$> wd, RNum <$> h)))
      = Some t4
    ∧ (t1 <=? t2) = true ∧ (t2 <=? t3) = true ∧ (t3 <=? t4) = true.
Proof.
  intros Hw. rewrite !amount_request_of. eexists _, _, _, _.
  split; [reflexivity|]. split; [reflexivity|]. split; [reflexivity|].
  split; [reflexivity|].
  pose proof (spec_distance_multiplier_cases o d) as Hd.
  change (spec_service_multiplier "standard") with 1.0.
  change (spec_service_multiplier "express") with 1.5.
  change (spec_service_multiplier "overnight") with 2.0.
  change (spec_service_multiplier "same_day") with 2.5.
  repeat split;
    (apply amount_monotone_in_multipliers; auto 6; [lia|];
     apply Z.leb_le; vm_compute; reflexivity).
Qed.

Lemma faster_service_never_cheaper_witness :
  (0 <=? 5) = true
  ∧ ∃ t1 t2 t3 t4,
      amount (post (request_of 5 "standard" "US" "CA" 1000 (None, None, None))) = Some t1
      ∧ amount (post (request_of 5 "express" "US" "CA" 1000 (None, None, None))) = Some t2
      ∧ amount (post (request_of 5 "overnight" "US" "CA" 1000 (None, None, None)))
        = Some t3
      ∧ amount (post (request_of 5 "same_day" "US" "CA" 1000 (None, None, None)))
        = Some t4
      ∧ (t1 <=? t2) = true ∧ (t2 <=? t3) = true ∧ (t3 <=? t4) = true.
Proof.
  split; [reflexivity|].
  exact (faster_service_never_cheaper 5 1000 "US" "CA" None None None eq_refl).
Defined.

(** X5. Shipping abroad never costs less than shipping within a country:
    with the weight (not negative), the service type and the declared
    value fixed, the amount for equal origin and destination is at most
    the amount for any pair of countries. *)
Theorem international_never_cheaper (w dv : float) (st o o' d' : string)
    (l wd h : option float) :
  (0 <=? w) = true →
  ∃ t1 t2,
    amount (post (request_of w st o o dv (RNum <$> l, RNum <$> wd, RNum <$> h)))
      = Some t1
    ∧ amount (post (request_of w st o' d' dv (RNum <$> l, RNum <$> wd, RNum <$> h)))
      = Some t2
    ∧ (t1 <=? t2) = true.
Proof.
  intros Hw. rewrite !amount_request_of. eexists _, _.
  split; [reflexivity|]. split; [reflexivity|].
  pose proof (spec_service_multiplier_cases st) as Hs.
  assert (Hoo : spec_distance_multiplier o o = 1.0)
    by (unfold spec_distance_multiplier; by rewrite bool_decide_eq_true_2).
  rewrite Hoo.
  apply amount_monotone_in_multipliers; auto 6.
  - apply spec_distance_multiplier_cases.
  - unfold spec_distance_multiplier. case_bool_decide; apply Z.leb_le; vm_compute;
      reflexivity.
  - lia.
Qed.

Lemma international_never_cheaper_witness :
  (0 <=? 5) = true
  ∧ ∃ t1 t2,
      amount (post (request_of 5 "express" "US" "US" 1000 (None, None, None))) = Some t1
      ∧ amount (post (request_of 5 "express" "US" "CA" 1000 (None, None, None))) = Some t2
      ∧ (t1 <=? t2) = true.
Proof.
  split; [reflexivity|].
  exact (international_never_cheaper 5 1000 "express" "US" "US" "CA" None None None
           eq_refl).
Defined.

(** X1. A service type that is not in the table is priced like
    'standard' (multiplier 1.0, the same amount), and so is a request
    without a service type; but the delivery estimate of the answer is
    '3-5 business days' for the literal 'standard' only, so an unknown
    type is promised '1-2 business days' at the standard price. *)
Theorem unknown_service_type_priced_as_standard (w dv : float) (st o d : string)
    (dims : option raw * option raw * option raw) :
  st ∉ ["standard"; "express"; "overnight"; "same_day"]%string →
  dimensions_accepted (request_of w st o d dv dims) = true →
  ∃ b b0,
    post (request_of w st o d dv dims) = Ok200 b
    ∧ post (request_of w "standard" o d dv dims) = Ok200 b0
    ∧ total b = total b0
    ∧ service_multiplier b = 1.0
    ∧ estimated_days b = "1-2 business days"%string
    ∧ estimated_days b0 = "3-5 business days"%string
    ∧ post {| weight := Some (RNum w); length := dims.1.1; width := dims.1.2;
              height := dims.2; from_country := Some o; to_country := Some d;
              service_type := None; declared_value := Some (RNum dv) |} = Ok200 b0.
Proof.
  intros Hst Hdims.
  assert (Hm : service_multipliers !! st = None).
  { unfold service_multipliers.
    rewrite !lookup_insert_ne, lookup_empty; [done|..];
      intros <-; apply Hst; set_solver. }
  assert (Hne : st ≠ "standard"%string) by (intros ->; apply Hst; set_solver).
  destruct dims as [[[[x|?]|] [[y|?]|]] [[z|?]|]]; try discriminate Hdims;
    unfold post, compute; simpl; rewrite Hm; simpl;
    rewrite (bool_decide_eq_false_2 (st = "standard"%string)) by done;
    destruct (0 <? dv); simpl; eexists _, _; repeat split; reflexivity.
Qed.

Lemma unknown_service_type_priced_as_standard_witness :
  ∃ b b0,
    post (request_of 5 "economy" "US" "CA" 0 (None, None, None)) = Ok200 b
    ∧ post (request_of 5 "standard" "US" "CA" 0 (None, None, None)) = Ok200 b0
    ∧ total b = total b0
    ∧ estimated_days b = "1-2 business days"%string
    ∧ estimated_days b0 = "3-5 business days"%string.
Proof.
  destruct (unknown_service_type_priced_as_standard 5 0 "economy" "US" "CA"
              (None, None, None)) as (b & b0 & E & E0 & Ht & _ & He & He0 & _).
  { apply (bool_decide_unpack _). by vm_compute. }
  { reflexivity. }
  by exists b, b0.
Defined.

End rate_order.

(** X6. A generated identifier is its prefix followed by exactly [n]
    decimal digits, for every random value and every [n] up to 24 (a
    version-4 UUID integer always has at least 24 digits, and [upper]
    changes no digit): tracking numbers are 'SH' and 10 digits,
    consignment numbers 'CN' and 12 digits, payment ids 'PAY' and 12
    digits, 12, 14 and 15 characters in all. *)
Theorem generate_identifier_digits (prefix : string) (n : nat) (r : N) :
  (n ≤ 24)%nat →
  ∃ digits, generate_identifier prefix n r = (prefix +:+ digits)%string
    ∧ String.length digits = n
    ∧ all_digits digits = true
    ∧ String.length (generate_identifier prefix n r) = (String.length prefix + n)%nat.
Proof.
  intros Hn. exists (str_take n (str_of_int (uuid4_int r))).
  assert (Hd : all_digits (str_take n (str_of_int (uuid4_int r))) = true)
    by apply str_take_digits, string_of_uint_digits.
  assert (Hl : String.length (str_take n (str_of_int (uuid4_int r))) = n).
  { apply str_take_exact.
    assert (23 < String.length (str_of_int (uuid4_int r)))%nat; [|lia].
    apply str_of_int_length. pose proof (uuid4_int_lower r).
    etrans; [|done]. by vm_compute. }
  unfold generate_identifier. rewrite str_upper_digits by done.
  split; [done|]. split; [done|]. split; [done|].
  by rewrite string_app_length, Hl.
Qed.

Lemma generate_identifier_digits_witness :
  (10 ≤ 24)%nat
  ∧ ∃ digits, generate_identifier "SH" 10 0 = ("SH" +:+ digits)%string
      ∧ String.length digits = 10%nat
      ∧ all_digits digits = true
      ∧ String.length (generate_identifier "SH" 10 0) = 12%nat.
Proof.
  split; [lia|].
  apply (generate_identifier_digits "SH" 10 0). lia.
Defined.

